(** * code-mentor-llm: retrieval, response parsing and interview sessions

    A shallow embedding of the server-side core of the repository:
    - [JS]: the JavaScript values, strings and regular expressions the
      services rely on;
    - [Interview]: the class [InterviewModeService]
      (src/unnamed/part_003) with [INTERVIEW_MODE] of
      src/server/utils/constants.js;
    - [Faiss]: the class [FAISSService] (src/unnamed/part_005, imported
      as rag/faissService.js);
    - [Templates]: [parseStructuredResponse] and
      [parseEvaluationResponse] (src/unnamed/part_004, imported as
      services/promptTemplates.js);
    - [Rag]: [getModeConfig] and the class [RAGPipeline]
      (src/server/rag/ragPipeline.js);
    - [PromptTemplates]: the prompt builders of promptTemplates.js
      (src/unnamed/part_004);
    - [Embedding]: the class [EmbeddingService]
      (src/server/services/embeddingService.js);
    - [AnalyzeController] and [EvaluateController]: the request handlers
      (src/unnamed/part_006).

    The embedding comes first, then the vocabulary of the properties,
    then the properties and their proofs. *)

From Stdlib Require Import ZArith NArith List String Ascii Bool Lia Floats Sorted.
From stdpp Require Import gmap strings list fin_maps.
Import ListNotations.

Set Warnings "-register-all,-inexact-float".
Local Open Scope Z_scope.

(* ===================================================================== *)
(** * JavaScript strings and regular expressions                          *)
(* ===================================================================== *)

Module JS.

(** A JavaScript string is a sequence of UTF-16 code units. *)
Abbreviation jstring := (list N).

(** A literal of the source, written in ASCII. *)
Definition js (s : string) : jstring :=
  map N_of_ascii (list_ascii_of_string s).

Definition char_eqb (a b : N) : bool := N.eqb a b.

Fixpoint jstring_eqb (a b : jstring) : bool :=
  match a, b with
  | [], [] => true
  | x :: a', y :: b' => char_eqb x y && jstring_eqb a' b'
  | _, _ => false
  end.

(** [WhiteSpace] and [LineTerminator] of ECMAScript: the class [\s] of a
    regular expression and the code units [String.prototype.trim] strips. *)
Definition is_space (c : N) : bool :=
  ((9 <=? c) && (c <=? 13))%N
  || (c =? 32)%N || (c =? 160)%N || (c =? 5760)%N
  || ((8192 <=? c) && (c <=? 8202))%N
  || (c =? 8232)%N || (c =? 8233)%N || (c =? 8239)%N
  || (c =? 8287)%N || (c =? 12288)%N || (c =? 65279)%N.

(** The class [\d]. *)
Definition is_digit (c : N) : bool := ((48 <=? c) && (c <=? 57))%N.

Definition is_upper (c : N) : bool := ((65 <=? c) && (c <=? 90))%N.
Definition is_lower (c : N) : bool := ((97 <=? c) && (c <=? 122))%N.

(** [Canonicalize] of a code unit under the [i] flag (no [u] flag): the
    upper-case mapping, which never sends a code unit above 127 to one
    below 128. On the ASCII range this is the usual letter folding; the
    patterns of the source only contain ASCII letters, so a code unit
    above 127 matches a pattern letter only if it is that letter. *)
Definition canonicalize (c : N) : N :=
  if is_lower c then (c - 32)%N else c.

Definition any_char (_ : N) : bool := true.
Definition not_newline (c : N) : bool := negb (c =? 10)%N.

(** ** [trim], [split], [join], [substring], [includes] *)

Fixpoint trimStart (s : jstring) : jstring :=
  match s with
  | c :: s' => if is_space c then trimStart s' else s
  | [] => []
  end.

Definition trimEnd (s : jstring) : jstring := rev (trimStart (rev s)).

Definition trim (s : jstring) : jstring := trimEnd (trimStart s).

(** [s.split('\n')]: the pieces between line feeds, at least one piece. *)
Fixpoint split_lines (s : jstring) : list jstring :=
  match s with
  | [] => [[]]
  | c :: s' =>
      if (c =? 10)%N then [] :: split_lines s'
      else match split_lines s' with
           | l :: ls => (c :: l) :: ls
           | [] => [[c]]
           end
  end.

(** [parts.join(sep)]. *)
Fixpoint join (sep : jstring) (parts : list jstring) : jstring :=
  match parts with
  | [] => []
  | [p] => p
  | p :: ps => p ++ sep ++ join sep ps
  end.

(** [s.substring(0, n)] for a non-negative [n]. *)
Definition substring0 (n : nat) (s : jstring) : jstring := firstn n s.

Fixpoint starts_with (p s : jstring) : bool :=
  match p, s with
  | [], _ => true
  | x :: p', y :: s' => char_eqb x y && starts_with p' s'
  | _ :: _, [] => false
  end.

(** [s.includes(p)]. *)
Fixpoint includes (s p : jstring) : bool :=
  starts_with p s ||
  match s with
  | [] => false
  | _ :: s' => includes s' p
  end.

(** ** Regular expressions

    The fragment of ECMAScript patterns the source uses: classes,
    sequence, alternation, greedy and lazy repetition of a class, one
    capture group, positive lookahead and the two anchors (no [m] flag).
    Matching is by backtracking, in continuation-passing style, as the
    ECMAScript specification defines it. *)

Inductive regex :=
| Eps
| Cls (p : N -> bool)
| Seq (a b : regex)
| Alt (a b : regex)
| Star (greedy : bool) (p : N -> bool)
| Group (r : regex)
| Look (r : regex)
| Bos
| Eos.

(** A capture is a pair of indices into the subject; a match result is the
    end index of the match and the capture of group 1. *)
Definition capture := option (nat * nat).
Definition mres := (nat * capture)%type.
Definition cont := nat -> jstring -> capture -> option mres.

Fixpoint star (greedy : bool) (p : N -> bool)
    (i : nat) (s : jstring) (c : capture) (k : cont) {struct s} : option mres :=
  match s with
  | x :: s' =>
      if p x then
        if greedy then
          match star greedy p (S i) s' c k with
          | Some r => Some r
          | None => k i s c
          end
        else
          match k i s c with
          | Some r => Some r
          | None => star greedy p (S i) s' c k
          end
      else k i s c
  | [] => k i s c
  end.

(** [rmatch r i s c k]: match [r] against the suffix [s] that starts at
    index [i] of the subject, then continue with [k]. *)
Fixpoint rmatch (r : regex) (i : nat) (s : jstring) (c : capture) (k : cont)
    {struct r} : option mres :=
  match r with
  | Eps => k i s c
  | Cls p =>
      match s with
      | x :: s' => if p x then k (S i) s' c else None
      | [] => None
      end
  | Seq a b => rmatch a i s c (fun i' s' c' => rmatch b i' s' c' k)
  | Alt a b =>
      match rmatch a i s c k with
      | Some r => Some r
      | None => rmatch b i s c k
      end
  | Star g p => star g p i s c k
  | Group r' => rmatch r' i s c (fun i' s' _ => k i' s' (Some (i, i')))
  | Look r' =>
      match rmatch r' i s c (fun i' _ c' => Some (i', c')) with
      | Some _ => k i s c
      | None => None
      end
  | Bos => if (i =? 0)%nat then k i s c else None
  | Eos => match s with [] => k i s c | _ :: _ => None end
  end.

(** The continuation of a whole pattern: the match ends here. *)
Definition accept : cont := fun i _ c => Some (i, c).

(** One attempt at index [i], where [s] is the rest of the subject. *)
Definition exec_at (r : regex) (i : nat) (s : jstring) : option mres :=
  rmatch r i s None accept.

(** The leftmost match at or after index [i]: start, end, capture. *)
Fixpoint exec_from (r : regex) (i : nat) (s : jstring) : option (nat * nat * capture) :=
  match exec_at r i s with
  | Some (e, c) => Some (i, e, c)
  | None =>
      match s with
      | _ :: s' => exec_from r (S i) s'
      | [] => None
      end
  end.

Definition slice (b e : nat) (s : jstring) : jstring :=
  firstn (e - b) (skipn b s).

(** [s.match(r)] for a pattern without the [g] flag: [None] is [null],
    [Some g1] is the match array, of which the source only reads the
    element 1 (every pattern of the source has its group on the only
    path, so the element is a string). *)
Definition match_ (r : regex) (s : jstring) : option jstring :=
  match exec_from r 0 s with
  | Some (_, _, Some (b, e)) => Some (slice b e s)
  | Some (_, _, None) => Some []
  | None => None
  end.

(** [r.test(s)] / truthiness of [s.match(r)]. *)
Definition test (r : regex) (s : jstring) : bool :=
  match exec_from r 0 s with Some _ => true | None => false end.

(** [s.replace(r, repl)] for a pattern without the [g] flag. *)
Definition replace_first (r : regex) (repl s : jstring) : jstring :=
  match exec_from r 0 s with
  | Some (b, e, _) => firstn b s ++ repl ++ skipn e s
  | None => s
  end.

(** [s.replace(r, repl)] for a pattern with the [g] flag: [skip] counts
    the code units of the current match still to be dropped. *)
Fixpoint replace_go (r : regex) (repl : jstring) (skip i : nat) (s : jstring)
    {struct s} : jstring :=
  match skip with
  | S n =>
      match s with
      | _ :: s' => replace_go r repl n (S i) s'
      | [] => []
      end
  | O =>
      match exec_at r i s with
      | Some (e, _) =>
          repl ++
          match s with
          | x :: s' =>
              if (e =? i)%nat then x :: replace_go r repl 0 (S i) s'
              else replace_go r repl (e - i - 1) (S i) s'
          | [] => []
          end
      | None =>
          match s with
          | x :: s' => x :: replace_go r repl 0 (S i) s'
          | [] => []
          end
      end
  end.

Definition replace_all (r : regex) (repl s : jstring) : jstring :=
  replace_go r repl 0 0 s.

(** ** Pattern builders *)

Definition chr (c : N) : regex := Cls (char_eqb c).
Definition chr_i (c : N) : regex :=
  Cls (fun x => char_eqb (canonicalize x) (canonicalize c)).

Fixpoint seq_of (l : list regex) : regex :=
  match l with
  | [] => Eps
  | [r] => r
  | r :: l' => Seq r (seq_of l')
  end.

(** A literal, case-sensitive and under the [i] flag. *)
Definition lit (s : string) : regex := seq_of (map chr (js s)).
Definition lit_i (s : string) : regex := seq_of (map chr_i (js s)).

(** [r?], greedy. *)
Definition opt (r : regex) : regex := Alt r Eps.
(** [[cls]+], greedy. *)
Definition plus (p : N -> bool) : regex := Seq (Cls p) (Star true p).

Definition ws_star : regex := Star true is_space.
Definition digit_star : regex := Star true is_digit.
(** [([\s\S]*?)]. *)
Definition lazy_group : regex := Group (Star false any_char).

(** ** Exceptions

    A computation that may throw: [Throw e] carries the message of the
    thrown [Error]. *)
Inductive result (A : Type) :=
| Ok (a : A)
| Throw (e : jstring).
Arguments Ok {A} a.
Arguments Throw {A} e.

Definition bind {A B} (m : result A) (f : A -> result B) : result B :=
  match m with
  | Ok a => f a
  | Throw e => Throw e
  end.

Notation "x <- m ;; f" := (bind m (fun x => f))
  (at level 100, m at next level, right associativity).

(** [xs.map(f)] where the callback may throw: the first throw aborts. *)
Fixpoint mapM {A B} (f : A -> result B) (l : list A) : result (list B) :=
  match l with
  | [] => Ok []
  | x :: l' => y <- f x ;; ys <- mapM f l' ;; Ok (y :: ys)
  end.

(** A JavaScript number is an IEEE 754 binary64 value. *)
Abbreviation number := float.

(** The values of JavaScript that JSON and the services exchange. *)
Inductive jsval :=
| VUndefined
| VNull
| VBool (b : bool)
| VNum (x : number)
| VStr (s : jstring)
| VArr (items : list jsval)
| VObj (fields : list (jstring * jsval)).

End JS.

(* ===================================================================== *)
(** * Interview sessions (src/unnamed/part_003)                            *)
(* ===================================================================== *)

Module Interview.
Import JS.

(** [INTERVIEW_MODE] of utils/constants.js. *)
Definition KEYWORD : jstring := js "interview mode".
Definition MAX_GUIDED_QUESTIONS : Z := 3.
Definition UNDERSTANDING : jstring := js "understanding".
Definition APPROACH : jstring := js "approach".
Definition OPTIMIZATION : jstring := js "optimization".
Definition REVEAL : jstring := js "reveal".

(** [Object.values(INTERVIEW_MODE.PHASES)], in insertion order. *)
Definition phases : list jstring :=
  [UNDERSTANDING; APPROACH; OPTIMIZATION; REVEAL].

(** [arr.indexOf(x)]: the first index, or -1. *)
Fixpoint indexOf_from (l : list jstring) (x : jstring) (i : Z) : Z :=
  match l with
  | [] => -1
  | y :: l' => if jstring_eqb y x then i else indexOf_from l' x (i + 1)
  end.

Definition indexOf (l : list jstring) (x : jstring) : Z := indexOf_from l x 0.

Inductive role := User | Assistant.

Record turn := Turn {
  turn_role : role;
  content : jstring;
  timestamp : Z
}.

(** A session object. Dates are milliseconds since the epoch. *)
Record session := Session {
  id : jstring;
  problem : jstring;
  phase : jstring;
  interactions : Z;
  maxInteractions : Z;
  startedAt : Z;
  lastActivity : Z;
  history : list turn
}.

Definition set_phase (p : jstring) (s : session) : session :=
  Session (id s) (problem s) p (interactions s) (maxInteractions s)
          (startedAt s) (lastActivity s) (history s).
Definition set_interactions (n : Z) (s : session) : session :=
  Session (id s) (problem s) (phase s) n (maxInteractions s)
          (startedAt s) (lastActivity s) (history s).
Definition set_lastActivity (t : Z) (s : session) : session :=
  Session (id s) (problem s) (phase s) (interactions s) (maxInteractions s)
          (startedAt s) t (history s).
Definition push_history (h : turn) (s : session) : session :=
  Session (id s) (problem s) (phase s) (interactions s) (maxInteractions s)
          (startedAt s) (lastActivity s) (history s ++ [h]).

(** The service object: the [Map] of sessions by identifier and the
    timeout of the constructor. *)
Record service := Service {
  sessions : gmap jstring session;
  sessionTimeout : Z
}.

(** [new InterviewModeService()]. *)
Definition new_service : service :=
  Service ∅ (30 * 60 * 1000).

(** The period of the sweep the constructor schedules with [setInterval]. *)
Definition cleanupInterval : Z := 5 * 60 * 1000.

Definition with_sessions (m : gmap jstring session) (sv : service) : service :=
  Service m (sessionTimeout sv).

(** [/interview\s*mode/gi] *)
Definition re_interview_mode : regex :=
  Seq (lit_i "interview") (Seq ws_star (lit_i "mode")).

(** [createSession(problem)]: [sessionId] is the value of [uuidv4()] and
    [now] the value of [new Date()]; returns the session and the service
    after [this.sessions.set]. *)
Definition createSession (sessionId : jstring) (now : Z) (problem : jstring)
    (sv : service) : session * service :=
  let cleanProblem := trim (replace_all re_interview_mode [] problem) in
  let s := Session sessionId cleanProblem UNDERSTANDING 0
                   MAX_GUIDED_QUESTIONS now now [] in
  (s, with_sessions (<[sessionId := s]> (sessions sv)) sv).

(** [getSession(sessionId)]: touches [lastActivity]; [None] is [undefined]. *)
Definition getSession (now : Z) (sessionId : jstring) (sv : service)
    : option session * service :=
  match sessions sv !! sessionId with
  | Some s =>
      let s' := set_lastActivity now s in
      (Some s', with_sessions (<[sessionId := s']> (sessions sv)) sv)
  | None => (None, sv)
  end.

(** The phase assignment at the end of [updateSession]. *)
Definition next_phase (s : session) : jstring :=
  let currentIndex := indexOf phases (phase s) in
  if interactions s >=? maxInteractions s then REVEAL
  else if currentIndex <? Z.of_nat (length phases) - 1 then
    nth (Z.to_nat (currentIndex + 1)) phases (phase s)
  else phase s.

(** The mutation [updateSession] performs on a session it found. *)
Definition advance (now : Z) (userResponse : jstring) (s : session) : session :=
  let s1 := set_interactions (interactions s + 1) s in
  let s2 := set_lastActivity now s1 in
  let s3 := match userResponse with
            | [] => s2
            | _ :: _ => push_history (Turn User userResponse now) s2
            end in
  set_phase (next_phase s3) s3.

(** [updateSession(sessionId, userResponse = '')]; [None] is [null]. *)
Definition updateSession (now : Z) (sessionId : jstring) (userResponse : jstring)
    (sv : service) : option session * service :=
  match sessions sv !! sessionId with
  | None => (None, sv)
  | Some s =>
      let s' := advance now userResponse s in
      (Some s', with_sessions (<[sessionId := s']> (sessions sv)) sv)
  end.

(** [addResponse(sessionId, response)]. *)
Definition addResponse (now : Z) (sessionId : jstring) (response : jstring)
    (sv : service) : option session * service :=
  match sessions sv !! sessionId with
  | None => (None, sv)
  | Some s =>
      let s' := push_history (Turn Assistant response now) s in
      (Some s', with_sessions (<[sessionId := s']> (sessions sv)) sv)
  end.

(** [revealSolution(sessionId)]. *)
Definition revealSolution (now : Z) (sessionId : jstring) (sv : service)
    : option session * service :=
  match sessions sv !! sessionId with
  | None => (None, sv)
  | Some s =>
      let s' := set_lastActivity now (set_phase REVEAL s) in
      (Some s', with_sessions (<[sessionId := s']> (sessions sv)) sv)
  end.

(** [endSession(sessionId)]. *)
Definition endSession (sessionId : jstring) (sv : service)
    : option session * service :=
  (sessions sv !! sessionId, with_sessions (delete sessionId (sessions sv)) sv).

(** The object [getSessionStatus] returns. *)
Record status := Status {
  st_id : jstring;
  st_phase : jstring;
  st_interactions : Z;
  st_maxInteractions : Z;
  st_interactionsRemaining : Z;
  st_startedAt : Z;
  st_lastActivity : Z;
  st_historyLength : Z
}.

(** [getSessionStatus(sessionId)]; [None] is [null]. *)
Definition getSessionStatus (sessionId : jstring) (sv : service) : option status :=
  match sessions sv !! sessionId with
  | None => None
  | Some s =>
      Some (Status (id s) (phase s) (interactions s) (maxInteractions s)
                   (Z.max 0 (maxInteractions s - interactions s))
                   (startedAt s) (lastActivity s)
                   (Z.of_nat (length (history s))))
  end.

(** [cleanupExpiredSessions()]: deletes every session with
    [now - session.lastActivity > this.sessionTimeout]. *)
Definition expired (now timeout : Z) (s : session) : Prop :=
  now - lastActivity s > timeout.

#[global] Instance expired_dec now timeout s : Decision (expired now timeout s).
Proof. unfold expired. apply _. Defined.

Definition cleanupExpiredSessions (now : Z) (sv : service) : service :=
  with_sessions
    (filter (fun kv => ¬ expired now (sessionTimeout sv) kv.2) (sessions sv)) sv.

(** [getConversationHistory(sessionId)]: the role and the content of each
    turn, in order; the empty array for an unknown session. *)
Definition getConversationHistory (sessionId : jstring) (sv : service)
    : list (role * jstring) :=
  match sessions sv !! sessionId with
  | None => []
  | Some s => map (fun h => (turn_role h, content h)) (history s)
  end.

(** [getActiveSessionCount()]. *)
Definition getActiveSessionCount (sv : service) : Z :=
  Z.of_nat (size (sessions sv)).

(** The operations of the service a caller can run on it, with the values
    of [uuidv4()] and [new Date()] each one drew. *)
Inductive op :=
| OpCreate (sessionId : jstring) (now : Z) (problem : jstring)
| OpGet (now : Z) (sessionId : jstring)
| OpUpdate (now : Z) (sessionId : jstring) (userResponse : jstring)
| OpAddResponse (now : Z) (sessionId : jstring) (response : jstring)
| OpReveal (now : Z) (sessionId : jstring)
| OpEnd (sessionId : jstring)
| OpStatus (sessionId : jstring)
| OpCleanup (now : Z).

Definition run_op (o : op) (sv : service) : service :=
  match o with
  | OpCreate i now p => (createSession i now p sv).2
  | OpGet now i => (getSession now i sv).2
  | OpUpdate now i u => (updateSession now i u sv).2
  | OpAddResponse now i r => (addResponse now i r sv).2
  | OpReveal now i => (revealSolution now i sv).2
  | OpEnd i => (endSession i sv).2
  | OpStatus _ => sv
  | OpCleanup now => cleanupExpiredSessions now sv
  end.

Definition run_ops (os : list op) (sv : service) : service :=
  fold_left (fun sv o => run_op o sv) os sv.

End Interview.

(* ===================================================================== *)
(** * The vector store (src/unnamed/part_005, rag/faissService.js)        *)
(* ===================================================================== *)

Module Faiss.
Import JS.

(** An entry of the corpus (data/dsa_problems.json). *)
Record document := Document {
  doc_id : Z;
  title : jstring;
  difficulty : jstring;
  tags : option (list jstring);
  problem : option jstring;
  approach : option jstring;
  complexity : option jstring
}.

Abbreviation vector := (list number).

(** The embedding provider, [embeddingService.embed(text)]: an external
    call that returns a vector or throws. *)
Class Embedder := {
  embed : jstring -> result vector
}.

(** The index of faiss-node, [IndexFlatIP]: [index_new d] is
    [new IndexFlatIP(d)]; [index_add] is [index.add(v)]; [index_search]
    is [index.search(q, k)], the parallel arrays [labels] and
    [distances] as a list of pairs. Each call may throw. *)
Class VectorIndex := {
  index : Type;
  index_new : Z -> index;
  index_add : index -> vector -> result index;
  index_search : index -> vector -> Z -> result (list (Z * number))
}.

(** The snapshot file, as [loadIndex] reads it: [fs.access],
    [fs.readFile] and [JSON.parse] may throw; otherwise
    [data.documents || []] and [data.embeddings || []]. An entry of the
    documents array may be [null] ([None]). *)
Class SnapshotFile := {
  readSnapshot : result (list (option document) * list vector)
}.

Section Service.
Context `{Embedder} `{VectorIndex} `{SnapshotFile}.

(** The fields of the service object ([this.index] is [null] until
    [initialize] runs). *)
Record service := Service {
  the_index : option index;
  documents : list (option document);
  dimension : Z;
  topK : Z;
  similarityThreshold : number;
  isInitialized : bool
}.

(** [parseInt(process.env.X) || d]: [None] is an unset or non-numeric
    variable ([NaN]); 0 is falsy as well. *)
Definition parseInt_or (env : option Z) (d : Z) : Z :=
  match env with
  | Some z => if z =? 0 then d else z
  | None => d
  end.

(** [parseFloat(process.env.X) || d]. *)
Definition parseFloat_or (env : option number) (d : number) : number :=
  match env with
  | Some x => if (PrimFloat.eqb x 0 || is_nan x)%bool then d else x
  | None => d
  end.

(** [new FAISSService()], from the environment variables
    EMBEDDING_DIMENSION, RAG_TOP_K and RAG_SIMILARITY_THRESHOLD. *)
Definition new_service (env_dimension env_topK : option Z)
    (env_threshold : option number) : service :=
  Service None [] (parseInt_or env_dimension 384) (parseInt_or env_topK 5)
          (parseFloat_or env_threshold 0.7%float) false.

(** [normalizeVector(vector)]. *)
Definition normalizeVector (v : vector) : vector :=
  let norm := PrimFloat.sqrt
                (fold_left (fun sum val => (sum + val * val)%float) v 0%float) in
  if PrimFloat.eqb norm 0 then v
  else map (fun val => (val / norm)%float) v.

(** The loop of [loadIndex] that adds the normalized embeddings to
    [this.index]: the index when the loop stops, and whether it stopped
    on a throw. *)
Fixpoint add_all (ix : index) (embeddings : list vector) : index * bool :=
  match embeddings with
  | [] => (ix, true)
  | e :: es =>
      match index_add ix (normalizeVector e) with
      | Ok ix' => add_all ix' es
      | Throw _ => (ix, false)
      end
  end.

(** [loadIndex()]: whether the index was loaded, and the service after. *)
Definition loadIndex (sv : service) : bool * service :=
  match readSnapshot with
  | Throw _ => (false, sv)
  | Ok (docs, embeddings) =>
      let sv1 := Service (the_index sv) docs (dimension sv) (topK sv)
                         (similarityThreshold sv) (isInitialized sv) in
      match embeddings with
      | [] => (false, sv1)
      | _ :: _ =>
          let '(ix, completed) := add_all (index_new (dimension sv)) embeddings in
          (completed, Service (Some ix) docs (dimension sv) (topK sv)
                              (similarityThreshold sv) (isInitialized sv))
      end
  end.

(** [initialize()]. *)
Definition initialize (sv : service) : bool * service :=
  let '(loaded, sv1) := loadIndex sv in
  if loaded then
    (true, Service (the_index sv1) (documents sv1) (dimension sv1) (topK sv1)
                   (similarityThreshold sv1) true)
  else
    (true, Service (Some (index_new (dimension sv1))) [] (dimension sv1)
                   (topK sv1) (similarityThreshold sv1) true).

(** An element of the array [search] returns. *)
Record search_result := SearchResult {
  document_of : option document;
  score : number;
  rank : Z
}.

(** The loop of [search] over [result.labels]: a label outside the
    documents array is skipped; [i] is the loop index. *)
Fixpoint format_results (docs : list (option document))
    (found : list (Z * number)) (i : Z) : list search_result :=
  match found with
  | [] => []
  | (idx, sc) :: rest =>
      if (idx >=? 0) && (idx <? Z.of_nat (length docs)) then
        SearchResult (nth (Z.to_nat idx) docs None) sc (i + 1)
          :: format_results docs rest (i + 1)
      else format_results docs rest (i + 1)
  end.

(** [results.filter(r => r.score >= threshold)]. *)
Definition above_threshold (threshold : number) (r : search_result) : bool :=
  PrimFloat.leb threshold (score r).

(** What a call of [search] leaves behind: the array it resolves to, the
    service after the call, and the texts it sent to the embedding
    provider, in order. *)
Record search_outcome := SearchOutcome {
  results : list search_result;
  service_after : service;
  embedded : list jstring
}.

(** The body of the [try] block of [search], up to the array [results]
    it builds before filtering. *)
Definition search_candidates (sv : service) (query : jstring) (k : Z)
    : result (list search_result) :=
  queryEmbedding <- embed query ;;
  let normalizedQuery := normalizeVector queryEmbedding in
  ix <- match the_index sv with
        | Some ix => Ok ix
        | None => Throw (js "Cannot read properties of null")
        end ;;
  found <- index_search ix normalizedQuery k ;;
  Ok (format_results (documents sv) found 0).

(** The whole [try] block: the candidates, filtered by the threshold. *)
Definition search_try (sv : service) (query : jstring) (k : Z)
    : result (list search_result) :=
  results <- search_candidates sv query k ;;
  Ok (List.filter (above_threshold (similarityThreshold sv)) results).

(** [if (!this.isInitialized) await this.initialize()]. *)
Definition ensure_initialized (sv : service) : service :=
  if isInitialized sv then sv else (initialize sv).2.

(** [k = k || this.topK; k = Math.min(k, this.documents.length)]. *)
Definition clamp_k (sv : service) (k : option Z) : Z :=
  let k := match k with
           | Some z => if z =? 0 then topK sv else z
           | None => topK sv
           end in
  Z.min k (Z.of_nat (length (documents sv))).

(** [search(query, k = null)]: [None] is [null]. *)
Definition search (sv : service) (query : jstring) (k : option Z)
    : search_outcome :=
  let sv := ensure_initialized sv in
  match documents sv with
  | [] => SearchOutcome [] sv []
  | _ :: _ =>
      match search_try sv query (clamp_k sv k) with
      | Ok rs => SearchOutcome rs sv [query]
      | Throw _ => SearchOutcome [] sv [query]
      end
  end.

(** The service with another threshold (RAG_SIMILARITY_THRESHOLD). *)
Definition with_threshold (t : number) (sv : service) : service :=
  Service (the_index sv) (documents sv) (dimension sv) (topK sv) t
          (isInitialized sv).

(** One element of [parts] in [documentToText]: pushed when the field is
    truthy, that is a non-empty string. *)
Definition text_part (label : string) (value : option jstring) : list jstring :=
  match value with
  | Some (c :: v) => [js label ++ c :: v]
  | _ => []
  end.

(** The element for [doc.tags && doc.tags.length > 0]. *)
Definition tags_part (value : option (list jstring)) : list jstring :=
  match value with
  | Some (t :: ts) => [js "Tags: " ++ join (js ", ") (t :: ts)]
  | _ => []
  end.

(** The array [parts] of [documentToText]. *)
Definition text_parts (doc : document) : list jstring :=
  text_part "Title: " (Some (title doc))
  ++ text_part "Problem: " (problem doc)
  ++ text_part "Approach: " (approach doc)
  ++ tags_part (tags doc)
  ++ text_part "Difficulty: " (Some (difficulty doc))
  ++ text_part "Complexity: " (complexity doc).

(** [documentToText(doc)]. *)
Definition documentToText (doc : document) : jstring :=
  join [10%N] (text_parts doc).











End Service.
End Faiss.

(* ===================================================================== *)
(** * The response parsers (src/unnamed/part_004)                         *)
(* ===================================================================== *)

Module Templates.
Import JS.

(** ** The patterns of [parseStructuredResponse] *)

(** [/### n\. HEADING\s*([\s\S]*?)(?=### m\.|$)/i] *)
Definition re_section (heading next : string) : regex :=
  seq_of [lit_i heading; ws_star; lazy_group; Look (Alt (lit_i next) Eos)].

Definition re_understanding := re_section "### 1. PROBLEM UNDERSTANDING" "### 2.".
Definition re_brute := re_section "### 2. BRUTE FORCE APPROACH" "### 3.".
Definition re_optimized := re_section "### 3. OPTIMIZED APPROACH" "### 4.".
Definition re_time := re_section "### 4. TIME COMPLEXITY" "### 5.".
Definition re_space := re_section "### 5. SPACE COMPLEXITY" "### 6.".
Definition re_dry_run := re_section "### 8. DRY RUN EXAMPLE" "### 9.".

(** [###?\s*\d*\.?\s*], the prefix of the list-valued headings. *)
Definition re_loose_heading : list regex :=
  [lit_i "##"; opt (chr_i 35); ws_star; digit_star; opt (chr_i 46); ws_star].

(** [(?=###|$)] *)
Definition look_heading_or_end : regex := Look (Alt (lit_i "###") Eos).

(** [/###?\s*\d*\.?\s*EDGE CASES?\s*([\s\S]*?)(?=### 7\.|###|$)/i] *)
Definition re_edge : regex :=
  seq_of (re_loose_heading ++
          [lit_i "EDGE CASE"; opt (chr_i 83); ws_star; lazy_group;
           Look (Alt (lit_i "### 7.") (Alt (lit_i "###") Eos))]).

(** [/```java\s*([\s\S]*?)```/] *)
Definition re_code : regex :=
  seq_of [lit "```java"; ws_star; lazy_group; lit "```"].

(** [/###?\s*\d*\.?\s*FOLLOW[- ]?UP QUESTIONS?\s*([\s\S]*?)(?=###|$)/i] *)
Definition re_follow_up : regex :=
  seq_of (re_loose_heading ++
          [lit_i "FOLLOW"; opt (Cls (fun c => (c =? 45)%N || (c =? 32)%N));
           lit_i "UP QUESTION"; opt (chr_i 83); ws_star; lazy_group;
           look_heading_or_end]).

(** [/###?\s*\d*\.?\s*COMMON MISTAKES?\s*([\s\S]*?)(?=###|$)/i] *)
Definition re_mistakes : regex :=
  seq_of (re_loose_heading ++
          [lit_i "COMMON MISTAKE"; opt (chr_i 83); ws_star; lazy_group;
           look_heading_or_end]).

(** [/###?\s*\d*\.?\s*PROBLEM VARIATIONS?\s*([\s\S]*?)(?=###|$)/i] *)
Definition re_variations : regex :=
  seq_of (re_loose_heading ++
          [lit_i "PROBLEM VARIATION"; opt (chr_i 83); ws_star; lazy_group;
           look_heading_or_end]).

(** [/(?:interview|follow[-\s]?up|what if)[^\n]*:\s*([\s\S]*?)(?=###|common|variation|$)/i] *)
Definition re_alt_follow_up : regex :=
  seq_of [Alt (lit_i "interview")
            (Alt (seq_of [lit_i "follow";
                          opt (Cls (fun c => (c =? 45)%N || is_space c));
                          lit_i "up"])
                 (lit_i "what if"));
          Star true not_newline; chr_i 58; ws_star; lazy_group;
          Look (Alt (lit_i "###")
                 (Alt (lit_i "common") (Alt (lit_i "variation") Eos)))].

(** The class [[-•*\d]] and the class [[-•*\d.]]. *)
Definition is_marker (c : N) : bool :=
  (c =? 45)%N || (c =? 8226)%N || (c =? 42)%N || is_digit c.
Definition is_marker_or_dot (c : N) : bool :=
  is_marker c || (c =? 46)%N.

(** [/^[-•*\d]/] *)
Definition re_item : regex := Seq Bos (Cls is_marker).
(** [/^[-•*\d.]+\s*/] *)
Definition re_item_marker : regex := seq_of [Bos; plus is_marker_or_dot; ws_star].

(** [block.split('\n').filter(l => l.trim().match(/^[-•*\d]/))
      .map(l => l.replace(/^[-•*\d.]+\s*/, '').trim())
      .filter(l => l.length > 0)] *)
Definition list_items (block : jstring) : list jstring :=
  let lines := List.filter (fun l => test re_item (trim l)) (split_lines block) in
  List.filter (fun l => negb (Nat.eqb (length l) 0))
    (map (fun l => trim (replace_first re_item_marker [] l)) lines).

(** ** The record [parseStructuredResponse] fills *)

(** [understanding] holds a value: the [catch] clause stores the argument
    there as it came, string or not. *)
Record sections := Sections {
  understanding : jsval;
  brute_force : jstring;
  optimized : jstring;
  time_complexity : jstring;
  space_complexity : jstring;
  edge_cases : list jstring;
  java_code : jstring;
  dry_run : jstring;
  follow_up_questions : list jstring;
  common_mistakes : list jstring;
  variations : list jstring
}.

(** The initial value of [sections]. *)
Definition default_sections : sections :=
  Sections (VStr []) [] [] [] [] [] [] [] [] [] [].

Definition set_understanding v (s : sections) :=
  Sections v (brute_force s) (optimized s) (time_complexity s)
    (space_complexity s) (edge_cases s) (java_code s) (dry_run s)
    (follow_up_questions s) (common_mistakes s) (variations s).
Definition set_brute_force v (s : sections) :=
  Sections (understanding s) v (optimized s) (time_complexity s)
    (space_complexity s) (edge_cases s) (java_code s) (dry_run s)
    (follow_up_questions s) (common_mistakes s) (variations s).
Definition set_optimized v (s : sections) :=
  Sections (understanding s) (brute_force s) v (time_complexity s)
    (space_complexity s) (edge_cases s) (java_code s) (dry_run s)
    (follow_up_questions s) (common_mistakes s) (variations s).
Definition set_time_complexity v (s : sections) :=
  Sections (understanding s) (brute_force s) (optimized s) v
    (space_complexity s) (edge_cases s) (java_code s) (dry_run s)
    (follow_up_questions s) (common_mistakes s) (variations s).
Definition set_space_complexity v (s : sections) :=
  Sections (understanding s) (brute_force s) (optimized s) (time_complexity s)
    v (edge_cases s) (java_code s) (dry_run s)
    (follow_up_questions s) (common_mistakes s) (variations s).
Definition set_edge_cases v (s : sections) :=
  Sections (understanding s) (brute_force s) (optimized s) (time_complexity s)
    (space_complexity s) v (java_code s) (dry_run s)
    (follow_up_questions s) (common_mistakes s) (variations s).
Definition set_java_code v (s : sections) :=
  Sections (understanding s) (brute_force s) (optimized s) (time_complexity s)
    (space_complexity s) (edge_cases s) v (dry_run s)
    (follow_up_questions s) (common_mistakes s) (variations s).
Definition set_dry_run v (s : sections) :=
  Sections (understanding s) (brute_force s) (optimized s) (time_complexity s)
    (space_complexity s) (edge_cases s) (java_code s) v
    (follow_up_questions s) (common_mistakes s) (variations s).
Definition set_follow_up_questions v (s : sections) :=
  Sections (understanding s) (brute_force s) (optimized s) (time_complexity s)
    (space_complexity s) (edge_cases s) (java_code s) (dry_run s)
    v (common_mistakes s) (variations s).
Definition set_common_mistakes v (s : sections) :=
  Sections (understanding s) (brute_force s) (optimized s) (time_complexity s)
    (space_complexity s) (edge_cases s) (java_code s) (dry_run s)
    (follow_up_questions s) v (variations s).
Definition set_variations v (s : sections) :=
  Sections (understanding s) (brute_force s) (optimized s) (time_complexity s)
    (space_complexity s) (edge_cases s) (java_code s) (dry_run s)
    (follow_up_questions s) (common_mistakes s) v.

(** ** The [try] block as a computation over [sections]

    A statement of the block reads and writes the object [sections] and
    may throw; what it wrote before a throw stays written. *)
Definition M (A : Type) : Type := sections -> sections * result A.

Definition ret {A} (a : A) : M A := fun s => (s, Ok a).
Definition bindM {A B} (m : M A) (f : A -> M B) : M B :=
  fun s => match m s with
           | (s', Ok a) => f a s'
           | (s', Throw e) => (s', Throw e)
           end.
Definition lift {A} (r : result A) : M A := fun s => (s, r).
Definition get : M sections := fun s => (s, Ok s).
Definition modify (f : sections -> sections) : M unit := fun s => (f s, Ok tt).

Notation "x <~ m ;; f" := (bindM m (fun x => f))
  (at level 100, m at next level, right associativity).
Notation "m ;;; f" := (bindM m (fun _ => f))
  (at level 100, right associativity).

(** [if (m) sections.field = ...]. *)
Definition when_match (m : option jstring) (f : jstring -> sections -> sections)
    : M unit :=
  match m with
  | Some g => modify (f g)
  | None => ret tt
  end.

(** [llmResponse.match(r)]: a [TypeError] unless the argument is a string. *)
Definition match_val (v : jsval) (r : regex) : result (option jstring) :=
  match v with
  | VStr s => Ok (match_ r s)
  | VUndefined | VNull => Throw (js "Cannot read properties of undefined")
  | _ => Throw (js "llmResponse.match is not a function")
  end.

Definition parse_body (llmResponse : jsval) : M unit :=
  understandingMatch <~ lift (match_val llmResponse re_understanding) ;;
  when_match understandingMatch (fun g => set_understanding (VStr (trim g))) ;;;
  bruteMatch <~ lift (match_val llmResponse re_brute) ;;
  when_match bruteMatch (fun g => set_brute_force (trim g)) ;;;
  optimizedMatch <~ lift (match_val llmResponse re_optimized) ;;
  when_match optimizedMatch (fun g => set_optimized (trim g)) ;;;
  timeMatch <~ lift (match_val llmResponse re_time) ;;
  when_match timeMatch (fun g => set_time_complexity (trim g)) ;;;
  spaceMatch <~ lift (match_val llmResponse re_space) ;;
  when_match spaceMatch (fun g => set_space_complexity (trim g)) ;;;
  edgeMatch <~ lift (match_val llmResponse re_edge) ;;
  when_match edgeMatch (fun g => set_edge_cases (list_items g)) ;;;
  codeMatch <~ lift (match_val llmResponse re_code) ;;
  when_match codeMatch (fun g => set_java_code (trim g)) ;;;
  dryRunMatch <~ lift (match_val llmResponse re_dry_run) ;;
  when_match dryRunMatch (fun g => set_dry_run (trim g)) ;;;
  followUpMatch <~ lift (match_val llmResponse re_follow_up) ;;
  when_match followUpMatch (fun g => set_follow_up_questions (list_items g)) ;;;
  mistakesMatch <~ lift (match_val llmResponse re_mistakes) ;;
  when_match mistakesMatch (fun g => set_common_mistakes (list_items g)) ;;;
  variationsMatch <~ lift (match_val llmResponse re_variations) ;;
  when_match variationsMatch (fun g => set_variations (list_items g)) ;;;
  s <~ get ;;
  match follow_up_questions s with
  | [] =>
      altFollowUp <~ lift (match_val llmResponse re_alt_follow_up) ;;
      when_match altFollowUp
        (fun g => set_follow_up_questions (firstn 5 (list_items g)))
  | _ :: _ => ret tt
  end.

(** [parseStructuredResponse(llmResponse)]. *)
Definition parseStructuredResponse (llmResponse : jsval) : sections :=
  match parse_body llmResponse default_sections with
  | (s, Ok _) => s
  | (s, Throw _) => set_understanding llmResponse s
  end.

(** ** [parseEvaluationResponse] *)

(** [JSON.parse(text)], a built-in: a value, or a [SyntaxError]. *)
Class JsonParser := {
  JSON_parse : jstring -> result jsval
}.

(** [/```json\s*([\s\S]*?)```/] *)
Definition re_json : regex :=
  seq_of [lit "```json"; ws_star; lazy_group; lit "```"].

Definition num0 : jsval := VNum 0%float.
Definition unable : jsval := VStr (js "Unable to evaluate").

(** The object of the [catch] clause. *)
Definition default_evaluation (llmResponse : jsval) : jsval :=
  VObj [
    (js "score", num0);
    (js "breakdown", VObj [
      (js "correctness",
        VObj [(js "score", num0); (js "feedback", unable)]);
      (js "time_complexity",
        VObj [(js "score", num0); (js "feedback", unable);
              (js "detected", VStr (js "Unknown"))]);
      (js "space_complexity",
        VObj [(js "score", num0); (js "feedback", unable);
              (js "detected", VStr (js "Unknown"))]);
      (js "code_quality",
        VObj [(js "score", num0); (js "feedback", unable)]);
      (js "edge_cases",
        VObj [(js "score", num0); (js "feedback", unable);
              (js "missing", VArr [])])
    ]);
    (js "suggestions", VArr [VStr (js "Unable to parse evaluation response")]);
    (js "optimal_solution_hint", VStr []);
    (js "raw_response", llmResponse)
  ].

Section Evaluation.
Context `{JsonParser}.

(** The [try] block. *)
Definition evaluation_try (llmResponse : jsval) : result jsval :=
  jsonMatch <- match_val llmResponse re_json ;;
  match jsonMatch with
  | Some g => JSON_parse g
  | None =>
      match llmResponse with
      | VStr s => JSON_parse s
      | _ => Throw (js "TypeError") (* not reached: [match] threw *)
      end
  end.

(** [parseEvaluationResponse(llmResponse)]. *)
Definition parseEvaluationResponse (llmResponse : jsval) : jsval :=
  match evaluation_try llmResponse with
  | Ok v => v
  | Throw _ => default_evaluation llmResponse
  end.

End Evaluation.
End Templates.


(* ===================================================================== *)
(** * The pipeline (src/server/rag/ragPipeline.js)                        *)
(* ===================================================================== *)

Module Rag.
Import JS.

(** The environment variables the pipeline reads, already through
    [parseInt] where the source parses them ([None]: unset or [NaN]). *)
Record environment := Environment {
  LLM_QUICK_MAX_TOKENS : option Z;
  LLM_MAX_TOKENS : option Z;
  RAG_TOP_K : option Z;
  RAG_CHUNK_SIZE : option Z;
  INTERVIEW_MODE_KEYWORD : option jstring
}.

(** A value of the [configs] table, or what stands for one: a field that
    is absent reads [undefined] ([None]). *)
Record mode_config := ModeConfig {
  maxTokens : option Z;
  temperature : option number;
  topK : option Z;
  contextFormat : option jstring
}.

(** The properties every object literal inherits from [Object.prototype]:
    [configs[mode]] finds them too, as truthy values that have none of
    the four fields. *)
Definition inherited_keys : list jstring :=
  map js ["constructor"; "__proto__"; "hasOwnProperty"; "isPrototypeOf";
          "propertyIsEnumerable"; "toLocaleString"; "toString"; "valueOf";
          "__defineGetter__"; "__defineSetter__"; "__lookupGetter__";
          "__lookupSetter__"]%string.

Definition quick_config (env : environment) : mode_config :=
  ModeConfig (Some (Faiss.parseInt_or (LLM_QUICK_MAX_TOKENS env) 600))
             (Some 0.2%float) (Some 1) (Some (js "minimal")).
Definition detailed_config (env : environment) : mode_config :=
  ModeConfig (Some (Faiss.parseInt_or (LLM_MAX_TOKENS env) 1200))
             (Some 0.3%float)
             (Some (Faiss.parseInt_or (RAG_TOP_K env) 2)) (Some (js "full")).
Definition interview_config : mode_config :=
  ModeConfig (Some 600) (Some 0.5%float) (Some 2) (Some (js "hints")).

(** [getModeConfig(mode)]. *)
Definition getModeConfig (env : environment) (mode : jstring) : mode_config :=
  if jstring_eqb mode (js "quick") then quick_config env
  else if jstring_eqb mode (js "detailed") then detailed_config env
  else if jstring_eqb mode (js "interview") then interview_config
  else if existsb (jstring_eqb mode) inherited_keys then
    ModeConfig None None None None
  else detailed_config env.

(** The fields of the pipeline object that [retrieveContext] reads. *)
Record pipeline := Pipeline {
  pl_topK : Z;
  chunkSize : Z
}.

(** [new RAGPipeline()]. *)
Definition new_pipeline (env : environment) : pipeline :=
  Pipeline (Faiss.parseInt_or (RAG_TOP_K env) 2)
           (Faiss.parseInt_or (RAG_CHUNK_SIZE env) 500).

(** The [options] argument of [retrieveContext]. *)
Record retrieve_options := RetrieveOptions {
  opt_topK : option Z;
  opt_contextFormat : option jstring
}.

(** An element of [sources]. *)
Record source := Source {
  src_title : jstring;
  src_score : number;
  src_difficulty : jstring;
  src_tags : option (list jstring)
}.

(** The object [retrieveContext] resolves to. *)
Record retrieved := Retrieved {
  context : jstring;
  sources : list source
}.

Definition no_context : retrieved := Retrieved [] [].

(** [x || d] on strings: the empty string is falsy. *)
Definition or_else (x d : jstring) : jstring :=
  match x with [] => d | _ :: _ => x end.

(** [x?.substring(0, n) || d]. *)
Definition substring_or (x : option jstring) (n : Z) (d : jstring) : jstring :=
  match x with
  | Some s => or_else (substring0 (Z.to_nat n) s) d
  | None => d
  end.

(** [doc.tags?.join(', ') || 'N/A'] *)
Definition tags_text (tags : option (list jstring)) : jstring :=
  match tags with
  | Some ts => or_else (join (js ", ") ts) (js "N/A")
  | None => js "N/A"
  end.

Definition newline : jstring := [10%N].

(** [const doc = result.document]: reading a property of a [null] entry
    is a [TypeError]. *)
Definition doc_of (r : Faiss.search_result) : result Faiss.document :=
  match Faiss.document_of r with
  | Some d => Ok d
  | None => Throw (js "Cannot read properties of null")
  end.

(** The three callbacks of [results.map]. *)
Definition render_minimal (r : Faiss.search_result) : result jstring :=
  doc <- doc_of r ;;
  Ok (Faiss.title doc ++ js " (" ++ Faiss.difficulty doc ++ js "): "
      ++ substring_or (Faiss.approach doc) 200 (js "N/A")).

Definition render_hints (r : Faiss.search_result) : result jstring :=
  doc <- doc_of r ;;
  Ok (js "Similar: " ++ Faiss.title doc ++ js " - Tags: "
      ++ tags_text (Faiss.tags doc)).

Definition render_full (chunk : Z) (r : Faiss.search_result) : result jstring :=
  doc <- doc_of r ;;
  let problemText := substring_or (Faiss.problem doc) chunk [] in
  let approachText := substring_or (Faiss.approach doc) chunk (js "N/A") in
  Ok (newline ++ js "### " ++ Faiss.title doc ++ js " (" ++ Faiss.difficulty doc
      ++ js ")" ++ newline
      ++ js "**Tags:** " ++ tags_text (Faiss.tags doc) ++ newline
      ++ js "**Problem:** " ++ problemText ++ newline
      ++ js "**Approach:** " ++ approachText).

Definition to_source (r : Faiss.search_result) : result source :=
  doc <- doc_of r ;;
  Ok (Source (Faiss.title doc) (Faiss.score r) (Faiss.difficulty doc)
             (Faiss.tags doc)).

(** The part of the [try] block of [retrieveContext] after the search. *)
Definition render (chunk : Z) (contextFormat : jstring)
    (results : list Faiss.search_result) : result retrieved :=
  match results with
  | [] => Ok no_context
  | _ :: _ =>
      contextParts <-
        (if jstring_eqb contextFormat (js "minimal") then mapM render_minimal results
         else if jstring_eqb contextFormat (js "hints") then mapM render_hints results
         else mapM (render_full chunk) results) ;;
      srcs <- mapM to_source results ;;
      Ok (Retrieved (join (newline ++ js "---" ++ newline) contextParts) srcs)
  end.

(** The collaborators of [analyzeProblem]: the completion service
    ([ollamaService.chat]), the prompt builders of promptTemplates.js,
    whose texts play no part below, and [String.prototype.toLowerCase]. *)
Record llm_result := LlmResult {
  success : bool;
  response : jsval;
  error : jstring;
  model : jsval;
  eval_count : jsval;
  tokens_per_second : jsval
}.

Record chat_options := ChatOptions {
  chat_temperature : option number;
  chat_maxTokens : option Z
}.

Class Completion := {
  chat : jstring -> jstring -> chat_options -> result llm_result
}.

Class Prompts := {
  SYSTEM_PROMPT : jstring;
  INTERVIEW_MODE_PROMPT : jstring;
  generateAnalysisPrompt : jstring -> jstring -> jstring;
  generateInterviewPrompt : jstring -> jstring -> jstring -> jstring
}.

Class CaseMapping := {
  toLowerCase : jstring -> jstring
}.

(** The [options] argument of [analyzeProblem]. *)
Record analyze_options := AnalyzeOptions {
  opt_mode : option jstring;
  revealSolution : bool;
  opt_phase : option jstring
}.

(** [structured_response]. *)
Inductive structured :=
| Guidance (guidance : jsval) (phase : jstring)
| Parsed (s : Templates.sections).

(** The object [analyzeProblem] resolves to (the durations left out). *)
Inductive analysis :=
| Analyzed (isInterviewMode : bool) (mode : jstring)
           (structured_response : structured) (raw_response : jsval)
           (srcs : list source) (model_used tokens_generated tokens_rate : jsval)
| Failed (message : jstring).

(** A call to a collaborator, with the parameters it was given. *)
Inductive call :=
| CallRetrieve (query : jstring) (o : retrieve_options)
| CallChat (systemPrompt userPrompt : jstring) (o : chat_options).

Section Pipeline.
Context `{Faiss.Embedder} `{Faiss.VectorIndex} `{Faiss.SnapshotFile}.
Context `{Completion} `{Prompts} `{CaseMapping}.

(** What a call of [retrieveContext] leaves behind. *)
Record retrieve_outcome := RetrieveOutcome {
  retrieved_of : retrieved;
  faiss_after : Faiss.service;
  embedded : list jstring
}.

(** [options.topK || this.topK] and [options.contextFormat || 'full']. *)
Definition effective_topK (pl : pipeline) (options : retrieve_options) : Z :=
  match opt_topK options with
  | Some z => if z =? 0 then pl_topK pl else z
  | None => pl_topK pl
  end.

Definition effective_format (options : retrieve_options) : jstring :=
  match opt_contextFormat options with
  | Some f => or_else f (js "full")
  | None => js "full"
  end.

(** [retrieveContext(query, options = {})]. *)
Definition retrieveContext (pl : pipeline) (fs : Faiss.service)
    (query : jstring) (options : retrieve_options) : retrieve_outcome :=
  let topK := effective_topK pl options in
  let contextFormat := effective_format options in
  let found := Faiss.search fs query (Some topK) in
  RetrieveOutcome
    match render (chunkSize pl) contextFormat (Faiss.results found) with
    | Ok r => r
    | Throw _ => no_context
    end
    (Faiss.service_after found) (Faiss.embedded found).

(** [problem.toLowerCase().includes(
      process.env.INTERVIEW_MODE_KEYWORD?.toLowerCase() || 'interview mode')] *)
Definition has_keyword (env : environment) (problem : jstring) : bool :=
  let keyword := match INTERVIEW_MODE_KEYWORD env with
                 | Some k => or_else (toLowerCase k) (js "interview mode")
                 | None => js "interview mode"
                 end in
  includes (toLowerCase problem) keyword.

(** What a call of [analyzeProblem] leaves behind: its result, the calls
    it made to the retriever and to the completion service, and the
    vector store after. *)
Record analyze_outcome := AnalyzeOutcome {
  analysis_of : analysis;
  calls : list call;
  store_after : Faiss.service
}.

(** [options.mode || 'detailed'] and [options.phase || 'initial']. *)
Definition requested_mode (options : analyze_options) : jstring :=
  match opt_mode options with
  | Some m => or_else m (js "detailed")
  | None => js "detailed"
  end.

Definition requested_phase (options : analyze_options) : jstring :=
  match opt_phase options with
  | Some p => or_else p (js "initial")
  | None => js "initial"
  end.

(** [mode === 'interview' || problem.toLowerCase().includes(...)]. *)
Definition interview_intent (env : environment) (problem : jstring)
    (options : analyze_options) : bool :=
  jstring_eqb (requested_mode options) (js "interview") || has_keyword env problem.

(** [analyzeProblem(problem, options = {})]. *)
Definition analyzeProblem (env : environment) (pl : pipeline)
    (fs : Faiss.service) (problem : jstring) (options : analyze_options)
    : analyze_outcome :=
  let mode := requested_mode options in
  let modeConfig := getModeConfig env mode in
  let isInterviewMode := interview_intent env problem options in
  let effectiveConfig :=
    if isInterviewMode then getModeConfig env (js "interview") else modeConfig in
  let ropts := RetrieveOptions (topK effectiveConfig)
                               (contextFormat effectiveConfig) in
  let got := retrieveContext pl fs problem ropts in
  let ctx := context (retrieved_of got) in
  let srcs := sources (retrieved_of got) in
  let guided := isInterviewMode && negb (revealSolution options) in
  let phase := requested_phase options in
  let systemPrompt := if guided then INTERVIEW_MODE_PROMPT else SYSTEM_PROMPT in
  let userPrompt := if guided then generateInterviewPrompt problem ctx phase
                    else generateAnalysisPrompt problem ctx in
  let copts := ChatOptions (temperature effectiveConfig)
                           (maxTokens effectiveConfig) in
  let made := [CallRetrieve problem ropts; CallChat systemPrompt userPrompt copts] in
  let outcome :=
    match chat systemPrompt userPrompt copts with
    | Throw e => Failed e
    | Ok llmResult =>
        if negb (success llmResult) then Failed (error llmResult)
        else
          let structuredResponse :=
            if guided then Guidance (response llmResult) phase
            else Parsed (Templates.parseStructuredResponse (response llmResult)) in
          Analyzed isInterviewMode mode structuredResponse (response llmResult)
                   srcs (model llmResult) (eval_count llmResult)
                   (tokens_per_second llmResult)
    end in
  AnalyzeOutcome outcome made (faiss_after got).

End Pipeline.

(** ** [evaluateCode] *)

(** [ollamaService.generate(prompt, options)] and
    [generateEvaluationPrompt(problem, code)]. *)
Class Generation := {
  generate : jstring -> chat_options -> result llm_result
}.

Class EvaluationPrompt := {
  generateEvaluationPrompt : jstring -> jstring -> jstring
}.

(** The object [evaluateCode] resolves to (the durations left out):
    [success: true] with the evaluation and the model, or
    [success: false] with the message and the stand-in evaluation. *)
Inductive evaluated :=
| Evaluated (evaluation model_used : jsval)
| NotEvaluated (message : jstring) (evaluation : jsval).

(** [{ score: 0, message: 'Evaluation failed' }] *)
Definition failed_evaluation : jsval :=
  VObj [(js "score", VNum 0%float);
        (js "message", VStr (js "Evaluation failed"))].

Section Evaluate.
Context `{Generation} `{EvaluationPrompt} `{Templates.JsonParser}.

(** [evaluateCode(problem, code, options = {})]. *)
Definition evaluateCode (problem code : jstring) : evaluated :=
  let prompt := generateEvaluationPrompt problem code in
  match generate prompt (ChatOptions (Some 0.3%float) (Some 2048)) with
  | Throw e => NotEvaluated e failed_evaluation
  | Ok llmResult =>
      if negb (success llmResult) then
        NotEvaluated (error llmResult) failed_evaluation
      else
        Evaluated (Templates.parseEvaluationResponse (response llmResult))
                  (model llmResult)
  end.

End Evaluate.

(** ** [loadDataset] and [rebuildIndex] *)


Section Dataset.
Context `{Faiss.Embedder} `{Faiss.VectorIndex} `{Faiss.SnapshotFile}.
Context `{DatasetFile}.




End Dataset.

End Rag.

(* ===================================================================== *)
(** * The prompt builders (src/unnamed/part_004, promptTemplates.js)      *)
(* ===================================================================== *)

Module PromptTemplates.
Import JS.

(** [s.indexOf(p)]: [None] is -1. *)
Fixpoint index_of (p s : jstring) : option nat :=
  if starts_with p s then Some 0%nat
  else match s with
       | [] => None
       | _ :: s' => option_map S (index_of p s')
       end.

(** [GetSubstitution] for a pattern without groups: in the replacement
    text, [$$] stands for a dollar sign, [$&] for the matched text, the
    dollar sign with a backquote for the text before the match and with
    a quote for the text after it; every other code unit stands for
    itself. *)
Fixpoint substitute (matched before after template : jstring) : jstring :=
  match template with
  | 36%N :: 36%N :: rest => 36%N :: substitute matched before after rest
  | 36%N :: 38%N :: rest => matched ++ substitute matched before after rest
  | 36%N :: 96%N :: rest => before ++ substitute matched before after rest
  | 36%N :: 39%N :: rest => after ++ substitute matched before after rest
  | c :: rest => c :: substitute matched before after rest
  | [] => []
  end.

(** [s.replace(p, replacement)] for a string pattern [p]: the first
    occurrence only. *)
Definition replace_string (p replacement s : jstring) : jstring :=
  match index_of p s with
  | Some i =>
      let before := firstn i s in
      let after := skipn (i + length p) s in
      before ++ substitute p before after replacement ++ after
  | None => s
  end.

Definition nl : jstring := [10%N].

(** [RAG_CONTEXT_TEMPLATE] *)
Definition RAG_CONTEXT_TEMPLATE : jstring :=
  nl ++ js "## SIMILAR PROBLEMS FOR REFERENCE" ++ nl ++ nl
  ++ js "The following are similar problems from our knowledge base. Use them to provide better context and related insights:"
  ++ nl ++ nl ++ js "{{CONTEXT}}" ++ nl ++ nl ++ js "---" ++ nl ++ nl
  ++ js "Now analyze the user's problem using the above context where relevant:"
  ++ nl.

(** The keys of [phaseInstructions] and their texts. *)
Definition phaseInstructions : list (jstring * jstring) :=
  [(js "initial",
    nl ++ nl ++ js "This is the INITIAL interaction. Acknowledge the problem and ask clarifying questions.");
   (js "understanding",
    nl ++ nl ++ js "The candidate is working on understanding. Ask probing questions.");
   (js "approach",
    nl ++ nl ++ js "Guide them toward an approach with progressive hints.");
   (js "reveal",
    nl ++ nl ++ js "Time to reveal the solution. Now provide the full comprehensive analysis.")].

Fixpoint own_property (key : jstring) (object : list (jstring * jstring))
    : option jstring :=
  match object with
  | [] => None
  | (k, v) :: rest => if jstring_eqb key k then Some v else own_property key rest
  end.

Section Builders.
(** The three prompt constants [SYSTEM_PROMPT], [INTERVIEW_MODE_PROMPT]
    and [CODE_EVALUATION_PROMPT], whose wording plays no part, and the
    text that appending a property inherited from [Object.prototype]
    yields. *)
Variables (SYSTEM_PROMPT INTERVIEW_MODE_PROMPT CODE_EVALUATION_PROMPT : jstring).
Variable inherited_text : jstring -> jstring.

(** [generateAnalysisPrompt(problem, context = '')]. *)
Definition generateAnalysisPrompt (problem context : jstring) : jstring :=
  let prompt := SYSTEM_PROMPT in
  let prompt :=
    match context with
    | [] => prompt
    | _ :: _ =>
        prompt ++ nl ++ nl
        ++ replace_string (js "{{CONTEXT}}") context RAG_CONTEXT_TEMPLATE
    end in
  prompt ++ nl ++ nl ++ js "## USER'S PROBLEM" ++ nl ++ nl ++ problem
  ++ nl ++ nl ++ js "## YOUR COMPREHENSIVE ANALYSIS".

(** [phaseInstructions[phase] || phaseInstructions.initial]: an own key,
    a key inherited from [Object.prototype], or the fallback. All four
    own texts are non-empty. *)
Definition phase_instruction (phase : jstring) : jstring :=
  match own_property phase phaseInstructions with
  | Some text => text
  | None =>
      if existsb (jstring_eqb phase) Rag.inherited_keys then inherited_text phase
      else match own_property (js "initial") phaseInstructions with
           | Some text => text
           | None => js "undefined"
           end
  end.

(** [generateInterviewPrompt(problem, context = '', phase = 'initial')]. *)
Definition generateInterviewPrompt (problem context phase : jstring) : jstring :=
  let prompt := INTERVIEW_MODE_PROMPT in
  let prompt :=
    match context with
    | [] => prompt
    | _ :: _ =>
        prompt ++ nl ++ nl ++ js "## REFERENCE (DO NOT REVEAL TO CANDIDATE)"
        ++ nl ++ context
    end in
  let prompt := prompt ++ phase_instruction phase in
  prompt ++ nl ++ nl ++ js "## PROBLEM" ++ nl ++ problem.

(** [generateEvaluationPrompt(problem, code)]. *)
Definition generateEvaluationPrompt (problem code : jstring) : jstring :=
  CODE_EVALUATION_PROMPT ++ nl ++ nl
  ++ js "## PROBLEM STATEMENT" ++ nl ++ problem ++ nl ++ nl
  ++ js "## CANDIDATE'S CODE" ++ nl ++ js "```java" ++ nl ++ code ++ nl
  ++ js "```" ++ nl ++ nl ++ js "## YOUR EVALUATION".

(** The builders as the pipeline takes them. *)
Definition prompts : Rag.Prompts :=
  {| Rag.SYSTEM_PROMPT := SYSTEM_PROMPT;
     Rag.INTERVIEW_MODE_PROMPT := INTERVIEW_MODE_PROMPT;
     Rag.generateAnalysisPrompt := generateAnalysisPrompt;
     Rag.generateInterviewPrompt := generateInterviewPrompt |}.

Definition evaluation_prompt : Rag.EvaluationPrompt :=
  {| Rag.generateEvaluationPrompt := generateEvaluationPrompt |}.

End Builders.
End PromptTemplates.

(* ===================================================================== *)
(** * The embedding service (src/server/services/embeddingService.js)     *)
(* ===================================================================== *)

Module Embedding.
Import JS.

Abbreviation vector := (list number).

(** [ToInt32]: the value modulo 2^32, in the signed range. *)
Definition to_int32 (z : Z) : Z := (z + 2 ^ 31) mod 2 ^ 32 - 2 ^ 31.

(** One round of the loop of [hashText]:
    [hash = ((hash << 5) - hash) + char; hash = hash & hash]. The shift
    and the conjunction work on 32-bit integers, the subtraction and the
    addition on numbers, exactly for values of this size. *)
Definition hash_step (hash : Z) (char : N) : Z :=
  let hash := to_int32 (Z.shiftl (to_int32 hash) 5) - hash + Z.of_N char in
  Z.land (to_int32 hash) (to_int32 hash).

(** [hashText(text)], before [toString()], which is one-to-one on
    integers: the cache key is taken as the integer. *)
Definition hashText (text : jstring) : Z := fold_left hash_step text 0.

(** A call to one of the two providers. *)
Inductive backend_call :=
| Python (text : jstring)
| Ollama (text : jstring)
| PythonBatch (texts : list jstring).

(** The providers: [embedWithPython], [embedWithOllama] and
    [embedBatchWithPython]. Their answer may change from call to call;
    the first argument is the list of the calls made before. *)
Class Backends := {
  embedWithPython : list backend_call -> jstring -> result vector;
  embedWithOllama : list backend_call -> jstring -> result vector;
  embedBatchWithPython : list backend_call -> list jstring -> result (list vector)
}.

(** The fields of the service object, and the calls it has made. *)
Record service := Service {
  usePython : bool;
  cache : gmap Z vector;
  made : list backend_call
}.

(** [new EmbeddingService()]. *)
Definition new_service : service := Service true ∅ [].

Section Service.
Context `{Backends}.

(** [embed(text)]. *)
Definition embed (sv : service) (text : jstring) : result vector * service :=
  let cacheKey := hashText text in
  match cache sv !! cacheKey with
  | Some embedding => (Ok embedding, sv)
  | None =>
      if usePython sv then
        let sv1 := Service true (cache sv) (made sv ++ [Python text]) in
        match embedWithPython (made sv) text with
        | Ok embedding =>
            (Ok embedding,
             Service true (<[cacheKey := embedding]> (cache sv)) (made sv1))
        | Throw _ =>
            (embedWithOllama (made sv1) text,
             Service false (cache sv) (made sv1 ++ [Ollama text]))
        end
      else
        let sv1 := Service false (cache sv) (made sv ++ [Ollama text]) in
        match embedWithOllama (made sv) text with
        | Ok embedding =>
            (Ok embedding,
             Service false (<[cacheKey := embedding]> (cache sv)) (made sv1))
        | Throw error => (Throw error, sv1)
        end
  end.

(** The loop of [embedBatch] over [this.embed]. *)
Fixpoint embed_each (sv : service) (texts : list jstring)
    : result (list vector) * service :=
  match texts with
  | [] => (Ok [], sv)
  | text :: rest =>
      match embed sv text with
      | (Ok embedding, sv1) =>
          match embed_each sv1 rest with
          | (Ok embeddings, sv2) => (Ok (embedding :: embeddings), sv2)
          | (Throw e, sv2) => (Throw e, sv2)
          end
      | (Throw e, sv1) => (Throw e, sv1)
      end
  end.

(** [embedBatch(texts)]. *)
Definition embedBatch (sv : service) (texts : list jstring)
    : result (list vector) * service :=
  if usePython sv then
    let sv1 := Service true (cache sv) (made sv ++ [PythonBatch texts]) in
    match embedBatchWithPython (made sv) texts with
    | Ok embeddings => (Ok embeddings, sv1)
    | Throw _ => embed_each (Service false (cache sv) (made sv1)) texts
    end
  else embed_each sv texts.

(** [clearCache()]. *)
Definition clearCache (sv : service) : service :=
  Service (usePython sv) ∅ (made sv).

End Service.

(** [cosineSimilarity(vecA, vecB)]: the three sums of the loop, then the
    quotient. *)
Fixpoint cosine_sums (vecA vecB : vector) (dotProduct normA normB : number)
    : number * number * number :=
  match vecA, vecB with
  | a :: vecA', b :: vecB' =>
      cosine_sums vecA' vecB' (dotProduct + a * b)%float
                  (normA + a * a)%float (normB + b * b)%float
  | _, _ => (dotProduct, normA, normB)
  end.

Definition cosineSimilarity (vecA vecB : vector) : result number :=
  if negb (Nat.eqb (length vecA) (length vecB)) then
    Throw (js "Vectors must have the same dimensions")
  else
    let '(dotProduct, normA, normB) := cosine_sums vecA vecB 0 0 0 in
    if (PrimFloat.eqb normA 0 || PrimFloat.eqb normB 0)%bool then Ok 0%float
    else Ok (dotProduct / (PrimFloat.sqrt normA * PrimFloat.sqrt normB))%float.

End Embedding.

(* ===================================================================== *)
(** * The controllers (src/unnamed/part_006)                              *)
(* ===================================================================== *)

(** What a handler does with its request: a JSON reply, an [APIError]
    with its status, or another error that leaves the handler. *)
Module Http.
Import JS.

Inductive outcome (A : Type) :=
| Json (reply : A)
| ApiError (message : jstring) (status : Z)
| OtherError (message : jstring).
Arguments Json {A}.
Arguments ApiError {A}.
Arguments OtherError {A}.

(** [typeof v === 'string' && v.trim().length >= 10], the test both
    controllers apply to their texts. *)
Definition long_enough (v : jsval) : option jstring :=
  match v with
  | VStr s => if (length (trim s) <? 10)%nat then None else Some s
  | _ => None
  end.

End Http.

Module AnalyzeController.
Import JS Http.

(** An entry of the map [interviewSessions]. *)
Record session := Session {
  id : jstring;
  problem : jstring;
  phase : jstring;
  interactions : Z;
  startedAt : jstring
}.

(** What the handler reads of an [options] value that is not [null]:
    the truthiness of [revealSolution], the session identifier the
    client sends back, and [phase]. A value without these properties
    (the default [{}], a number, a string, an array) reads as
    [Options false None None]. *)
Record options := Options {
  revealSolution : bool;
  sessionId : option jstring;
  opt_phase : option jstring
}.

(** The request body: [problem], [mode] and [options]. The default of
    [const { options = {} } = req.body] applies to an absent field only:
    an [options] that is [null] stays [null] ([None]). *)
Record body := Body {
  body_problem : jsval;
  body_mode : jsval;
  body_options : option options
}.

(** [options.revealSolution]: a [TypeError] on [null]. *)
Definition reveal_asked (opts : option options) : result bool :=
  match opts with
  | Some o => Ok (revealSolution o)
  | None => Throw (js "Cannot read properties of null")
  end.

(** [{ ...options }]: spreading [null] gives the empty object. *)
Definition spread (opts : option options) : options :=
  match opts with
  | Some o => o
  | None => Options false None None
  end.

(** [validateRequired(req.body, fields)] of utils/errorHandler.js: it
    returns, or throws an error that leaves the handler. *)
Class Validation := {
  validateRequired : body -> list jstring -> result unit
}.

(** The replies of [analyzeProblem]. *)
Inductive reply :=
| InterviewReply (success : bool) (requestId sessionId phase : jstring)
                 (interactionsRemaining : Z) (result : Rag.analysis)
| AnalysisReply (requestId mode : jstring) (result : Rag.analysis)
| RevealReply (result : Rag.analysis).

Definition VALID_MODES : list jstring :=
  [js "quick"; js "detailed"; js "interview"].

(** [const { mode = 'detailed' } = req.body] and
    [VALID_MODES.includes(mode) ? mode : 'detailed']. *)
Definition effective_mode (mode : jsval) : jstring :=
  match mode with
  | VStr m => if existsb (jstring_eqb m) VALID_MODES then m else js "detailed"
  | _ => js "detailed"
  end.

(** [/interview mode/gi] *)
Definition re_interview_mode : regex := lit_i "interview mode".

(** The phase assignment after [session.interactions++]. *)
Definition phase_for (interactions : Z) : jstring :=
  if interactions >=? 3 then js "reveal"
  else if interactions =? 2 then js "approach"
  else js "understanding".

Definition succeeded (result : Rag.analysis) : bool :=
  match result with Rag.Analyzed _ _ _ _ _ _ _ _ => true | Rag.Failed _ => false end.

Section Handlers.
Context `{Faiss.Embedder} `{Faiss.VectorIndex} `{Faiss.SnapshotFile}.
Context `{Rag.Completion} `{Rag.Prompts} `{Rag.CaseMapping}.
Context `{Validation}.

(** The state the handlers share: the map [interviewSessions] and the
    vector store the pipeline works on. *)
Record state := State {
  interviewSessions : gmap jstring session;
  store : Faiss.service
}.

Variables (env : Rag.environment) (pl : Rag.pipeline).

(** [analyzeProblem]: [requestId] and [freshId] are the values of the
    two calls of [uuidv4()], [now] the value of
    [new Date().toISOString()]. *)
Definition analyzeProblem (requestId freshId now : jstring) (st : state)
    (request : body) : outcome reply * state :=
  match validateRequired request [js "problem"] with
  | Throw e => (OtherError e, st)
  | Ok _ =>
      match long_enough (body_problem request) with
      | None =>
          (ApiError (js "Problem description must be at least 10 characters") 400,
           st)
      | Some text =>
          let opts := body_options request in
          let effectiveMode := effective_mode (body_mode request) in
          let isInterviewMode :=
            jstring_eqb effectiveMode (js "interview")
            || Rag.has_keyword env text in
          (* [isInterviewMode && !options.revealSolution] reads
             [options] only when [isInterviewMode] holds *)
          match (if isInterviewMode
                 then reveal <- reveal_asked opts ;; Ok (negb reveal)
                 else Ok false) with
          | Throw e => (OtherError e, st)
          | Ok true =>
              let sessionId :=
                match sessionId (spread opts) with
                | Some s => Rag.or_else s freshId
                | None => freshId
                end in
              let session :=
                match interviewSessions st !! sessionId with
                | Some s => s
                | None =>
                    Session sessionId
                            (trim (replace_all re_interview_mode [] text))
                            (js "initial") 0 now
                end in
              let interactions := interactions session + 1 in
              let session :=
                Session (id session) (problem session) (phase_for interactions)
                        interactions (startedAt session) in
              let ran :=
                Rag.analyzeProblem env pl (store st) text
                  (Rag.AnalyzeOptions (Some (js "interview"))
                                      (revealSolution (spread opts))
                                      (Some (phase session))) in
              (Json (InterviewReply (succeeded (Rag.analysis_of ran)) requestId
                       sessionId (phase session) (Z.max 0 (3 - interactions))
                       (Rag.analysis_of ran)),
               State (<[sessionId := session]> (interviewSessions st))
                     (Rag.store_after ran))
          | Ok false =>
              let ran :=
                Rag.analyzeProblem env pl (store st) text
                  (Rag.AnalyzeOptions (Some effectiveMode)
                                      (revealSolution (spread opts))
                                      (opt_phase (spread opts))) in
              let st' := State (interviewSessions st) (Rag.store_after ran) in
              match Rag.analysis_of ran with
              | Rag.Failed error =>
                  (ApiError (Rag.or_else error (js "Analysis failed")) 500, st')
              | result =>
                  (Json (AnalysisReply requestId effectiveMode result), st')
              end
          end
      end
  end.

(** The object [getSessionStatus] replies with. *)
Record status := Status {
  st_id : jstring;
  st_phase : jstring;
  st_interactions : Z;
  st_interactionsRemaining : Z;
  st_startedAt : jstring
}.

(** [getSessionStatus]. *)
Definition getSessionStatus (st : state) (sessionId : jstring) : outcome status :=
  match interviewSessions st !! sessionId with
  | None => ApiError (js "Session not found") 404
  | Some session =>
      Json (Status (id session) (phase session) (interactions session)
                   (Z.max 0 (3 - interactions session)) (startedAt session))
  end.

(** [revealSolution]. *)
Definition revealSolution_handler (st : state) (sessionId : jstring)
    : outcome reply * state :=
  match interviewSessions st !! sessionId with
  | None => (ApiError (js "Session not found") 404, st)
  | Some session =>
      let ran :=
        Rag.analyzeProblem env pl (store st) (problem session)
          (Rag.AnalyzeOptions None true None) in
      let st' := State (delete sessionId (interviewSessions st))
                       (Rag.store_after ran) in
      match Rag.analysis_of ran with
      | Rag.Failed error =>
          (ApiError (Rag.or_else error (js "Failed to reveal solution")) 500, st')
      | result => (Json (RevealReply result), st')
      end
  end.

(** [endSession]: the message of the reply, and the state after. *)
Definition endSession (st : state) (sessionId : jstring) : jstring * state :=
  (match interviewSessions st !! sessionId with
   | Some _ => js "Session ended"
   | None => js "Session not found"
   end,
   State (delete sessionId (interviewSessions st)) (store st)).

End Handlers.
End AnalyzeController.

Module EvaluateController.
Import JS Http.

(** The request body: [problem] and [code]. *)
Record body := Body {
  body_problem : jsval;
  body_code : jsval
}.

Class Validation := {
  validateRequired : body -> list jstring -> result unit
}.

(** [ToNumber] where the controller compares a value that is no number:
    a string, an array or an object. *)
Class Coercion := {
  coerce : jsval -> number
}.

(** [v.key] for a key that no prototype defines: a [TypeError] on
    [undefined] and [null], [undefined] where the key is absent. *)
Fixpoint own_field (key : jstring) (fields : list (jstring * jsval)) : jsval :=
  match fields with
  | [] => VUndefined
  | (k, v) :: rest => if jstring_eqb key k then v else own_field key rest
  end.

Definition field (v : jsval) (key : jstring) : result jsval :=
  match v with
  | VUndefined | VNull => Throw (js "Cannot read properties of undefined")
  | VObj fields => Ok (own_field key fields)
  | _ => Ok VUndefined
  end.

(** Truthiness. *)
Definition truthy (v : jsval) : bool :=
  match v with
  | VUndefined | VNull => false
  | VBool b => b
  | VNum x => negb (PrimFloat.eqb x 0 || is_nan x)
  | VStr s => negb (Nat.eqb (length s) 0)
  | VArr _ | VObj _ => true
  end.

(** [a || b] *)
Definition or_value (a b : jsval) : jsval := if truthy a then a else b.

(** The reply of [evaluateCode]. *)
Record graded := Graded {
  requestId : jstring;
  score : jsval;
  maxScore : Z;
  grade : jstring;
  message : jstring;
  breakdown : jsval;
  suggestions : jsval;
  optimal_solution_hint : jsval;
  model_used : jsval
}.

Section Handlers.
Context `{Rag.Generation} `{Rag.EvaluationPrompt} `{Templates.JsonParser}.
Context `{Validation} `{Coercion}.

(** [ToNumber(totalScore)]. *)
Definition to_number (v : jsval) : number :=
  match v with
  | VNum x => x
  | VBool true => 1%float
  | VBool false | VNull => 0%float
  | VUndefined => nan
  | other => coerce other
  end.

(** The chain of comparisons [totalScore >= 9], [>= 7], [>= 5], [>= 3]. *)
Definition assess (totalScore : jsval) : jstring * jstring :=
  let n := to_number totalScore in
  if PrimFloat.leb 9 n then
    (js "Excellent", js "Outstanding solution! Interview-ready quality.")
  else if PrimFloat.leb 7 n then
    (js "Good", js "Solid solution with minor improvements possible.")
  else if PrimFloat.leb 5 n then
    (js "Fair", js "Acceptable solution but needs improvement in some areas.")
  else if PrimFloat.leb 3 n then
    (js "Needs Improvement",
     js "Solution has significant issues that need addressing.")
  else (js "Insufficient", js "Solution requires major revision.").

(** [evaluateCode]: [uuid] is the value of [uuidv4()]. *)
Definition evaluateCode (uuid : jstring) (request : body) : outcome graded :=
  match validateRequired request [js "problem"; js "code"] with
  | Throw e => OtherError e
  | Ok _ =>
      match long_enough (body_problem request) with
      | None =>
          ApiError (js "Problem description must be at least 10 characters") 400
      | Some problem =>
          match long_enough (body_code request) with
          | None => ApiError (js "Code must be at least 10 characters") 400
          | Some code =>
              match Rag.evaluateCode problem code with
              | Rag.NotEvaluated error _ =>
                  ApiError (Rag.or_else error (js "Evaluation failed")) 500
              | Rag.Evaluated evaluation model =>
                  match
                    (raw <- field evaluation (js "score") ;;
                     let totalScore := or_value raw (VNum 0%float) in
                     let '(grade, message) := assess totalScore in
                     breakdown <- field evaluation (js "breakdown") ;;
                     suggestions <- field evaluation (js "suggestions") ;;
                     hint <- field evaluation (js "optimal_solution_hint") ;;
                     Ok (Graded uuid totalScore 10 grade message breakdown
                                (or_value suggestions (VArr []))
                                (or_value hint (VStr [])) model))
                  with
                  | Ok reply => Json reply
                  | Throw e => OtherError e
                  end
              end
          end
      end
  end.

End Handlers.
End EvaluateController.

(* ===================================================================== *)
(** * Vocabulary of the properties                                        *)
(* ===================================================================== *)

Module InterviewSpec.
Import JS Interview.

(** The position of a phase in the fixed order (-1 outside it). *)
Definition phase_rank (p : jstring) : Z := indexOf phases p.

(** The order between the states of one session, before and after. *)
Definition forward (s s' : session) : Prop :=
  interactions s <= interactions s'
  /\ phase_rank (phase s) <= phase_rank (phase s')
  /\ (phase s = REVEAL -> phase s' = REVEAL).

(** An operation other than the creation of [sid] never brings [sid]
    into being. *)
Definition creates (sid : jstring) (o : op) : Prop :=
  match o with
  | OpCreate i _ _ => i = sid
  | _ => False
  end.

(** The operations that keep every session in the map: advance, reveal,
    record a turn, read. *)
Definition keeps_sessions (o : op) : bool :=
  match o with
  | OpGet _ _ | OpUpdate _ _ _ | OpAddResponse _ _ _ | OpReveal _ _
  | OpStatus _ => true
  | OpCreate _ _ _ | OpEnd _ | OpCleanup _ => false
  end.

(** The number of advances of [sid] in a sequence of operations. *)
Definition advances (sid : jstring) (os : list op) : Z :=
  Z.of_nat (length (List.filter
    (fun o => match o with
              | OpUpdate _ i _ => jstring_eqb i sid
              | _ => false
              end) os)).

(** Whether a sequence of operations holds a reveal of [sid]. *)
Definition reveals (sid : jstring) (os : list op) : bool :=
  existsb (fun o => match o with
                    | OpReveal _ i => jstring_eqb i sid
                    | _ => false
                    end) os.

(** The turns a sequence of operations adds to the transcript of [sid]:
    one user turn for each advance with a non-empty text, one assistant
    turn for each recorded response. *)
Definition turns_of (sid : jstring) (os : list op) : list turn :=
  flat_map (fun o =>
    match o with
    | OpUpdate now i (c :: u) =>
        if jstring_eqb i sid then [Turn User (c :: u) now] else []
    | OpAddResponse now i r =>
        if jstring_eqb i sid then [Turn Assistant r now] else []
    | _ => []
    end) os.

(** What an operation does to the session [sid], when it is in the map
    and stays there. *)
Definition apply_op (sid : jstring) (o : op) (s : session) : session :=
  match o with
  | OpGet now i => if jstring_eqb i sid then set_lastActivity now s else s
  | OpUpdate now i u => if jstring_eqb i sid then advance now u s else s
  | OpAddResponse now i r =>
      if jstring_eqb i sid then push_history (Turn Assistant r now) s else s
  | OpReveal now i =>
      if jstring_eqb i sid then set_lastActivity now (set_phase REVEAL s) else s
  | _ => s
  end.

(** A session that was never revealed is at the phase of its counter. *)
Definition on_schedule (s : session) : Prop :=
  maxInteractions s = 3 /\ 0 <= interactions s
  /\ phase s = nth (Z.to_nat (Z.min 3 (interactions s))) phases REVEAL.

End InterviewSpec.

Module TextSpec.
Import JS.

(** A text neither starts nor ends with white space. *)
Definition trimmed (s : jstring) : Prop :=
  match s with
  | [] => True
  | c :: _ => is_space c = false /\ is_space (List.last s c) = false
  end.

(** An element of a list the parser extracts: not empty, and trimmed. *)
Definition clean_item (s : jstring) : Prop := s <> [] /\ trimmed s.

End TextSpec.

(** Stand-ins for the external collaborators, with canned answers, on
    which the properties below are evaluated. *)
Module Doubles.
Import JS Faiss.

(** An embedding provider that fails on the empty text and maps every
    other text to one fixed vector. *)
Definition canned_embedder : Embedder :=
  {| embed := fun text =>
       match text with
       | [] => Throw (js "empty input")
       | _ :: _ => Ok [3; 4]%float
       end |}.

(** An index that answers every search with the same labels and
    distances, whatever it holds. *)
Definition canned_index (answer : list (Z * number)) : VectorIndex :=
  {| index := unit;
     index_new := fun _ => tt;
     index_add := fun ix _ => Ok ix;
     index_search := fun _ _ _ => Ok answer |}.

(** An index that answers a search for [k] neighbours with [k] labels,
    0 to [k - 1], all with the same score. *)
Definition counting_index : VectorIndex :=
  {| index := unit;
     index_new := fun _ => tt;
     index_add := fun ix _ => Ok ix;
     index_search := fun _ _ k =>
       Ok (map (fun i => (Z.of_nat i, 0.9%float)) (seq 0 (Z.to_nat k))) |}.

(** An index whose search fails. *)
Definition broken_index : VectorIndex :=
  {| index := unit;
     index_new := fun _ => tt;
     index_add := fun ix _ => Ok ix;
     index_search := fun _ _ _ => Throw (js "index error") |}.



(** No snapshot on disk. *)
Definition no_snapshot : SnapshotFile :=
  {| readSnapshot := Throw (js "ENOENT") |}.

Definition two_sum : document :=
  Document 1 (js "Two Sum") (js "Easy") (Some [js "array"; js "hashmap"])
    (Some (js "Find two numbers that add up to a target."))
    (Some (js "Store complements in a hash map."))
    (Some (js "O(n)")).

Definition three_sum : document :=
  Document 2 (js "3Sum") (js "Medium") (Some [js "array"; js "two-pointers"])
    (Some (js "Find all triplets that sum to zero."))
    (Some (js "Sort, then sweep with two pointers."))
    (Some (js "O(n^2)")).

(** [two_sum] with another approach text. *)
Definition two_sum_brute : document :=
  Document 1 (js "Two Sum") (js "Easy") (Some [js "array"; js "hashmap"])
    (Some (js "Find two numbers that add up to a target."))
    (Some (js "Try every pair."))
    (Some (js "O(n^2)")).

(** An initialized store over the given documents. *)
Definition store `{VectorIndex} (docs : list (option document))
    (threshold : number) : service :=
  Service (Some (index_new 384)) docs 384 5 threshold true.

(** A completion service that answers every chat with one text. *)
Definition canned_completion (answer : jstring) : Rag.Completion :=
  {| Rag.chat := fun _ _ _ =>
       Ok (Rag.LlmResult true (VStr answer) [] (VStr (js "llama3")) VUndefined
                         VUndefined) |}.

(** Prompt builders that only concatenate. *)
Definition plain_prompts : Rag.Prompts :=
  {| Rag.SYSTEM_PROMPT := js "You are CodeMentor.";
     Rag.INTERVIEW_MODE_PROMPT := js "You are an interviewer.";
     Rag.generateAnalysisPrompt := fun problem ctx =>
       js "You are CodeMentor." ++ ctx ++ problem;
     Rag.generateInterviewPrompt := fun problem ctx phase =>
       js "You are an interviewer." ++ ctx ++ phase ++ problem |}.

(** A generation service that answers every prompt with one text. *)
Definition canned_generation (answer : jstring) : Rag.Generation :=
  {| Rag.generate := fun _ _ =>
       Ok (Rag.LlmResult true (VStr answer) [] (VStr (js "llama3")) VUndefined
                         VUndefined) |}.

(** A generation service that is out of reach. *)
Definition no_generation : Rag.Generation :=
  {| Rag.generate := fun _ _ => Throw (js "connect ECONNREFUSED") |}.

(** An evaluation prompt that only concatenates. *)
Definition plain_evaluation_prompt : Rag.EvaluationPrompt :=
  {| Rag.generateEvaluationPrompt := fun problem code => problem ++ code |}.


(** Validation that lets every request pass. *)
Definition accept_analyze : AnalyzeController.Validation :=
  {| AnalyzeController.validateRequired := fun _ _ => Ok tt |}.

Definition accept_evaluate : EvaluateController.Validation :=
  {| EvaluateController.validateRequired := fun _ _ => Ok tt |}.

(** A coercion that finds no number in any value. *)
Definition no_number : EvaluateController.Coercion :=
  {| EvaluateController.coerce := fun _ => nan |}.

(** [toLowerCase] on the ASCII range. *)
Definition ascii_lower : Rag.CaseMapping :=
  {| Rag.toLowerCase :=
       map (fun c => if is_upper c then (c + 32)%N else c) |}.

End Doubles.

Module FaissSpec.
Import JS Faiss.



(** A field that [documentToText] leaves out. *)
Definition falsy (value : option jstring) : Prop :=
  value = None \/ value = Some [].

(** Results in increasing rank. *)
Definition by_rank (a b : search_result) : Prop := rank a < rank b.

End FaissSpec.

Module EmbeddingSpec.
Import JS Embedding.

(** The polynomial in 31 over the code units of a text, the first unit
    at the highest power. *)
Definition poly31 (text : jstring) : Z :=
  fold_left (fun p c => 31 * p + Z.of_N c) text 0.

(** No call to the Python providers. *)
Definition no_python (c : backend_call) : bool :=
  match c with Ollama _ => true | _ => false end.

(** Providers with fixed answers: Python knows only the text "Aa",
    Ollama answers every text but the empty one. *)
Definition canned_backends : Backends :=
  {| embedWithPython := fun _ text =>
       if jstring_eqb text (js "Aa") then Ok [1; 0]%float
       else Throw (js "Python embedding failed");
     embedWithOllama := fun _ text =>
       match text with
       | [] => Throw (js "empty input")
       | _ :: _ => Ok [0; 1]%float
       end;
     embedBatchWithPython := fun _ _ => Throw (js "Python batch embedding failed") |}.

End EmbeddingSpec.

Module PromptSpec.
Import JS PromptTemplates.

(** The context template before and after its marker. *)
Definition template_before : jstring :=
  nl ++ js "## SIMILAR PROBLEMS FOR REFERENCE" ++ nl ++ nl
  ++ js "The following are similar problems from our knowledge base. Use them to provide better context and related insights:"
  ++ nl ++ nl.

Definition template_after : jstring :=
  nl ++ nl ++ js "---" ++ nl ++ nl
  ++ js "Now analyze the user's problem using the above context where relevant:"
  ++ nl.

(** The end of the analysis prompt. *)
Definition analysis_tail (problem : jstring) : jstring :=
  nl ++ nl ++ js "## USER'S PROBLEM" ++ nl ++ nl ++ problem
  ++ nl ++ nl ++ js "## YOUR COMPREHENSIVE ANALYSIS".

(** A text without a dollar sign. *)
Definition dollar_free (s : jstring) : Prop := ~ In 36%N s.

End PromptSpec.

Module RagSpec.
Import JS.

Definition is_some {A} (o : option A) : bool :=
  match o with Some _ => true | None => false end.

(** What the hints format may show of an entry of the corpus: its title
    and its tags ([None] for a null entry). *)
Definition doc_view (d : option Faiss.document)
    : option (jstring * option (list jstring)) :=
  match d with
  | Some d => Some (Faiss.title d, Faiss.tags d)
  | None => None
  end.

(** The same, of a search result. *)
Definition hints_view (r : Faiss.search_result)
    : option (jstring * option (list jstring)) :=
  doc_view (Faiss.document_of r).

(** The line of the hints format, from a title and a tag list. *)
Definition hint_line (view : jstring * option (list jstring)) : jstring :=
  js "Similar: " ++ view.1 ++ js " - Tags: " ++ Rag.tags_text view.2.

(** The hints context, from the views alone: empty for no result and
    when an entry is null, the joined lines otherwise. *)
Definition hints_context_of
    (views : list (option (jstring * option (list jstring)))) : jstring :=
  if forallb is_some views
  then join (Rag.newline ++ js "---" ++ Rag.newline)
            (map (fun v => match v with Some x => hint_line x | None => [] end) views)
  else [].

End RagSpec.

Module TemplatesSpec.
Import JS Templates.

(** [p] is a prefix of [s], up to case. *)
Fixpoint starts_with_i (p s : jstring) : bool :=
  match p, s with
  | [], _ => true
  | x :: p', y :: s' =>
      char_eqb (canonicalize y) (canonicalize x) && starts_with_i p' s'
  | _ :: _, [] => false
  end.

(** The index of the first occurrence of [p] in [s], up to case. *)
Fixpoint find_first_i (p s : jstring) : option nat :=
  if starts_with_i p s then Some 0%nat
  else match s with
       | [] => None
       | _ :: s' => option_map S (find_first_i p s')
       end.

(** The text up to the first place where [next] stands, up to case, or
    to the end of the text. *)
Fixpoint until_heading (next s : jstring) : jstring :=
  if starts_with_i next s then []
  else match s with
       | [] => []
       | x :: s' => x :: until_heading next s'
       end.

(** The block under a heading: from the first occurrence of the heading,
    past the white space, up to the heading [next] or the end. *)
Definition block_under (heading next text : jstring) : option jstring :=
  match find_first_i heading text with
  | None => None
  | Some i =>
      Some (until_heading next (trimStart (skipn (i + length heading) text)))
  end.

(** The trimmed block under a heading, or the empty text. *)
Definition text_under (heading next : string) (text : jstring) : jstring :=
  match block_under (js heading) (js next) text with
  | Some block => trim block
  | None => []
  end.

(** A reply whose second heading is missing. *)
Definition reply_without_second_heading : jstring :=
  join [10%N] (map js ["### 1. PROBLEM UNDERSTANDING"; "Find two numbers.";
                       "### 3. OPTIMIZED APPROACH"; "Use a hash map."]%string).

(** The text of a section: the trimmed capture of its pattern, or the
    default. *)
Definition section_text (r : regex) (text : jstring) : jstring :=
  match match_ r text with Some g => trim g | None => [] end.

(** The items of a list-valued section. *)
Definition section_items (r : regex) (text : jstring) : list jstring :=
  match match_ r text with Some g => list_items g | None => [] end.

(** [s] with [f g] applied if the pattern matched with capture [g]. *)
Definition fill (m : option jstring) (f : jstring -> sections -> sections)
    (s : sections) : sections :=
  match m with Some g => f g s | None => s end.

(** A statement of the [try] block completes: it does not throw, from
    any state of [sections]. *)
Definition completes {A} (m : M A) : Prop :=
  forall s, exists s' a, m s = (s', Ok a).

(** The index of the first occurrence of [p] in [s]. *)
Fixpoint find_first (p s : jstring) : option nat :=
  if starts_with p s then Some 0%nat
  else match s with
       | [] => None
       | _ :: s' => option_map S (find_first p s')
       end.

(** What [\s*([\s\S]*?)mark] finds in the text [s] that starts at index
    [i]: the capture starts after the white space and ends before the
    first [mark]. *)
Definition after_mark (mark : jstring) (i : nat) (s : jstring) : option mres :=
  let rest := trimStart s in
  let b := (i + (length s - length rest))%nat in
  match find_first mark rest with
  | Some n => Some ((b + n + length mark)%nat, Some (b, (b + n)%nat))
  | None => None
  end.

(** The first block between [opening] and [mark]. *)
Definition first_block (opening mark text : jstring) : option jstring :=
  match find_first opening text with
  | None => None
  | Some i =>
      let rest := trimStart (skipn (i + length opening) text) in
      match find_first mark rest with
      | Some n => Some (firstn n rest)
      | None => None
      end
  end.

Definition fence_open : jstring := js "```json".
Definition fence_close : jstring := js "```".

(** The first fenced JSON block of a text: what stands between the first
    "```json", the white space after it, and the next "```". *)
Definition first_fenced_block (text : jstring) : option jstring :=
  first_block fence_open fence_close text.

(** The text the evaluation is parsed from: the first fenced block, or
    failing that the entire text. *)
Definition evaluation_source (text : jstring) : jstring :=
  match first_fenced_block text with
  | Some block => block
  | None => text
  end.

(** A text in double quotes. *)
Definition quoted (s : string) : jstring := [34%N] ++ js s ++ [34%N].

(** An object as JSON text, from its members as JSON texts. *)
Definition json_object (members : list (string * jstring)) : jstring :=
  js "{" ++ join (js ",") (map (fun m => quoted m.1 ++ js ":" ++ m.2) members)
  ++ js "}".

(** A rubric evaluation as JSON text, and the value it denotes. *)
Definition rubric_text : jstring :=
  json_object
    [("score", js "7");
     ("breakdown", json_object
        [("correctness", json_object
            [("score", js "3"); ("feedback", quoted "handles every case")]);
         ("time_complexity", json_object
            [("score", js "2"); ("feedback", quoted "one pass");
             ("detected", quoted "O(n)")]);
         ("space_complexity", json_object
            [("score", js "1"); ("feedback", quoted "a map of n entries");
             ("detected", quoted "O(n)")]);
         ("code_quality", json_object
            [("score", js "1"); ("feedback", quoted "short names")]);
         ("edge_cases", json_object
            [("score", js "0"); ("feedback", quoted "empty input not handled");
             ("missing", js "[]")])]);
     ("suggestions", js "[]");
     ("optimal_solution_hint", quoted "use a hash map")]%string.

Definition criterion (score : number) (feedback : string)
    (more : list (jstring * jsval)) : jsval :=
  VObj ([(js "score", VNum score); (js "feedback", VStr (js feedback))] ++ more).

Definition rubric_value : jsval :=
  VObj [(js "score", VNum 7%float);
        (js "breakdown", VObj
           [(js "correctness", criterion 3%float "handles every case" []);
            (js "time_complexity",
               criterion 2%float "one pass" [(js "detected", VStr (js "O(n)"))]);
            (js "space_complexity",
               criterion 1%float "a map of n entries"
                         [(js "detected", VStr (js "O(n)"))]);
            (js "code_quality", criterion 1%float "short names" []);
            (js "edge_cases",
               criterion 0%float "empty input not handled"
                         [(js "missing", VArr [])])]);
        (js "suggestions", VArr []);
        (js "optimal_solution_hint", VStr (js "use a hash map"))].

(** [value.name], [undefined] where there is none. *)
Definition field (name : string) (value : jsval) : jsval :=
  match value with
  | VObj members =>
      match List.find (fun m => jstring_eqb m.1 (js name)) members with
      | Some m => m.2
      | None => VUndefined
      end
  | _ => VUndefined
  end.

(** The five criteria of the rubric. *)
Definition criteria : list string :=
  ["correctness"; "time_complexity"; "space_complexity"; "code_quality";
   "edge_cases"]%string.

(** [JSON.parse] as far as the examples below call it: the rubric text
    parses to its value, with or without a final line feed; every other
    text it is given there (the empty text, prose) is a [SyntaxError]. *)
Definition rubric_parser : JsonParser :=
  {| JSON_parse := fun text =>
       if jstring_eqb (trim text) rubric_text then Ok rubric_value
       else Throw (js "Unexpected token") |}.

Definition line_feed : jstring := [10%N].

(** A text from its lines. *)
Definition lines (ls : list string) : jstring := join line_feed (map js ls).

(** A reply with the eleven headings of the system prompt. *)
Definition well_formed_reply : jstring :=
  lines ["### 1. PROBLEM UNDERSTANDING"; "Find two numbers."; "";
         "### 2. BRUTE FORCE APPROACH"; "Try all pairs."; "";
         "### 3. OPTIMIZED APPROACH"; "Use a hash map."; "";
         "### 4. TIME COMPLEXITY"; "O(n)"; "";
         "### 5. SPACE COMPLEXITY"; "O(n)"; "";
         "### 6. EDGE CASES"; "- empty array"; "- no solution"; "";
         "### 7. JAVA CODE"; "```java"; "class Solution {}"; "```"; "";
         "### 8. DRY RUN EXAMPLE"; "nums = [2,7]"; "";
         "### 9. FOLLOW-UP QUESTIONS"; "1. What if sorted?"; "";
         "### 10. COMMON MISTAKES"; "- off by one"; "";
         "### 11. PROBLEM VARIATIONS"; "- 3Sum"]%string.

(** A reply with one fenced block. *)
Definition fenced_reply : jstring :=
  js "Here is my evaluation:" ++ line_feed
  ++ fence_open ++ line_feed ++ rubric_text ++ line_feed ++ fence_close
  ++ line_feed ++ js "Good luck!".

(** A reply with an empty fenced block before the rubric. *)
Definition two_fence_reply : jstring :=
  js "Draft:" ++ line_feed ++ fence_open ++ line_feed ++ fence_close
  ++ line_feed ++ js "Final:" ++ line_feed
  ++ fence_open ++ line_feed ++ rubric_text ++ line_feed ++ fence_close.

End TemplatesSpec.
(* ===================================================================== *)
(** * Properties of the interview sessions                                *)
(* ===================================================================== *)

Section InterviewProperties.
Import JS Interview InterviewSpec.

Implicit Types (sv : service) (s : session) (sid : jstring).

Lemma phase_rank_bounds p : -1 <= phase_rank p <= 3.
Proof.
  unfold phase_rank, indexOf, phases; cbn [indexOf_from].
  repeat match goal with |- context [if ?b then _ else _] => destruct b end; lia.
Qed.

Lemma phase_rank_REVEAL : phase_rank REVEAL = 3.
Proof. reflexivity. Qed.

Lemma jstring_eqb_eq (a b : jstring) : jstring_eqb a b = true <-> a = b.
Proof.
  revert b; induction a as [|x a IH]; intros [|y b]; simpl; try easy.
  rewrite andb_true_iff, IH. unfold char_eqb. rewrite N.eqb_eq.
  split; [intros [-> ->]; reflexivity | intros [= -> ->]; auto].
Qed.

Lemma jstring_eqb_refl (a : jstring) : jstring_eqb a a = true.
Proof. apply jstring_eqb_eq; reflexivity. Qed.

(** What [updateSession] writes into the phase only depends on the
    counter, the cap and the phase before. *)
Lemma phase_advance now u s :
  phase (advance now u s) =
  next_phase (set_interactions (interactions s + 1) s).
Proof. unfold advance; destruct u; reflexivity. Qed.

Lemma interactions_advance now u s :
  interactions (advance now u s) = interactions s + 1.
Proof. unfold advance; destruct u; reflexivity. Qed.

Lemma maxInteractions_advance now u s :
  maxInteractions (advance now u s) = maxInteractions s.
Proof. unfold advance; destruct u; reflexivity. Qed.

(** The next phase is the terminal one at the cap, and otherwise the
    successor in the order (the terminal phase is its own successor). *)
Lemma indexOf_phases p :
  indexOf phases p =
  if jstring_eqb UNDERSTANDING p then 0
  else if jstring_eqb APPROACH p then 1
  else if jstring_eqb OPTIMIZATION p then 2
  else if jstring_eqb REVEAL p then 3
  else -1.
Proof. reflexivity. Qed.

Lemma next_phase_rank s :
  phase_rank (next_phase s) =
  if interactions s >=? maxInteractions s then 3
  else Z.min 3 (phase_rank (phase s) + 1).
Proof.
  unfold next_phase, phase_rank. rewrite (indexOf_phases (phase s)).
  destruct (interactions s >=? maxInteractions s); [reflexivity|].
  destruct (jstring_eqb UNDERSTANDING (phase s)) eqn:E1; [reflexivity|].
  destruct (jstring_eqb APPROACH (phase s)) eqn:E2; [reflexivity|].
  destruct (jstring_eqb OPTIMIZATION (phase s)) eqn:E3; [reflexivity|].
  destruct (jstring_eqb REVEAL (phase s)) eqn:E4; [|reflexivity].
  change (indexOf phases (phase s) = 3).
  rewrite indexOf_phases, E1, E2, E3, E4. reflexivity.
Qed.

Lemma next_phase_REVEAL s : phase s = REVEAL -> next_phase s = REVEAL.
Proof.
  intros E. unfold next_phase. rewrite E.
  destruct (interactions s >=? maxInteractions s); reflexivity.
Qed.

Lemma forward_refl s : forward s s.
Proof. unfold forward; repeat split; auto; lia. Qed.

Lemma forward_trans s1 s2 s3 : forward s1 s2 -> forward s2 s3 -> forward s1 s3.
Proof. unfold forward; intros (?&?&?) (?&?&?); repeat split; auto; lia. Qed.

Lemma forward_advance now u s : forward s (advance now u s).
Proof.
  unfold forward. rewrite interactions_advance, phase_advance.
  split; [lia|]. split.
  - rewrite next_phase_rank. pose proof (phase_rank_bounds (phase s)).
    destruct (_ >=? _); simpl; lia.
  - intros E. apply next_phase_REVEAL. exact E.
Qed.

Lemma run_op_lookup sid o sv s' :
  ~ creates sid o ->
  sessions (run_op o sv) !! sid = Some s' ->
  exists s, sessions sv !! sid = Some s /\ forward s s'.
Proof.
  intros Hc. destruct o as [i now p|now i|now i u|now i r|now i|i|i|now]; simpl.
  - simpl in Hc. rewrite lookup_insert_ne by auto.
    intros E; exists s'; split; [exact E|apply forward_refl].
  - unfold getSession. destruct (sessions sv !! i) as [s|] eqn:E; simpl.
    + destruct (decide (i = sid)) as [->|Hne].
      * rewrite lookup_insert_eq. intros [= <-]. exists s; split; [exact E|].
        unfold forward; simpl; repeat split; auto; lia.
      * rewrite lookup_insert_ne by auto.
        intros E'; exists s'; split; [exact E'|apply forward_refl].
    + intros E'; exists s'; split; [exact E'|apply forward_refl].
  - unfold updateSession. destruct (sessions sv !! i) as [s|] eqn:E; simpl.
    + destruct (decide (i = sid)) as [->|Hne].
      * rewrite lookup_insert_eq. intros [= <-]. exists s; split; [exact E|].
        apply forward_advance.
      * rewrite lookup_insert_ne by auto.
        intros E'; exists s'; split; [exact E'|apply forward_refl].
    + intros E'; exists s'; split; [exact E'|apply forward_refl].
  - unfold addResponse. destruct (sessions sv !! i) as [s|] eqn:E; simpl.
    + destruct (decide (i = sid)) as [->|Hne].
      * rewrite lookup_insert_eq. intros [= <-]. exists s; split; [exact E|].
        unfold forward; simpl; repeat split; auto; lia.
      * rewrite lookup_insert_ne by auto.
        intros E'; exists s'; split; [exact E'|apply forward_refl].
    + intros E'; exists s'; split; [exact E'|apply forward_refl].
  - unfold revealSolution. destruct (sessions sv !! i) as [s|] eqn:E; simpl.
    + destruct (decide (i = sid)) as [->|Hne].
      * rewrite lookup_insert_eq. intros [= <-]. exists s; split; [exact E|].
        unfold forward; simpl. split; [lia|]. split; [|reflexivity].
        change (phase_rank REVEAL) with 3.
        pose proof (phase_rank_bounds (phase s)); lia.
      * rewrite lookup_insert_ne by auto.
        intros E'; exists s'; split; [exact E'|apply forward_refl].
    + intros E'; exists s'; split; [exact E'|apply forward_refl].
  - intros E. apply lookup_delete_Some in E as [_ E].
    exists s'; split; [exact E|apply forward_refl].
  - intros E; exists s'; split; [exact E|apply forward_refl].
  - unfold cleanupExpiredSessions; simpl. intros E.
    apply map_lookup_filter_Some in E as [E _].
    exists s'; split; [exact E|apply forward_refl].
Qed.

Lemma run_ops_lookup sid os : forall sv s',
  Forall (fun o => ~ creates sid o) os ->
  sessions (run_ops os sv) !! sid = Some s' ->
  exists s, sessions sv !! sid = Some s /\ forward s s'.
Proof.
  unfold run_ops. induction os as [|o os IH]; simpl; intros sv s' Hall E.
  - exists s'; split; [exact E|apply forward_refl].
  - inversion Hall as [|? ? Ho Hos]; subst.
    destruct (IH _ _ Hos E) as (s1 & E1 & F1).
    destruct (run_op_lookup sid o sv s1 Ho E1) as (s0 & E0 & F0).
    exists s0; split; [exact E0|eapply forward_trans; eauto].
Qed.


Lemma keeps_sessions_not_creates sid o : keeps_sessions o = true -> ~ creates sid o.
Proof. destruct o; simpl; intros E; try discriminate; tauto. Qed.

Lemma run_op_keeps sid o sv s :
  keeps_sessions o = true ->
  sessions sv !! sid = Some s ->
  is_Some (sessions (run_op o sv) !! sid).
Proof.
  intros K E.
  destruct o as [i now p|now i|now i u|now i r|now i|i|i|now];
    try discriminate K; simpl;
    try (unfold getSession, updateSession, addResponse, revealSolution;
         destruct (sessions sv !! i) eqn:Ei; simpl;
         [destruct (decide (i = sid)) as [->|Hne];
          [rewrite lookup_insert_eq|rewrite lookup_insert_ne by auto]|]);
    eauto.
Qed.

Lemma run_ops_keeps sid os : forall sv s,
  forallb keeps_sessions os = true ->
  sessions sv !! sid = Some s ->
  is_Some (sessions (run_ops os sv) !! sid).
Proof.
  unfold run_ops. induction os as [|o os IH]; simpl; intros sv s K E; [eauto|].
  apply andb_true_iff in K as [Ko Kos].
  destruct (run_op_keeps sid o sv s Ko E) as [s1 E1].
  exact (IH _ s1 Kos E1).
Qed.

Lemma updateSession_found now sid u sv s :
  sessions sv !! sid = Some s ->
  updateSession now sid u sv =
  (Some (advance now u s),
   with_sessions (<[sid := advance now u s]> (sessions sv)) sv).
Proof. intros E. unfold updateSession. rewrite E. reflexivity. Qed.

Lemma next_phase_ext s s' :
  interactions s = interactions s' ->
  maxInteractions s = maxInteractions s' ->
  phase s = phase s' ->
  next_phase s = next_phase s'.
Proof. unfold next_phase. intros -> -> ->. reflexivity. Qed.

(** One advance of a session with counter [n], cap 3 and phase [p]. *)
Lemma advance_step now u s n p :
  interactions s = n -> maxInteractions s = 3 -> phase s = p ->
  interactions (advance now u s) = n + 1
  /\ maxInteractions (advance now u s) = 3
  /\ phase (advance now u s) = next_phase (Session [] [] p (n + 1) 3 0 0 []).
Proof.
  intros Hn Hm Hp.
  rewrite interactions_advance, maxInteractions_advance, phase_advance, Hn, Hm.
  repeat split. apply next_phase_ext; simpl; auto.
Qed.

(** C1. A session created for "interview mode: reverse a list" stores the
    text without the trigger phrase, starts in phase understanding with
    counter 0; three advances take it through approach, optimization and
    reveal and leave the counter at 3; a fourth advance leaves it in
    reveal. This holds for every identifier, clock reading, user turn and
    prior content of the session map. *)
Theorem interview_session_walkthrough
    (sid : jstring) (now t1 t2 t3 t4 : Z) (u1 u2 u3 u4 : jstring) (sv : service) :
  let created := createSession sid now (js "interview mode: reverse a list") sv in
  let a1 := updateSession t1 sid u1 created.2 in
  let a2 := updateSession t2 sid u2 a1.2 in
  let a3 := updateSession t3 sid u3 a2.2 in
  let a4 := updateSession t4 sid u4 a3.2 in
  sessions created.2 !! sid = Some created.1
  /\ problem created.1 = js ": reverse a list"
  /\ test re_interview_mode (problem created.1) = false
  /\ phase created.1 = UNDERSTANDING
  /\ interactions created.1 = 0
  /\ phase <$> a1.1 = Some APPROACH
  /\ phase <$> a2.1 = Some OPTIMIZATION
  /\ phase <$> a3.1 = Some REVEAL
  /\ interactions <$> a3.1 = Some 3
  /\ phase <$> a4.1 = Some REVEAL.
Proof.
  intros created a1 a2 a3 a4.
  set (s0 := created.1).
  assert (E0 : sessions created.2 !! sid = Some s0)
    by (unfold created, createSession; simpl; apply lookup_insert_eq).
  assert (P0 : problem s0 = js ": reverse a list") by (vm_compute; reflexivity).
  split; [exact E0|]. split; [exact P0|].
  split; [rewrite P0; vm_compute; reflexivity|].
  split; [reflexivity|]. split; [reflexivity|].
  assert (H0 : interactions s0 = 0 /\ maxInteractions s0 = 3 /\ phase s0 = UNDERSTANDING)
    by (repeat split).
  destruct H0 as (I0 & M0 & Ph0).
  pose proof (updateSession_found t1 sid u1 _ _ E0) as U1.
  fold a1 in U1.
  destruct (advance_step t1 u1 s0 _ _ I0 M0 Ph0) as (I1 & M1 & Ph1).
  set (s1 := advance t1 u1 s0) in *.
  assert (E1 : sessions a1.2 !! sid = Some s1)
    by (rewrite U1; simpl; apply lookup_insert_eq).
  pose proof (updateSession_found t2 sid u2 _ _ E1) as U2.
  fold a2 in U2.
  destruct (advance_step t2 u2 s1 _ _ I1 M1 Ph1) as (I2 & M2 & Ph2).
  set (s2 := advance t2 u2 s1) in *.
  assert (E2 : sessions a2.2 !! sid = Some s2)
    by (rewrite U2; simpl; apply lookup_insert_eq).
  pose proof (updateSession_found t3 sid u3 _ _ E2) as U3.
  fold a3 in U3.
  destruct (advance_step t3 u3 s2 _ _ I2 M2 Ph2) as (I3 & M3 & Ph3).
  set (s3 := advance t3 u3 s2) in *.
  assert (E3 : sessions a3.2 !! sid = Some s3)
    by (rewrite U3; simpl; apply lookup_insert_eq).
  pose proof (updateSession_found t4 sid u4 _ _ E3) as U4.
  fold a4 in U4.
  destruct (advance_step t4 u4 s3 _ _ I3 M3 Ph3) as (I4 & M4 & Ph4).
  set (s4 := advance t4 u4 s3) in *.
  clearbody s1 s2 s3 s4.
  rewrite U1, U2, U3, U4; cbn [fst fmap option_fmap option_map].
  rewrite Ph1, Ph2, Ph3, Ph4, I3.
  repeat split.
Qed.

(** C2. Take a session of the map and any sequence of operations of the
    service that does not create the same identifier anew. If the session
    is still in the map afterwards, its counter has not decreased, its
    phase has not moved backward in the order understanding, approach,
    optimization, reveal, and a session in reveal is still in reveal.
    Under the operations advance, reveal, record a turn and read, the
    session is still in the map. One advance adds one to the counter and
    sets the phase to reveal when the counter reaches the cap, and to the
    successor in the order otherwise; one reveal sets the phase to reveal
    and leaves the counter. *)
Theorem session_progress_is_monotone
    (sid : jstring) (sv : service) (s : session) :
  sessions sv !! sid = Some s ->
  (forall os s',
     Forall (fun o => ~ creates sid o) os ->
     sessions (run_ops os sv) !! sid = Some s' ->
     interactions s <= interactions s'
     /\ phase_rank (phase s) <= phase_rank (phase s')
     /\ (phase s = REVEAL -> phase s' = REVEAL))
  /\ (forall os,
        forallb keeps_sessions os = true ->
        exists s', sessions (run_ops os sv) !! sid = Some s' /\ forward s s')
  /\ (forall now u,
        exists s', (updateSession now sid u sv).1 = Some s'
          /\ sessions (updateSession now sid u sv).2 !! sid = Some s'
          /\ interactions s' = interactions s + 1
          /\ (interactions s + 1 >= maxInteractions s -> phase s' = REVEAL)
          /\ (interactions s + 1 < maxInteractions s ->
              phase_rank (phase s') = Z.min 3 (phase_rank (phase s) + 1)))
  /\ (forall now,
        exists s', (revealSolution now sid sv).1 = Some s'
          /\ sessions (revealSolution now sid sv).2 !! sid = Some s'
          /\ interactions s' = interactions s
          /\ phase s' = REVEAL).
Proof.
  intros E. repeat apply conj.
  - intros os s' Hos E'.
    destruct (run_ops_lookup sid os sv s' Hos E') as (s0 & E0 & F).
    rewrite E in E0. injection E0 as <-. exact F.
  - intros os K.
    destruct (run_ops_keeps sid os sv s K E) as [s' E'].
    exists s'; split; [exact E'|].
    assert (Hos : Forall (fun o => ~ creates sid o) os).
    { apply Forall_forall. intros o Ho. apply keeps_sessions_not_creates.
      rewrite forallb_forall in K. apply K. apply list_elem_of_In. exact Ho. }
    destruct (run_ops_lookup sid os sv s' Hos E') as (s0 & E0 & F).
    rewrite E in E0. injection E0 as <-. exact F.
  - intros now u. exists (advance now u s).
    rewrite (updateSession_found now sid u sv s E).
    unfold with_sessions; cbn [fst snd sessions].
    split; [reflexivity|]. split; [apply lookup_insert_eq|].
    rewrite interactions_advance, phase_advance. split; [reflexivity|].
    split.
    + intros Hcap. unfold next_phase; cbn [interactions maxInteractions set_interactions].
      destruct (Z.geb_spec (interactions s + 1) (maxInteractions s)); [reflexivity|lia].
    + intros Hlt. rewrite next_phase_rank;
        cbn [interactions maxInteractions phase set_interactions].
      destruct (Z.geb_spec (interactions s + 1) (maxInteractions s)); [lia|reflexivity].
  - intros now. unfold revealSolution. rewrite E; simpl.
    eexists; split; [reflexivity|]. split; [apply lookup_insert_eq|].
    split; reflexivity.
Qed.

Lemma session_progress_is_monotone_witness :
  let sid := js "s-1" in
  let created := createSession sid 0 (js "interview mode: two sum") new_service in
  let os := [OpUpdate 10 sid (js "is the array sorted?"); OpGet 20 sid;
             OpAddResponse 30 sid (js "it is not"); OpReveal 40 sid;
             OpUpdate 50 sid []] in
  sessions created.2 !! sid = Some created.1
  /\ exists s', sessions (run_ops os created.2) !! sid = Some s'
       /\ forward created.1 s'.
Proof.
  intros sid created os.
  assert (E : sessions created.2 !! sid = Some created.1)
    by (apply lookup_insert_eq).
  split; [exact E|].
  destruct (session_progress_is_monotone sid created.2 created.1 E)
    as (_ & Hkeep & _ & _).
  exact (Hkeep os eq_refl).
Defined.

Lemma sessionTimeout_run_op o sv :
  sessionTimeout (run_op o sv) = sessionTimeout sv.
Proof.
  destruct o as [i now p|now i|now i u|now i r|now i|i|i|now]; simpl;
    unfold getSession, updateSession, addResponse, revealSolution;
    try destruct (sessions sv !! i); reflexivity.
Qed.

Lemma sessionTimeout_run_ops os : forall sv,
  sessionTimeout (run_ops os sv) = sessionTimeout sv.
Proof.
  unfold run_ops. induction os as [|o os IH]; intros sv; [reflexivity|].
  simpl. rewrite IH. apply sessionTimeout_run_op.
Qed.

(** C9. A session whose last activity lies further back than the timeout
    is gone from the map after the sweep, and from then on an advance
    and a status query on its identifier return null and change nothing;
    a session within the timeout stays as it is. The timeout of a new
    service is 30 minutes, the sweep runs every 5 minutes, and no
    operation changes the timeout. *)
Theorem expired_session_is_swept
    (sid : jstring) (now : Z) (sv : service) (s : session) :
  sessions sv !! sid = Some s ->
  now - lastActivity s > sessionTimeout sv ->
  let sv' := cleanupExpiredSessions now sv in
  sessions sv' !! sid = None
  /\ (forall t u, updateSession t sid u sv' = (None, sv'))
  /\ getSessionStatus sid sv' = None
  /\ (forall sid2 s2,
        sessions sv !! sid2 = Some s2 ->
        now - lastActivity s2 <= sessionTimeout sv ->
        sessions sv' !! sid2 = Some s2)
  /\ sessionTimeout new_service = 30 * 60 * 1000
  /\ cleanupInterval = 5 * 60 * 1000
  /\ (forall os, sessionTimeout (run_ops os sv) = sessionTimeout sv).
Proof.
  intros E Hold sv'.
  assert (Egone : sessions sv' !! sid = None).
  { unfold sv', cleanupExpiredSessions; simpl.
    apply map_lookup_filter_None. right. intros s0 E0.
    rewrite E in E0. injection E0 as <-. simpl. unfold expired. tauto. }
  split; [exact Egone|].
  split; [intros t u; unfold updateSession; rewrite Egone; reflexivity|].
  split; [unfold getSessionStatus; rewrite Egone; reflexivity|].
  split.
  { intros sid2 s2 E2 Hfresh. unfold sv', cleanupExpiredSessions; simpl.
    apply map_lookup_filter_Some. split; [exact E2|].
    simpl. unfold expired. lia. }
  split; [reflexivity|]. split; [reflexivity|].
  intros os. apply sessionTimeout_run_ops.
Qed.

Lemma expired_session_is_swept_witness :
  let sid := js "s-1" in
  let created := createSession sid 0 (js "interview mode: two sum") new_service in
  let sv' := cleanupExpiredSessions 1800001 created.2 in
  sessions created.2 !! sid = Some created.1
  /\ 1800001 - lastActivity created.1 > sessionTimeout created.2
  /\ sessions sv' !! sid = None
  /\ getSessionStatus sid sv' = None.
Proof.
  intros sid created sv'.
  assert (E : sessions created.2 !! sid = Some created.1)
    by (apply lookup_insert_eq).
  assert (Hold : 1800001 - lastActivity created.1 > sessionTimeout created.2)
    by (vm_compute; reflexivity).
  split; [exact E|]. split; [exact Hold|].
  destruct (expired_session_is_swept sid 1800001 created.2 created.1 E Hold)
    as (Hgone & _ & Hstatus & _).
  split; [exact Hgone|exact Hstatus].
Defined.

End InterviewProperties.

(* ===================================================================== *)
(** * Properties of the vector store                                      *)
(* ===================================================================== *)

Section FloatOrder.

(** The order [<=] of binary64 values, through its specification. *)
Lemma SFleb_trans a b c :
  SFleb a b = true -> SFleb b c = true -> SFleb a c = true.
Proof.
  unfold SFleb, SFcompare.
  destruct a as [[]|[]| |[] ma ea], b as [[]|[]| |[] mb eb],
           c as [[]|[]| |[] mc ec];
    simpl; try congruence; intros H1 H2;
    repeat match goal with
    | H : context [Z.compare ?x ?y] |- _ => destruct (Z.compare_spec x y); subst
    | |- context [Z.compare ?x ?y] => destruct (Z.compare_spec x y); subst
    end; try congruence; try lia;
    rewrite ?Pos.compare_cont_spec in *; simpl in *;
    repeat match goal with
    | H : context [Pos.compare ?x ?y] |- _ => destruct (Pos.compare_spec x y); subst
    | |- context [Pos.compare ?x ?y] => destruct (Pos.compare_spec x y); subst
    end; simpl in *; try congruence; try lia.
Qed.

Lemma SFleb_not_ltb a b : SFleb a b = true -> SFltb b a = false.
Proof.
  unfold SFleb, SFltb, SFcompare.
  destruct a as [[]|[]| |[] ma ea], b as [[]|[]| |[] mb eb];
    simpl; try congruence; intros H1;
    repeat match goal with
    | H : context [Z.compare ?x ?y] |- _ => destruct (Z.compare_spec x y); subst
    | |- context [Z.compare ?x ?y] => destruct (Z.compare_spec x y); subst
    end; try congruence; try lia;
    rewrite ?Pos.compare_cont_spec in *; simpl in *;
    repeat match goal with
    | H : context [Pos.compare ?x ?y] |- _ => destruct (Pos.compare_spec x y); subst
    | |- context [Pos.compare ?x ?y] => destruct (Pos.compare_spec x y); subst
    end; simpl in *; try congruence; try lia.
Qed.

Lemma leb_trans (a b c : float) :
  PrimFloat.leb a b = true -> PrimFloat.leb b c = true -> PrimFloat.leb a c = true.
Proof. rewrite !leb_spec. apply SFleb_trans. Qed.

Lemma leb_not_ltb (a b : float) :
  PrimFloat.leb a b = true -> PrimFloat.ltb b a = false.
Proof. rewrite leb_spec, ltb_spec. apply SFleb_not_ltb. Qed.

End FloatOrder.

Section FaissProperties.
Import JS Faiss.
Context `{Embedder} `{VectorIndex} `{SnapshotFile}.

Implicit Types (sv : service) (query : jstring) (r : search_result).

Lemma with_threshold_same sv : with_threshold (similarityThreshold sv) sv = sv.
Proof. destruct sv; reflexivity. Qed.

Lemma initialize_with_threshold t sv :
  (initialize (with_threshold t sv)).2 = with_threshold t (initialize sv).2.
Proof.
  unfold initialize, loadIndex.
  destruct readSnapshot as [[docs embeddings]|e]; [|reflexivity].
  destruct embeddings as [|e es]; [reflexivity|].
  cbn [dimension with_threshold].
  destruct (add_all _ _) as [ix []]; reflexivity.
Qed.

Lemma ensure_initialized_with_threshold t sv :
  ensure_initialized (with_threshold t sv) =
  with_threshold t (ensure_initialized sv).
Proof.
  unfold ensure_initialized. cbn [isInitialized with_threshold].
  destruct (isInitialized sv); [reflexivity|apply initialize_with_threshold].
Qed.

Lemma similarityThreshold_ensure sv :
  similarityThreshold (ensure_initialized sv) = similarityThreshold sv.
Proof.
  unfold ensure_initialized, initialize, loadIndex.
  destruct (isInitialized sv); [reflexivity|].
  destruct readSnapshot as [[docs embeddings]|e]; [|reflexivity].
  destruct embeddings as [|e es]; [reflexivity|].
  destruct (add_all _ _) as [ix []]; reflexivity.
Qed.

(** The array a search resolves to: the candidates of the initialized
    store, filtered by its threshold; nothing if the store is empty or
    the [try] block throws. *)
Lemma results_search sv query k :
  results (search sv query k) =
  let ready := ensure_initialized sv in
  match documents ready with
  | [] => []
  | _ :: _ =>
      match search_candidates ready query (clamp_k ready k) with
      | Ok rs => List.filter (above_threshold (similarityThreshold sv)) rs
      | Throw _ => []
      end
  end.
Proof.
  unfold search. cbv zeta.
  destruct (documents (ensure_initialized sv)); [reflexivity|].
  unfold search_try. rewrite similarityThreshold_ensure.
  destruct (search_candidates _ _ _); reflexivity.
Qed.

Lemma results_search_with_threshold t sv query k :
  results (search (with_threshold t sv) query k) =
  let ready := ensure_initialized sv in
  match documents ready with
  | [] => []
  | _ :: _ =>
      match search_candidates ready query (clamp_k ready k) with
      | Ok rs => List.filter (above_threshold t) rs
      | Throw _ => []
      end
  end.
Proof.
  rewrite results_search. cbv zeta.
  rewrite ensure_initialized_with_threshold. reflexivity.
Qed.

(** The results of a search under two thresholds. *)
Lemma search_threshold_monotone sv query (k : option Z) (t1 t2 : number) r :
  PrimFloat.leb t1 t2 = true ->
  In r (results (search (with_threshold t2 sv) query k)) ->
  In r (results (search (with_threshold t1 sv) query k)).
Proof.
  intros Hle. rewrite !results_search_with_threshold. cbv zeta.
  destruct (documents (ensure_initialized sv)); [auto|].
  destruct (search_candidates _ _ _) as [rs|e]; [|auto].
  rewrite !filter_In. intros [Hin Hab]. split; [exact Hin|].
  unfold above_threshold in *. eapply leb_trans; eauto.
Qed.

Lemma search_above_threshold sv query (k : option Z) r :
  In r (results (search sv query k)) ->
  PrimFloat.leb (similarityThreshold sv) (score r) = true.
Proof.
  rewrite results_search. cbv zeta.
  destruct (documents (ensure_initialized sv)); [intros []|].
  destruct (search_candidates _ _ _) as [rs|e]; [|intros []].
  rewrite filter_In. intros [_ Hab]. exact Hab.
Qed.

Lemma clamp_k_above sv (k : Z) :
  documents sv <> [] ->
  k > Z.of_nat (length (documents sv)) ->
  clamp_k sv (Some k) = Z.of_nat (length (documents sv))
  /\ clamp_k sv (Some (Z.of_nat (length (documents sv))))
     = Z.of_nat (length (documents sv)).
Proof.
  intros Hne Hk. unfold clamp_k.
  destruct (documents sv) as [|d ds]; [congruence|].
  cbn [length] in *.
  destruct (Z.eqb_spec k 0); [lia|].
  destruct (Z.eqb_spec (Z.of_nat (S (length ds))) 0); [lia|].
  split; lia.
Qed.

(** Every element the formatting loop produces comes from a pair of the
    index whose label lies inside the documents array. *)
Lemma format_results_In docs found : forall i r,
  In r (format_results docs found i) ->
  exists idx, In (idx, score r) found
    /\ 0 <= idx < Z.of_nat (length docs)
    /\ docs !! Z.to_nat idx = Some (document_of r).
Proof.
  induction found as [|[idx sc] rest IH]; intros i r; simpl; [intros []|].
  destruct (Z.geb_spec idx 0) as [Hge|Hlt]; simpl.
  - destruct (Z.ltb_spec idx (Z.of_nat (length docs))) as [Hin|Hout]; simpl.
    + intros [<-|Hr].
      * exists idx; simpl. split; [auto|]. split; [lia|].
        assert (Hn : (Z.to_nat idx < length docs)%nat) by lia.
        destruct (lookup_lt_is_Some_2 docs _ Hn) as [d Hd].
        rewrite Hd. f_equal. symmetry. apply nth_lookup_Some with (d := None) in Hd.
        exact Hd.
      * destruct (IH _ _ Hr) as (j & ? & ? & ?); exists j; auto.
    + intros Hr. destruct (IH _ _ Hr) as (j & ? & ? & ?); exists j; auto.
  - intros Hr. destruct (IH _ _ Hr) as (j & ? & ? & ?); exists j; auto.
Qed.

Lemma search_result_document sv query k r :
  In r (results (search sv query k)) ->
  In (document_of r) (documents (ensure_initialized sv)).
Proof.
  rewrite results_search. cbv zeta.
  destruct (documents (ensure_initialized sv)) as [|d ds] eqn:Hd; [intros []|].
  destruct (search_candidates _ _ _) as [rs|e] eqn:Hc; [|intros []].
  rewrite filter_In. intros [Hr _]. revert Hc. unfold search_candidates.
  destruct (embed query) as [v|]; [|discriminate]. cbn [bind].
  destruct (the_index _) as [ix|]; [|discriminate]. cbn [bind].
  destruct (index_search _ _ _) as [found|]; [|discriminate]. cbn [bind].
  intros [= <-]. rewrite Hd in Hr.
  destruct (format_results_In _ _ _ _ Hr) as (idx & _ & _ & Hdoc).
  apply list_elem_of_In. eapply list_elem_of_lookup_2. exact Hdoc.
Qed.

(** C10. With [n] the number of documents of the initialized store and
    [answer j] what a search resolves to when the index is asked for [j]
    neighbours: a search for [k] neighbours asks the index for the
    smaller of [k] and [n] (of the configured count and [n] when [k] is
    absent or 0), so a search for more than [n] neighbours asks for [n]
    and is the search for [n]; on an empty store a search returns the
    empty array and sends nothing to the embedding provider; every
    result returned stems from a label the index gave that is a valid
    position of the documents array, and carries the document at that
    position. *)
Theorem search_clamps_k sv query :
  let ready := ensure_initialized sv in
  let n := Z.of_nat (length (documents ready)) in
  let answer (j : Z) :=
    match embed query with
    | Ok v =>
        match the_index ready with
        | Some ix =>
            match index_search ix (normalizeVector v) j with
            | Ok found =>
                List.filter (above_threshold (similarityThreshold ready))
                            (format_results (documents ready) found 0)
            | Throw _ => []
            end
        | None => []
        end
    | Throw _ => []
    end in
  (forall k : Z, k > n -> search sv query (Some k) = search sv query (Some n))
  /\ (documents ready = [] ->
      forall k, results (search sv query k) = []
                /\ embedded (search sv query k) = [])
  /\ (forall k r,
        In r (results (search sv query k)) ->
        exists v ix found idx,
          embed query = Ok v
          /\ the_index ready = Some ix
          /\ index_search ix (normalizeVector v)
               (Z.min match k with
                      | Some j => if j =? 0 then topK ready else j
                      | None => topK ready
                      end n) = Ok found
          /\ In (idx, score r) found
          /\ 0 <= idx < n
          /\ documents ready !! Z.to_nat idx = Some (document_of r))
  /\ (documents ready <> [] ->
      (forall k, k > n -> results (search sv query (Some k)) = answer n)
      /\ (forall k, k <> 0 ->
            results (search sv query (Some k)) = answer (Z.min k n))
      /\ results (search sv query None) = answer (Z.min (topK ready) n)
      /\ results (search sv query (Some 0)) = answer (Z.min (topK ready) n)).
Proof.
  intros ready n answer.
  assert (Hasked : forall k,
            documents ready <> [] ->
            results (search sv query k)
            = answer (Z.min match k with
                            | Some j => if j =? 0 then topK ready else j
                            | None => topK ready
                            end n)).
  { intros k Hne. rewrite results_search. cbv zeta. fold ready.
    destruct (documents ready) as [|d ds] eqn:Hd; [congruence|].
    unfold answer, search_candidates, clamp_k, n. rewrite Hd.
    rewrite <- (similarityThreshold_ensure sv). fold ready.
    destruct (embed query) as [v|e]; [|reflexivity]. cbn [bind].
    destruct (the_index ready) as [ix|]; [|reflexivity]. cbn [bind].
    destruct (index_search _ _ _) as [found|e]; reflexivity. }
  repeat apply conj.
  - intros k Hk. unfold n in *. unfold search. fold ready.
    assert (Hcases : documents ready = [] \/ documents ready <> [])
      by (destruct (documents ready); [left; reflexivity|right; discriminate]).
    destruct Hcases as [Hd|Hne]; [rewrite Hd; reflexivity|].
    destruct (clamp_k_above ready k Hne Hk) as [E1 E2].
    rewrite E1, E2. reflexivity.
  - intros Hd k. unfold search. fold ready. rewrite Hd. split; reflexivity.
  - intros k r. rewrite results_search. cbv zeta. fold ready.
    destruct (documents ready) as [|d ds] eqn:Hd; [intros []|].
    unfold search_candidates.
    destruct (embed query) as [v|e]; [|intros []]. cbn [bind].
    destruct (the_index ready) as [ix|]; [|intros []]. cbn [bind].
    destruct (index_search ix (normalizeVector v) (clamp_k ready k))
      as [found|e] eqn:Hs; [|intros []]. cbn [bind].
    rewrite filter_In. intros [Hr _].
    destruct (format_results_In _ _ _ _ Hr) as (idx & Hin & Hrange & Hdoc).
    exists v, ix, found, idx. unfold n. rewrite Hd in Hrange, Hdoc.
    unfold clamp_k in Hs. rewrite Hd in Hs. auto 10.
  - intros Hne.
    assert (Hn : 0 < n)
      by (unfold n; destruct (documents ready); [congruence|cbn [length]; lia]).
    repeat apply conj.
    + intros k Hk. rewrite (Hasked (Some k) Hne). f_equal.
      destruct (Z.eqb_spec k 0); lia.
    + intros k Hk. rewrite (Hasked (Some k) Hne).
      destruct (Z.eqb_spec k 0); [contradiction|reflexivity].
    + apply (Hasked None Hne).
    + apply (Hasked (Some 0) Hne).
Qed.

End FaissProperties.

Section FaissWitnesses.
Import JS Faiss Doubles.

Lemma search_clamps_k_witness :
  let index := canned_index [(0, 0.9%float); (-1, 0.8%float); (7, 0.8%float); (1, 0.75%float)] in
  let sv := @store index [Some two_sum; Some three_sum] 0.7%float in
  let search := @search canned_embedder index no_snapshot in
  let seven := @store counting_index (repeat (Some two_sum) 7) 0.7%float in
  let count (k : option Z) :=
    length (results (@Faiss.search canned_embedder counting_index no_snapshot
                       seven (js "pair sum") k)) in
  map document_of (results (search sv (js "pair sum") (Some 9)))
    = [Some two_sum; Some three_sum]
  /\ search sv (js "pair sum") (Some 9) = search sv (js "pair sum") (Some 2)
  /\ embedded (search (@store index [] 0.7%float) (js "pair sum") (Some 9)) = []
  /\ count (Some 9) = 7%nat /\ count (Some 3) = 3%nat /\ count None = 5%nat.
Proof.
  intros index sv search seven count.
  split; [vm_compute; reflexivity|].
  split; [|split].
  - exact (proj1 (@search_clamps_k canned_embedder index no_snapshot
                    sv (js "pair sum")) 9 eq_refl).
  - exact (proj2 (proj1 (proj2 (@search_clamps_k canned_embedder index no_snapshot
                    (@store index [] 0.7%float) (js "pair sum"))) eq_refl (Some 9))).
  - destruct (proj2 (proj2 (proj2
               (@search_clamps_k canned_embedder counting_index no_snapshot
                  seven (js "pair sum")))) ltac:(discriminate))
      as (Above & Asked & Absent & _).
    unfold count. rewrite (Above 9 eq_refl), (Asked 3 ltac:(discriminate)), Absent.
    repeat split; vm_compute; reflexivity.
Defined.

End FaissWitnesses.

(* ===================================================================== *)
(** * Properties of the pipeline                                          *)
(* ===================================================================== *)

Section RenderProperties.
Import JS Rag RagSpec.

Implicit Types (r : Faiss.search_result) (rs : list Faiss.search_result).

Lemma mapM_render_hints rs :
  mapM render_hints rs =
  if forallb is_some (map hints_view rs)
  then Ok (map (fun v => match v with Some x => hint_line x | None => [] end)
               (map hints_view rs))
  else Throw (js "Cannot read properties of null").
Proof.
  induction rs as [|r rs IH]; [reflexivity|].
  cbn [mapM map forallb]. unfold render_hints at 1, doc_of, hints_view at 1 3.
  destruct (Faiss.document_of r) as [d|]; cbn [bind is_some andb doc_view];
    [|reflexivity].
  rewrite IH. destruct (forallb _ _); reflexivity.
Qed.

Lemma mapM_to_source_ok rs :
  forallb is_some (map hints_view rs) = true ->
  exists srcs, mapM to_source rs = Ok srcs.
Proof.
  induction rs as [|r rs IH]; [intros _; eexists; reflexivity|].
  cbn [mapM map forallb]. unfold to_source at 1, doc_of, hints_view at 1.
  destruct (Faiss.document_of r) as [d|]; cbn [bind is_some andb doc_view];
    [|discriminate].
  intros Hrs. destruct (IH Hrs) as [srcs ->]. eexists; reflexivity.
Qed.

(** The context of the hints format is a function of the views. *)
Lemma render_hints_context chunk rs :
  context match render chunk (js "hints") rs with
          | Ok got => got
          | Throw _ => no_context
          end
  = hints_context_of (map hints_view rs).
Proof.
  unfold render, hints_context_of.
  destruct rs as [|r0 rs0]; [reflexivity|].
  set (rs := r0 :: rs0).
  change (jstring_eqb (js "hints") (js "minimal")) with false.
  change (jstring_eqb (js "hints") (js "hints")) with true.
  cbn iota. rewrite mapM_render_hints.
  destruct (forallb _ (map hints_view rs)) eqn:Hall; cbn [bind]; [|reflexivity].
  destruct (mapM_to_source_ok rs Hall) as [srcs ->]. reflexivity.
Qed.

(** The views and scores of the formatted results only depend on the
    views of the documents. *)
Lemma format_results_views docs1 docs2 found :
  map doc_view docs1 = map doc_view docs2 ->
  forall i,
    map (fun r => (hints_view r, Faiss.score r)) (Faiss.format_results docs1 found i)
    = map (fun r => (hints_view r, Faiss.score r)) (Faiss.format_results docs2 found i).
Proof.
  intros Hd.
  assert (Hlen : length docs1 = length docs2)
    by (rewrite <- (length_map doc_view docs1), Hd; apply length_map).
  induction found as [|[idx sc] rest IH]; intros i; [reflexivity|].
  cbn [Faiss.format_results]. rewrite Hlen.
  destruct ((idx >=? 0) && (idx <? Z.of_nat (length docs2))); [|apply IH].
  cbn [map]. f_equal; [|apply IH].
  f_equal. unfold hints_view. cbn [Faiss.document_of].
  change (@None (jstring * option (list jstring))) with (doc_view None).
  rewrite <- !(map_nth doc_view). rewrite Hd. reflexivity.
Qed.

Lemma filter_views t rs1 : forall rs2,
  map (fun r => (hints_view r, Faiss.score r)) rs1
  = map (fun r => (hints_view r, Faiss.score r)) rs2 ->
  map hints_view (List.filter (Faiss.above_threshold t) rs1)
  = map hints_view (List.filter (Faiss.above_threshold t) rs2).
Proof.
  induction rs1 as [|r1 rs1 IH]; intros [|r2 rs2]; cbn [map]; intros Heq;
    try discriminate Heq; [reflexivity|].
  injection Heq as Hv Hs Hrest. cbn [List.filter].
  change (Faiss.above_threshold t r1) with (PrimFloat.leb t (Faiss.score r1)).
  change (Faiss.above_threshold t r2) with (PrimFloat.leb t (Faiss.score r2)).
  rewrite Hs. destruct (PrimFloat.leb t (Faiss.score r2)); cbn [map];
    [rewrite Hv; f_equal|]; apply IH; exact Hrest.
Qed.

(** A [map] whose callback may throw succeeds when the callback does on
    every element, and then yields the results in order. *)
Lemma mapM_Ok {A B} (f : A -> result B) (l : list A) :
  (forall x, In x l -> exists y, f x = Ok y) ->
  exists ys, mapM f l = Ok ys
    /\ forall y, In y ys <-> exists x, In x l /\ f x = Ok y.
Proof.
  induction l as [|x l IH]; intros Hf.
  - exists []. split; [reflexivity|]. intros y; split; [intros []|intros (? & [] & _)].
  - destruct (Hf x (or_introl eq_refl)) as [y Hy].
    destruct IH as (ys & Hys & Hin); [intros x' Hx'; apply Hf; right; exact Hx'|].
    exists (y :: ys). split; [cbn [mapM]; rewrite Hy; cbn [bind]; rewrite Hys; reflexivity|].
    intros y'. split.
    + intros [<-|Hy']; [exists x; split; [left; reflexivity|exact Hy]|].
      apply Hin in Hy' as (x' & Hx' & Hfx'). exists x'; split; [right|]; assumption.
    + intros (x' & [<-|Hx'] & Hfx').
      * rewrite Hy in Hfx'. injection Hfx' as <-. left; reflexivity.
      * right. apply Hin. exists x'; split; assumption.
Qed.

Lemma mapM_Ok_In {A B} (f : A -> result B) (l : list A) ys y :
  mapM f l = Ok ys -> In y ys -> exists x, In x l /\ f x = Ok y.
Proof.
  revert ys. induction l as [|x l IH]; intros ys; cbn [mapM].
  - intros [= <-] [].
  - destruct (f x) as [y0|] eqn:Hx; [|discriminate]. cbn [bind].
    destruct (mapM f l) as [ys0|]; [|discriminate]. cbn [bind].
    intros [= <-] [<-|Hy].
    + exists x; split; [left; reflexivity|exact Hx].
    + destruct (IH ys0 eq_refl Hy) as (x' & Hx' & Hfx').
      exists x'; split; [right|]; assumption.
Qed.

(** The sources of a rendering are the sources of its results. *)
Lemma render_sources_In chunk format rs got src :
  render chunk format rs = Ok got ->
  In src (sources got) ->
  exists r, In r rs /\ to_source r = Ok src.
Proof.
  unfold render. destruct rs as [|r0 rs0]; [intros [= <-] []|].
  set (rs := r0 :: rs0).
  destruct (if jstring_eqb format (js "minimal") then mapM render_minimal rs
            else if jstring_eqb format (js "hints") then mapM render_hints rs
            else mapM (render_full chunk) rs) as [parts|]; [|discriminate].
  cbn [bind]. destruct (mapM to_source rs) as [srcs|] eqn:Hs; [|discriminate].
  cbn [bind]. intros [= <-]. cbn [sources]. apply mapM_Ok_In. exact Hs.
Qed.

(** Rendering succeeds when no result holds a null entry, and then every
    result has its source. *)
Lemma render_Ok chunk format rs :
  (forall r, In r rs -> Faiss.document_of r <> None) ->
  exists got, render chunk format rs = Ok got
    /\ forall r src, In r rs -> to_source r = Ok src -> In src (sources got).
Proof.
  intros Hdocs. unfold render. destruct rs as [|r0 rs0].
  - exists no_context. split; [reflexivity|]. intros r src [].
  - set (rs := r0 :: rs0) in *.
    assert (Hdoc : forall r, In r rs -> exists d, doc_of r = Ok d).
    { intros r Hr. specialize (Hdocs r Hr). unfold doc_of.
      destruct (Faiss.document_of r) as [d|]; [eexists; reflexivity|congruence]. }
    assert (Hparts : exists parts,
              (if jstring_eqb format (js "minimal") then mapM render_minimal rs
               else if jstring_eqb format (js "hints") then mapM render_hints rs
               else mapM (render_full chunk) rs) = Ok parts).
    { destruct (jstring_eqb format (js "minimal"));
        [|destruct (jstring_eqb format (js "hints"))];
        match goal with |- exists _, mapM ?f _ = _ =>
          destruct (mapM_Ok f rs) as (parts & Hp & _); [|exists parts; exact Hp]
        end;
        intros r Hr; destruct (Hdoc r Hr) as [d Hd];
        unfold render_minimal, render_hints, render_full; rewrite Hd;
        eexists; reflexivity. }
    destruct Hparts as [parts ->]. cbn [bind].
    destruct (mapM_Ok to_source rs) as (srcs & Hs & Hin).
    { intros r Hr; destruct (Hdoc r Hr) as [d Hd]. unfold to_source.
      rewrite Hd. eexists; reflexivity. }
    rewrite Hs. cbn [bind]. eexists; split; [reflexivity|].
    cbn [sources]. intros r src Hr Hsrc. apply Hin. exists r; split; assumption.
Qed.

Lemma to_source_score r src : to_source r = Ok src -> src_score src = Faiss.score r.
Proof.
  unfold to_source. destruct (doc_of r); [|discriminate].
  cbn [bind]. intros [= <-]. reflexivity.
Qed.

End RenderProperties.

Section RagProperties.
Import JS Rag RagSpec.
Context `{Faiss.Embedder} `{Faiss.VectorIndex} `{Faiss.SnapshotFile}.
Context `{Completion} `{Prompts} `{CaseMapping}.

Implicit Types (pl : pipeline) (fs : Faiss.service) (query : jstring).

(** C4. With the hints format, the context [retrieveContext] renders is
    computed from the titles and the tag lists of the results alone: it
    is the lines "Similar: title - Tags: tags" of the results, joined.
    Hence two result lists with the same titles and tags, whatever their
    approach, problem, complexity, difficulty, score and rank, render to
    the same context, and so do two initialized stores over one index
    whose documents agree on titles and tags, for every query. *)
Theorem hints_context_shows_title_and_tags_only :
  (forall pl fs query (k : option Z),
     let options := RetrieveOptions k (Some (js "hints")) in
     context (retrieved_of (retrieveContext pl fs query options))
     = hints_context_of
         (map hints_view
            (Faiss.results
               (Faiss.search fs query (Some (effective_topK pl options))))))
  /\ (forall chunk1 chunk2 rs1 rs2,
        map hints_view rs1 = map hints_view rs2 ->
        context match render chunk1 (js "hints") rs1 with
                | Ok got => got | Throw _ => no_context end
        = context match render chunk2 (js "hints") rs2 with
                  | Ok got => got | Throw _ => no_context end)
  /\ (forall pl fs1 fs2 query (k : option Z),
        let options := RetrieveOptions k (Some (js "hints")) in
        Faiss.isInitialized fs1 = true ->
        Faiss.isInitialized fs2 = true ->
        Faiss.the_index fs1 = Faiss.the_index fs2 ->
        Faiss.topK fs1 = Faiss.topK fs2 ->
        Faiss.similarityThreshold fs1 = Faiss.similarityThreshold fs2 ->
        map doc_view (Faiss.documents fs1) = map doc_view (Faiss.documents fs2) ->
        context (retrieved_of (retrieveContext pl fs1 query options))
        = context (retrieved_of (retrieveContext pl fs2 query options))).
Proof.
  assert (Hfun : forall pl fs query (k : option Z),
     let options := RetrieveOptions k (Some (js "hints")) in
     context (retrieved_of (retrieveContext pl fs query options))
     = hints_context_of
         (map hints_view
            (Faiss.results
               (Faiss.search fs query (Some (effective_topK pl options)))))).
  { intros pl fs query k options. unfold retrieveContext.
    cbn [retrieved_of].
    change (effective_format options) with (js "hints").
    apply render_hints_context. }
  split; [exact Hfun|]. split.
  - intros chunk1 chunk2 rs1 rs2 Hv.
    rewrite !render_hints_context, Hv. reflexivity.
  - intros pl fs1 fs2 query k options Hi1 Hi2 Hix Hk Ht Hd.
    unfold options. rewrite !Hfun. f_equal.
    rewrite !results_search. cbv zeta.
    unfold Faiss.ensure_initialized. rewrite Hi1, Hi2.
    assert (Hlen : length (Faiss.documents fs1) = length (Faiss.documents fs2))
      by (rewrite <- (length_map doc_view (Faiss.documents fs1)), Hd;
          apply length_map).
    assert (Hclamp : forall k', Faiss.clamp_k fs1 k' = Faiss.clamp_k fs2 k')
      by (intros k'; unfold Faiss.clamp_k; rewrite Hk, Hlen; reflexivity).
    unfold Faiss.search_candidates. rewrite Hclamp, Hix, Ht.
    destruct (Faiss.documents fs1) as [|d1 ds1] eqn:E1;
      destruct (Faiss.documents fs2) as [|d2 ds2] eqn:E2;
      try discriminate Hlen; [reflexivity|].
    destruct (Faiss.embed query) as [v|]; [|reflexivity]. cbn [bind].
    destruct (Faiss.the_index fs2) as [ix|]; [|reflexivity]. cbn [bind].
    destruct (Faiss.index_search ix _ _) as [found|]; [|reflexivity]. cbn [bind].
    apply filter_views. apply format_results_views. exact Hd.
Qed.

(** C3. A search never returns a result whose score is below the
    threshold of the store, and for one query, one store and two
    thresholds t1 <= t2, every result returned under t2 is returned
    under t1. The same holds of the sources [retrieveContext] returns:
    none has a score below the threshold, and, in a store without null
    entries, every source returned under t2 is returned under t1. *)
Theorem search_respects_threshold fs query (t1 t2 : number) :
  PrimFloat.leb t1 t2 = true ->
  (forall k r,
     In r (Faiss.results (Faiss.search (Faiss.with_threshold t2 fs) query k)) ->
     In r (Faiss.results (Faiss.search (Faiss.with_threshold t1 fs) query k)))
  /\ (forall k r,
        In r (Faiss.results (Faiss.search fs query k)) ->
        PrimFloat.leb (Faiss.similarityThreshold fs) (Faiss.score r) = true
        /\ PrimFloat.ltb (Faiss.score r) (Faiss.similarityThreshold fs) = false)
  /\ (forall pl options src,
        In src (sources (retrieved_of (retrieveContext pl fs query options))) ->
        PrimFloat.leb (Faiss.similarityThreshold fs) (src_score src) = true
        /\ PrimFloat.ltb (src_score src) (Faiss.similarityThreshold fs) = false)
  /\ (forall pl options src,
        (forall d, In d (Faiss.documents (Faiss.ensure_initialized fs)) ->
                   d <> None) ->
        In src (sources (retrieved_of
                 (retrieveContext pl (Faiss.with_threshold t2 fs) query options))) ->
        In src (sources (retrieved_of
                 (retrieveContext pl (Faiss.with_threshold t1 fs) query options)))).
Proof.
  intros Hle. repeat apply conj.
  - intros k r. apply search_threshold_monotone. exact Hle.
  - intros k r Hr. pose proof (search_above_threshold fs query k r Hr) as Hab.
    split; [exact Hab|apply leb_not_ltb; exact Hab].
  - intros pl options src. unfold retrieveContext. cbn [retrieved_of].
    destruct (render _ _ _) as [got|e] eqn:Hrender; [|intros []].
    intros Hsrc.
    destruct (render_sources_In _ _ _ _ _ Hrender Hsrc) as (r & Hr & Hto).
    rewrite (to_source_score r src Hto).
    pose proof (search_above_threshold fs query _ r Hr) as Hab.
    split; [exact Hab|apply leb_not_ltb; exact Hab].
  - intros pl options src Hdocs. unfold retrieveContext. cbn [retrieved_of].
    destruct (render _ _ (Faiss.results (Faiss.search (Faiss.with_threshold t2 fs) _ _)))
      as [got2|e] eqn:Hrender2; [|intros []].
    intros Hsrc.
    destruct (render_sources_In _ _ _ _ _ Hrender2 Hsrc) as (r & Hr & Hto).
    apply (search_threshold_monotone fs query _ t1 t2 r Hle) in Hr.
    destruct (render_Ok (chunkSize pl) (effective_format options)
                (Faiss.results (Faiss.search (Faiss.with_threshold t1 fs) query
                   (Some (effective_topK pl options)))))
      as (got1 & Hrender1 & Hin).
    { intros r' Hr'. apply search_result_document in Hr'.
      rewrite ensure_initialized_with_threshold in Hr'. apply Hdocs. exact Hr'. }
    rewrite Hrender1. eapply Hin; eassumption.
Qed.

(** C7. [retrieveContext] resolves to the empty context and no sources
    when the embedding provider throws, when the index search throws,
    and when rendering throws; in every case it resolves to that or to
    what the rendering produced, and never throws itself. *)
Theorem retrieveContext_fails_soft pl fs query (options : retrieve_options) :
  let ready := Faiss.ensure_initialized fs in
  let k := Faiss.clamp_k ready (Some (effective_topK pl options)) in
  let got := retrieved_of (retrieveContext pl fs query options) in
  (forall e, Faiss.embed query = Throw e -> got = no_context)
  /\ (forall v ix e,
        Faiss.embed query = Ok v ->
        Faiss.the_index ready = Some ix ->
        Faiss.index_search ix (Faiss.normalizeVector v) k = Throw e ->
        got = no_context)
  /\ (forall e,
        render (chunkSize pl) (effective_format options)
          (Faiss.results
             (Faiss.search fs query (Some (effective_topK pl options))))
        = Throw e ->
        got = no_context)
  /\ (got = no_context
      \/ render (chunkSize pl) (effective_format options)
           (Faiss.results
              (Faiss.search fs query (Some (effective_topK pl options))))
         = Ok got).
Proof.
  intros ready k got.
  assert (Hempty : Faiss.results
            (Faiss.search fs query (Some (effective_topK pl options))) = [] ->
          got = no_context).
  { intros E. unfold got, retrieveContext. cbn [retrieved_of]. rewrite E.
    reflexivity. }
  repeat apply conj.
  - intros e He. apply Hempty. rewrite results_search. cbv zeta.
    destruct (Faiss.documents _); [reflexivity|].
    unfold Faiss.search_candidates. rewrite He. reflexivity.
  - intros v ix e Hv Hix Hs. apply Hempty. rewrite results_search. cbv zeta.
    fold ready. destruct (Faiss.documents ready); [reflexivity|].
    unfold Faiss.search_candidates. rewrite Hv. cbn [bind].
    rewrite Hix. cbn [bind]. fold k. rewrite Hs. reflexivity.
  - intros e He. unfold got, retrieveContext. cbn [retrieved_of].
    rewrite He. reflexivity.
  - unfold got, retrieveContext. cbn [retrieved_of].
    destruct (render _ _ _); [right; reflexivity|left; reflexivity].
Qed.


End RagProperties.

Section RagWitnesses.
Import JS Rag RagSpec Doubles.

Lemma search_respects_threshold_witness :
  let index := canned_index [(0, 0.9%float); (1, 0.5%float)] in
  let sv := @store index [Some two_sum; Some three_sum] 0.7%float in
  let search := @Faiss.search canned_embedder index no_snapshot in
  PrimFloat.leb 0.3%float 0.7%float = true
  /\ map Faiss.document_of
       (Faiss.results (search (Faiss.with_threshold 0.7%float sv) (js "pair sum") None))
     = [Some two_sum]
  /\ map Faiss.document_of
       (Faiss.results (search (Faiss.with_threshold 0.3%float sv) (js "pair sum") None))
     = [Some two_sum; Some three_sum]
  /\ (forall k r,
        In r (Faiss.results (search (Faiss.with_threshold 0.7%float sv) (js "pair sum") k)) ->
        In r (Faiss.results (search (Faiss.with_threshold 0.3%float sv) (js "pair sum") k))).
Proof.
  intros index sv search.
  split; [reflexivity|]. split; [vm_compute; reflexivity|].
  split; [vm_compute; reflexivity|].
  exact (proj1 (@search_respects_threshold canned_embedder index no_snapshot
                  sv (js "pair sum") 0.3%float 0.7%float eq_refl)).
Defined.

Lemma hints_context_shows_title_and_tags_only_witness :
  let index := canned_index [(0, 0.9%float)] in
  let hints fs :=
    context (retrieved_of
      (@retrieveContext canned_embedder index no_snapshot (Pipeline 2 500) fs
         (js "pair sum") (RetrieveOptions None (Some (js "hints"))))) in
  hints (@store index [Some two_sum] 0.7%float)
  = js "Similar: Two Sum - Tags: array, hashmap"
  /\ hints (@store index [Some two_sum_brute] 0.7%float)
     = hints (@store index [Some two_sum] 0.7%float).
Proof.
  intros index hints. split; [vm_compute; reflexivity|].
  exact (proj2 (proj2 (@hints_context_shows_title_and_tags_only
                         canned_embedder index no_snapshot))
               (Pipeline 2 500) (@store index [Some two_sum_brute] 0.7%float)
               (@store index [Some two_sum] 0.7%float) (js "pair sum") None
               eq_refl eq_refl eq_refl eq_refl eq_refl eq_refl).
Defined.

Lemma retrieveContext_fails_soft_witness :
  let index := canned_index [(0, 0.9%float)] in
  let fs := @store index [Some two_sum] 0.7%float in
  Faiss.embed (Embedder := canned_embedder) [] = Throw (js "empty input")
  /\ retrieved_of
       (@retrieveContext canned_embedder index no_snapshot (Pipeline 2 500) fs
          [] (RetrieveOptions None None)) = no_context
  /\ retrieved_of
       (@retrieveContext canned_embedder broken_index no_snapshot (Pipeline 2 500)
          (@store broken_index [Some two_sum] 0.7%float)
          (js "pair sum") (RetrieveOptions None None)) = no_context
  /\ retrieved_of
       (@retrieveContext canned_embedder index no_snapshot (Pipeline 2 500)
          (@store index [None] 0.7%float)
          (js "pair sum") (RetrieveOptions None None)) = no_context.
Proof.
  intros index fs. split; [reflexivity|]. split; [|split].
  - exact (proj1 (@retrieveContext_fails_soft canned_embedder index no_snapshot
                    (Pipeline 2 500) fs [] (RetrieveOptions None None))
                 (js "empty input") eq_refl).
  - exact (proj1 (proj2 (@retrieveContext_fails_soft canned_embedder broken_index
                    no_snapshot (Pipeline 2 500)
                    (@store broken_index [Some two_sum] 0.7%float)
                    (js "pair sum") (RetrieveOptions None None)))
                 [3; 4]%float tt (js "index error") eq_refl eq_refl eq_refl).
  - exact (proj1 (proj2 (proj2 (@retrieveContext_fails_soft canned_embedder index
                    no_snapshot (Pipeline 2 500)
                    (@store index [None] 0.7%float)
                    (js "pair sum") (RetrieveOptions None None))))
                 (js "Cannot read properties of null") eq_refl).
Defined.


End RagWitnesses.

(* ===================================================================== *)
(** * Properties of the response parsers                                  *)
(* ===================================================================== *)

Section RegexFacts.
Import JS TemplatesSpec.

Implicit Types (p s : jstring) (i n : nat) (c : capture) (k : cont).

(** A literal matches a prefix, code unit by code unit. *)
Lemma rmatch_literal p : forall i s c k,
  rmatch (seq_of (map chr p)) i s c k =
  if starts_with p s then k (i + length p)%nat (skipn (length p) s) c else None.
Proof.
  induction p as [|x p IH]; intros i s c k.
  - cbn. rewrite Nat.add_0_r. reflexivity.
  - destruct p as [|x' p'].
    + cbn. destruct s as [|y s']; [reflexivity|].
      rewrite andb_true_r, Nat.add_1_r. reflexivity.
    + change (seq_of (map chr (x :: x' :: p')))
        with (Seq (chr x) (seq_of (map chr (x' :: p')))).
      cbn [rmatch chr]. destruct s as [|y s']; [reflexivity|].
      change (starts_with (x :: x' :: p') (y :: s'))
        with (char_eqb x y && starts_with (x' :: p') s').
      destruct (char_eqb x y); [|reflexivity].
      rewrite IH. cbn [andb].
      replace (i + length (x :: x' :: p'))%nat
        with (S i + length (x' :: p'))%nat by (cbn [length]; lia).
      reflexivity.
Qed.

Lemma trimStart_length s : (length (trimStart s) <= length s)%nat.
Proof.
  induction s as [|x s IH]; cbn; [lia|]. destruct (is_space x); cbn; lia.
Qed.

(** [trimStart] drops a prefix. *)
Lemma trimStart_skipn s :
  trimStart s = skipn (length s - length (trimStart s)) s.
Proof.
  induction s as [|x s IH]; [reflexivity|]. cbn [trimStart].
  destruct (is_space x).
  - pose proof (trimStart_length s).
    replace (length (x :: s) - length (trimStart s))%nat
      with (S (length s - length (trimStart s))) by (cbn [length]; lia).
    exact IH.
  - rewrite Nat.sub_diag. reflexivity.
Qed.

Lemma find_first_skipn p s : forall n,
  find_first p s = None -> find_first p (skipn n s) = None.
Proof.
  induction s as [|x s IH]; intros n.
  - rewrite skipn_nil. auto.
  - destruct n as [|n]; [auto|]. cbn [find_first skipn].
    destruct (starts_with p (x :: s)); [discriminate|].
    destruct (find_first p s); [discriminate|]. intros _. apply IH. reflexivity.
Qed.

Section Fence.
(** A closing mark that starts with a code unit other than white space. *)
Variables (t0 : N) (t' : jstring).
Hypothesis t0_not_space : is_space t0 = false.
Let mark : jstring := t0 :: t'.

Lemma starts_with_mark_space x s :
  is_space x = true -> starts_with mark (x :: s) = false.
Proof.
  intros Hx. cbn. unfold char_eqb.
  destruct (N.eqb_spec t0 x) as [->|]; [congruence|reflexivity].
Qed.

Lemma find_first_trimStart s :
  find_first mark (trimStart s) = None -> find_first mark s = None.
Proof.
  induction s as [|x s IH]; [auto|]. cbn [trimStart].
  destruct (is_space x) eqn:Hx; [|auto].
  intros Hn. cbn [find_first]. rewrite (starts_with_mark_space x s Hx).
  rewrite (IH Hn). reflexivity.
Qed.

(** The lazy group before the closing mark stops at the first mark. *)
Lemma star_lazy_until_mark (i0 : nat) s : forall i c,
  star false any_char i s c
    (fun i' s' _ => rmatch (seq_of (map chr mark)) i' s' (Some (i0, i')) accept)
  = match find_first mark s with
    | Some n => Some ((i + n + length mark)%nat, Some (i0, (i + n)%nat))
    | None => None
    end.
Proof.
  induction s as [|x s IH]; intros i c.
  - cbn [star]. rewrite rmatch_literal. reflexivity.
  - cbn [star any_char]. rewrite rmatch_literal. cbn [find_first].
    destruct (starts_with mark (x :: s)).
    + unfold accept. rewrite Nat.add_0_r. reflexivity.
    + rewrite IH. destruct (find_first mark s) as [n|]; [|reflexivity].
      cbn [option_map]. rewrite !Nat.add_succ_r. reflexivity.
Qed.

Lemma rmatch_lazy_group_mark i s c :
  rmatch (Seq lazy_group (seq_of (map chr mark))) i s c accept
  = match find_first mark s with
    | Some n => Some ((i + n + length mark)%nat, Some (i, (i + n)%nat))
    | None => None
    end.
Proof. exact (star_lazy_until_mark i s i c). Qed.

(** White space, greedily, before a continuation that fails on a text
    whenever it fails after the first white-space unit of that text. *)
Section Greedy.
Variable k : cont.
Hypothesis k_fails_back :
  forall i x s c, is_space x = true -> k (S i) s c = None -> k i (x :: s) c = None.

Lemma fails_before_spaces s : forall i c,
  k (i + (length s - length (trimStart s)))%nat (trimStart s) c = None ->
  k i s c = None.
Proof.
  induction s as [|x s IH]; intros i c.
  - cbn. rewrite Nat.add_0_r. auto.
  - cbn [trimStart]. destruct (is_space x) eqn:Hx.
    + pose proof (trimStart_length s).
      replace (length (x :: s) - length (trimStart s))%nat
        with (S (length s - length (trimStart s))) by (cbn [length]; lia).
      rewrite Nat.add_succ_r. intros Hn.
      apply k_fails_back; [exact Hx|]. apply IH. exact Hn.
    + rewrite Nat.sub_diag, Nat.add_0_r. auto.
Qed.

Lemma star_greedy_space s : forall i c,
  star true is_space i s c k
  = k (i + (length s - length (trimStart s)))%nat (trimStart s) c.
Proof.
  induction s as [|x s IH]; intros i c.
  - cbn. rewrite Nat.add_0_r. reflexivity.
  - cbn [star trimStart]. destruct (is_space x) eqn:Hx.
    + pose proof (trimStart_length s).
      replace (length (x :: s) - length (trimStart s))%nat
        with (S (length s - length (trimStart s))) by (cbn [length]; lia).
      rewrite Nat.add_succ_r, IH. cbn [Nat.add].
      destruct (k (S (i + _)) (trimStart s) c) as [r|] eqn:Hr; [reflexivity|].
      apply k_fails_back; [exact Hx|]. apply fails_before_spaces. exact Hr.
    + rewrite Nat.sub_diag, Nat.add_0_r. reflexivity.
Qed.

End Greedy.

Lemma rmatch_after_open i s c :
  rmatch (Seq ws_star (Seq lazy_group (seq_of (map chr mark)))) i s c accept
  = after_mark mark i s.
Proof.
  change (rmatch (Seq ws_star (Seq lazy_group (seq_of (map chr mark)))) i s c accept)
    with (star true is_space i s c
            (fun i' s' c' =>
               rmatch (Seq lazy_group (seq_of (map chr mark))) i' s' c' accept)).
  rewrite star_greedy_space.
  - apply rmatch_lazy_group_mark.
  - intros j x u c' Hx. rewrite !rmatch_lazy_group_mark.
    cbn [find_first]. rewrite (starts_with_mark_space x u Hx).
    destruct (find_first mark u); [discriminate|reflexivity].
Qed.

Lemma after_open_None i s :
  after_mark mark i s = None -> find_first mark s = None.
Proof.
  unfold after_mark. intros Hn. apply find_first_trimStart.
  destruct (find_first mark (trimStart s)); [discriminate|reflexivity].
Qed.

Lemma after_open_skipn j s n :
  find_first mark s = None -> after_mark mark j (skipn n s) = None.
Proof.
  intros Hn. unfold after_mark.
  rewrite (trimStart_skipn (skipn n s)), skipn_skipn.
  rewrite (find_first_skipn mark s _ Hn). reflexivity.
Qed.

(** A pattern [opening\s*([\s\S]*?)mark]. *)
Variable opening : jstring.
Let re : regex :=
  Seq (seq_of (map chr opening))
      (Seq ws_star (Seq lazy_group (seq_of (map chr mark)))).

Lemma exec_at_fence i s :
  exec_at re i s =
  if starts_with opening s
  then after_mark mark (i + length opening) (skipn (length opening) s)
  else None.
Proof.
  unfold exec_at, re. cbn [rmatch]. rewrite rmatch_literal.
  destruct (starts_with opening s); [|reflexivity].
  apply rmatch_after_open.
Qed.

Lemma exec_from_fence s : forall i,
  exec_from re i s =
  match find_first opening s with
  | None => None
  | Some j =>
      match after_mark mark (i + j + length opening)
                       (skipn (j + length opening) s) with
      | Some (e, c) => Some ((i + j)%nat, e, c)
      | None => None
      end
  end.
Proof.
  induction s as [|x s IH]; intros i.
  - cbn [exec_from find_first]. rewrite exec_at_fence.
    destruct (starts_with opening []); [|reflexivity].
    rewrite !Nat.add_0_r. cbn [Nat.add].
    destruct (after_mark _ _ _) as [[e c]|]; reflexivity.
  - cbn [exec_from find_first]. rewrite exec_at_fence.
    destruct (starts_with opening (x :: s)).
    + rewrite !Nat.add_0_r. cbn [Nat.add].
      destruct (after_mark mark (i + length opening)
                  (skipn (length opening) (x :: s))) as [[e c]|] eqn:Ha;
        [reflexivity|].
      rewrite IH. destruct (find_first opening s) as [j|]; [|reflexivity].
      apply after_open_None in Ha.
      replace (skipn (j + length opening) s)
        with (skipn (S j) (skipn (length opening) (x :: s))).
      * rewrite (after_open_skipn _ _ (S j) Ha). reflexivity.
      * rewrite skipn_skipn.
        replace (S j + length opening)%nat with (S (j + length opening)) by lia.
        reflexivity.
    + rewrite IH. destruct (find_first opening s) as [j|]; [|reflexivity].
      cbn [option_map].
      replace (S i + j)%nat with (i + S j)%nat by lia.
      replace (S j + length opening)%nat with (S (j + length opening)) by lia.
      reflexivity.
Qed.

(** The group such a pattern captures is the first block. *)
Lemma match_fence s : match_ re s = first_block opening mark s.
Proof.
  unfold match_, first_block. rewrite exec_from_fence. cbn [Nat.add].
  destruct (find_first opening s) as [j|]; [|reflexivity].
  unfold after_mark. cbv zeta.
  set (u := skipn (j + length opening) s).
  destruct (find_first mark (trimStart u)) as [n|]; [|reflexivity].
  f_equal. unfold slice.
  replace (j + length opening + (length u - length (trimStart u)) + n
           - (j + length opening + (length u - length (trimStart u))))%nat
    with n by lia.
  replace (skipn (j + length opening + (length u - length (trimStart u))) s)
    with (trimStart u); [reflexivity|].
  rewrite (trimStart_skipn u) at 1.
  set (m := (length u - length (trimStart u))%nat).
  unfold u. rewrite skipn_skipn. f_equal. lia.
Qed.

End Fence.

(** [llmResponse.match(/```json\s*([\s\S]*?)```/)] captures the first fenced
    JSON block of the text. *)
Lemma match_re_json text :
  match_ Templates.re_json text = first_fenced_block text.
Proof. exact (match_fence 96%N [96; 96]%N eq_refl fence_open text). Qed.

End RegexFacts.

Section ParserProperties.
Import JS Templates TemplatesSpec.

Lemma completes_ret {A} (a : A) : completes (ret a).
Proof. intros s. exists s, a. reflexivity. Qed.

Lemma completes_bindM {A B} (m : M A) (f : A -> M B) :
  completes m -> (forall a, completes (f a)) -> completes (bindM m f).
Proof.
  intros Hm Hf s. destruct (Hm s) as (s1 & a & E1).
  destruct (Hf a s1) as (s2 & b & E2).
  exists s2, b. unfold bindM. rewrite E1. exact E2.
Qed.

Lemma completes_modify f : completes (modify f).
Proof. intros s. exists (f s), tt. reflexivity. Qed.

Lemma completes_get : completes get.
Proof. intros s. exists s, s. reflexivity. Qed.

Lemma completes_when_match m f : completes (when_match m f).
Proof. destruct m; [apply completes_modify|apply completes_ret]. Qed.

(** On a string, [match] does not throw. *)
Lemma completes_match text r : completes (lift (match_val (VStr text) r)).
Proof. intros s. exists s, (match_ r text). reflexivity. Qed.

Create HintDb completes.
#[local] Hint Resolve completes_ret completes_modify completes_get
  completes_when_match completes_match : completes.

Lemma parse_body_completes text : completes (parse_body (VStr text)).
Proof.
  unfold parse_body.
  repeat (apply completes_bindM; [auto with completes|intros ?]).
  destruct (follow_up_questions _); [|auto with completes].
  apply completes_bindM; [auto with completes|intros ?; auto with completes].
Qed.

(** On anything else, the first [match] throws, before any write. *)
Lemma parse_body_throws llmResponse :
  match llmResponse with
  | VStr _ => True
  | _ => exists e, parse_body llmResponse default_sections
                   = (default_sections, Throw e)
  end.
Proof. destruct llmResponse; try exact I; eexists; reflexivity. Qed.

(** C5. [parseStructuredResponse] returns a record for every argument:
    on a string the [try] block runs to its end without throwing; on the
    empty string every field of the record is at its default; whenever
    the [try] block throws, the record holds the argument, as it came,
    in the field understanding and the default in every other field,
    which is the case for every argument that is not a string. *)
Theorem parseStructuredResponse_never_throws :
  (forall text : jstring,
     exists s, parse_body (VStr text) default_sections = (s, Ok tt)
               /\ parseStructuredResponse (VStr text) = s)
  /\ parseStructuredResponse (VStr []) = default_sections
  /\ (forall llmResponse s e,
        parse_body llmResponse default_sections = (s, Throw e) ->
        parseStructuredResponse llmResponse
        = Sections llmResponse [] [] [] [] [] [] [] [] [] [])
  /\ (forall llmResponse,
        match llmResponse with
        | VStr _ => True
        | _ => parseStructuredResponse llmResponse
               = Sections llmResponse [] [] [] [] [] [] [] [] [] []
        end).
Proof.
  assert (Hthrow : forall llmResponse s e,
            parse_body llmResponse default_sections = (s, Throw e) ->
            parseStructuredResponse llmResponse
            = Sections llmResponse [] [] [] [] [] [] [] [] [] []).
  { intros llmResponse s e Hb.
    pose proof (parse_body_throws llmResponse) as Ht.
    destruct llmResponse as [| | | |text| |].
    1-4, 6-7: destruct Ht as [e' Ht]; unfold parseStructuredResponse;
      rewrite Ht; reflexivity.
    destruct (parse_body_completes text default_sections) as (s' & [] & E).
    rewrite E in Hb. discriminate. }
  repeat apply conj.
  - intros text.
    destruct (parse_body_completes text default_sections) as (s & [] & E).
    exists s. split; [exact E|]. unfold parseStructuredResponse. rewrite E.
    reflexivity.
  - vm_compute. reflexivity.
  - exact Hthrow.
  - intros llmResponse. pose proof (parse_body_throws llmResponse) as Ht.
    destruct llmResponse; try exact I; destruct Ht as [e Ht];
      exact (Hthrow _ _ _ Ht).
Qed.

(** A reply with all eleven headings fills every field. *)
Example parse_well_formed_reply :
  parseStructuredResponse (VStr well_formed_reply) =
  Sections (VStr (js "Find two numbers.")) (js "Try all pairs.")
    (js "Use a hash map.") (js "O(n)") (js "O(n)")
    [js "empty array"; js "no solution"] (js "class Solution {}")
    (js "nums = [2,7]") [js "What if sorted?"] [js "off by one"] [js "3Sum"].
Proof. vm_compute. reflexivity. Qed.

Lemma parseStructuredResponse_never_throws_witness :
  parse_body VUndefined default_sections
  = (default_sections, Throw (js "Cannot read properties of undefined"))
  /\ parseStructuredResponse VUndefined
     = Sections VUndefined [] [] [] [] [] [] [] [] [] [].
Proof.
  split; [reflexivity|].
  exact (proj1 (proj2 (proj2 parseStructuredResponse_never_throws))
               VUndefined default_sections
               (js "Cannot read properties of undefined") eq_refl).
Defined.


Section Evaluation.
Context `{JsonParser}.

Lemma parseEvaluationResponse_string text :
  parseEvaluationResponse (VStr text) =
  match JSON_parse (evaluation_source text) with
  | Ok v => v
  | Throw _ => default_evaluation (VStr text)
  end.
Proof.
  unfold parseEvaluationResponse, evaluation_try, evaluation_source.
  cbn [match_val bind]. rewrite match_re_json.
  destruct (first_fenced_block text); reflexivity.
Qed.

(** C6, as the code has it. [parseEvaluationResponse] reads the first
    fenced JSON block of the text (from the first "```json", past the
    white space, to the next "```"), or the whole text if there is no
    such block. If what it reads is JSON, it returns the parsed value
    unchanged; if not, and on an argument that is not a string, it
    returns the default record: score 0, sub-score 0 and feedback
    "Unable to evaluate" for each of the five criteria, and the argument
    attached as raw_response. It returns one or the other for every
    argument, and never throws. *)
Theorem parseEvaluation_reads_first_fence :
  (forall text block v,
     first_fenced_block text = Some block ->
     JSON_parse block = Ok v ->
     parseEvaluationResponse (VStr text) = v)
  /\ (forall text v,
        first_fenced_block text = None ->
        JSON_parse text = Ok v ->
        parseEvaluationResponse (VStr text) = v)
  /\ (forall text e,
        JSON_parse (evaluation_source text) = Throw e ->
        parseEvaluationResponse (VStr text) = default_evaluation (VStr text))
  /\ (forall llmResponse,
        match llmResponse with
        | VStr _ => True
        | _ => parseEvaluationResponse llmResponse
               = default_evaluation llmResponse
        end)
  /\ (forall llmResponse,
        parseEvaluationResponse llmResponse = default_evaluation llmResponse
        \/ exists source,
             JSON_parse source = Ok (parseEvaluationResponse llmResponse))
  /\ (forall llmResponse,
        let d := default_evaluation llmResponse in
        field "score" d = VNum 0%float
        /\ field "raw_response" d = llmResponse
        /\ Forall (fun c =>
                     field "score" (field c (field "breakdown" d)) = VNum 0%float
                     /\ field "feedback" (field c (field "breakdown" d))
                        = VStr (js "Unable to evaluate"))
                  criteria).
Proof.
  repeat apply conj.
  - intros text block v Hb Hv. rewrite parseEvaluationResponse_string.
    unfold evaluation_source. rewrite Hb, Hv. reflexivity.
  - intros text v Hb Hv. rewrite parseEvaluationResponse_string.
    unfold evaluation_source. rewrite Hb, Hv. reflexivity.
  - intros text e He. rewrite parseEvaluationResponse_string, He. reflexivity.
  - intros llmResponse. destruct llmResponse; try exact I; reflexivity.
  - intros llmResponse.
    destruct llmResponse as [| | | |text| |]; try (left; reflexivity).
    rewrite parseEvaluationResponse_string.
    destruct (JSON_parse (evaluation_source text)) as [v|e] eqn:E;
      [right; exists (evaluation_source text); exact E|left; reflexivity].
  - intros llmResponse d. split; [reflexivity|]. split; [reflexivity|].
    unfold criteria. repeat constructor.
Qed.

End Evaluation.
End ParserProperties.

Section ParserWitnesses.
Import JS Templates TemplatesSpec.

Lemma parseEvaluation_reads_first_fence_witness :
  first_fenced_block fenced_reply = Some (rubric_text ++ line_feed)
  /\ JSON_parse (JsonParser := rubric_parser) (rubric_text ++ line_feed)
     = Ok rubric_value
  /\ @parseEvaluationResponse rubric_parser (VStr fenced_reply) = rubric_value
  /\ @parseEvaluationResponse rubric_parser (VStr (js "I cannot evaluate this."))
     = default_evaluation (VStr (js "I cannot evaluate this.")).
Proof.
  assert (Hb : first_fenced_block fenced_reply = Some (rubric_text ++ line_feed))
    by (vm_compute; reflexivity).
  assert (Hv : JSON_parse (JsonParser := rubric_parser) (rubric_text ++ line_feed)
               = Ok rubric_value) by (vm_compute; reflexivity).
  split; [exact Hb|]. split; [exact Hv|]. split.
  - exact (proj1 (@parseEvaluation_reads_first_fence rubric_parser)
                 fenced_reply _ _ Hb Hv).
  - exact (proj1 (proj2 (proj2 (@parseEvaluation_reads_first_fence rubric_parser)))
                 (js "I cannot evaluate this.") (js "Unexpected token") eq_refl).
Defined.

(** C6, as the claim states it, fails: a text may contain a fenced JSON
    block that matches the rubric and still be answered with the default
    record, when an earlier fenced block does not parse. *)
Lemma parseEvaluation_later_fence_counterexample :
  (exists pre post,
     two_fence_reply = pre ++ fence_open ++ line_feed ++ rubric_text
                       ++ line_feed ++ fence_close ++ post)
  /\ JSON_parse (JsonParser := rubric_parser) rubric_text = Ok rubric_value
  /\ first_fenced_block two_fence_reply = Some []
  /\ @parseEvaluationResponse rubric_parser (VStr two_fence_reply)
     = default_evaluation (VStr two_fence_reply)
  /\ default_evaluation (VStr two_fence_reply) <> rubric_value.
Proof.
  split.
  { exists (js "Draft:" ++ line_feed ++ fence_open ++ line_feed ++ fence_close
            ++ line_feed ++ js "Final:" ++ line_feed), [].
    vm_compute. reflexivity. }
  split; [vm_compute; reflexivity|].
  split; [vm_compute; reflexivity|].
  split; [vm_compute; reflexivity|].
  unfold default_evaluation, rubric_value. intros E. discriminate E.
Qed.

End ParserWitnesses.

(* ===================================================================== *)
(** * Further properties of the interview sessions                        *)
(* ===================================================================== *)

Section InterviewLifecycle.
Import JS Interview InterviewSpec.

Implicit Types (sv : service) (s : session) (sid : jstring).

Lemma with_sessions_same sv : with_sessions (sessions sv) sv = sv.
Proof. destruct sv; reflexivity. Qed.

(** X1. [endSession] returns the session it found, removes it and leaves
    every other session as it was; the number of sessions drops by one
    if the session was there; a second [endSession] on the same
    identifier finds nothing and changes nothing. *)
Theorem endSession_removes_once sid sv :
  let ended := endSession sid sv in
  ended.1 = sessions sv !! sid
  /\ sessions ended.2 !! sid = None
  /\ (forall sid2, sid2 <> sid -> sessions ended.2 !! sid2 = sessions sv !! sid2)
  /\ getActiveSessionCount ended.2
     = getActiveSessionCount sv
       - match sessions sv !! sid with Some _ => 1 | None => 0 end
  /\ endSession sid ended.2 = (None, ended.2)
  /\ getSessionStatus sid ended.2 = None
  /\ getConversationHistory sid ended.2 = [].
Proof.
  intros ended. unfold ended, endSession. cbn [fst snd sessions with_sessions].
  split; [reflexivity|]. split; [apply lookup_delete_eq|].
  split; [intros sid2 Hne; apply lookup_delete_ne; auto|].
  split.
  { unfold getActiveSessionCount. cbn [sessions with_sessions].
    destruct (sessions sv !! sid) as [s|] eqn:E.
    - rewrite (map_size_delete_Some sid (sessions sv) (mk_is_Some _ _ E)).
      assert (size (sessions sv) <> 0%nat).
      { intros Hz. apply map_size_empty_inv in Hz. rewrite Hz in E.
        rewrite lookup_empty in E. discriminate. }
      lia.
    - rewrite (map_size_delete_None sid (sessions sv) E). lia. }
  split.
  { rewrite lookup_delete_eq. f_equal. unfold with_sessions.
    cbn [sessions sessionTimeout]. rewrite delete_delete_eq. reflexivity. }
  split.
  - unfold getSessionStatus. cbn [sessions with_sessions]. rewrite lookup_delete_eq. reflexivity.
  - unfold getConversationHistory. cbn [sessions with_sessions]. rewrite lookup_delete_eq.
    reflexivity.
Qed.

(** X2. [createSession] under an identifier not yet in the map adds one
    session and leaves every other one untouched; under an identifier
    already in the map it replaces that session by a new one, counter 0
    and empty transcript, and the number of sessions stays. *)
Theorem createSession_adds_one sid now (text : jstring) sv :
  let created := createSession sid now text sv in
  sessions created.2 !! sid = Some created.1
  /\ (forall sid2, sid2 <> sid -> sessions created.2 !! sid2 = sessions sv !! sid2)
  /\ getActiveSessionCount created.2
     = getActiveSessionCount sv
       + match sessions sv !! sid with Some _ => 0 | None => 1 end
  /\ getSessionStatus sid created.2
     = Some (Status sid UNDERSTANDING 0 3 3 now now 0)
  /\ getConversationHistory sid created.2 = [].
Proof.
  intros created. unfold created, createSession.
  cbn [fst snd sessions with_sessions].
  split; [apply lookup_insert_eq|].
  split; [intros sid2 Hne; apply lookup_insert_ne; auto|].
  split.
  { unfold getActiveSessionCount. cbn [sessions with_sessions].
    destruct (sessions sv !! sid) as [s|] eqn:E.
    - rewrite (map_size_insert_Some sid _ (sessions sv) (mk_is_Some _ _ E)). lia.
    - rewrite (map_size_insert_None sid _ (sessions sv) E). lia. }
  split.
  - unfold getSessionStatus. cbn [sessions with_sessions]. rewrite lookup_insert_eq. reflexivity.
  - unfold getConversationHistory. cbn [sessions with_sessions]. rewrite lookup_insert_eq.
    reflexivity.
Qed.


Lemma jstring_eqb_false (a b : jstring) : jstring_eqb a b = false <-> a <> b.
Proof.
  split.
  - intros E Heq. apply jstring_eqb_eq in Heq. congruence.
  - intros Hne. destruct (jstring_eqb a b) eqn:E; [|reflexivity].
    apply jstring_eqb_eq in E. contradiction.
Qed.

(** An operation that keeps the sessions acts on [sid] as [apply_op]. *)
Lemma run_op_apply sid o sv s :
  keeps_sessions o = true ->
  sessions sv !! sid = Some s ->
  sessions (run_op o sv) !! sid = Some (apply_op sid o s).
Proof.
  intros K E.
  destruct o as [i now p|now i|now i u|now i r|now i|i|i|now];
    try discriminate K; cbn [run_op apply_op]; [| | | |exact E];
    unfold getSession, updateSession, addResponse, revealSolution;
    (destruct (jstring_eqb i sid) eqn:Ei;
     [apply jstring_eqb_eq in Ei; subst i; rewrite E;
      cbn [snd sessions with_sessions]; apply lookup_insert_eq
     |apply jstring_eqb_false in Ei;
      destruct (sessions sv !! i); cbn [snd sessions with_sessions];
      [rewrite lookup_insert_ne by auto|]; exact E]).
Qed.

Lemma run_ops_apply sid os : forall sv s,
  forallb keeps_sessions os = true ->
  sessions sv !! sid = Some s ->
  sessions (run_ops os sv) !! sid
  = Some (fold_left (fun s o => apply_op sid o s) os s).
Proof.
  unfold run_ops. induction os as [|o os IH]; intros sv s K E; [exact E|].
  cbn [forallb] in K. apply andb_true_iff in K as [Ko Kos].
  cbn [fold_left]. apply IH; [exact Kos|]. apply run_op_apply; assumption.
Qed.

Lemma advances_cons sid o os :
  advances sid (o :: os) = advances sid [o] + advances sid os.
Proof.
  unfold advances. cbn [List.filter].
  destruct (match o with OpUpdate _ i _ => jstring_eqb i sid | _ => false end);
    cbn [length]; lia.
Qed.

Lemma turns_of_cons sid o os :
  turns_of sid (o :: os) = turns_of sid [o] ++ turns_of sid os.
Proof. unfold turns_of. cbn [flat_map]. rewrite app_nil_r. reflexivity. Qed.

(** The counter, the cap and the transcript after one operation. *)
Lemma apply_op_counts sid o s :
  interactions (apply_op sid o s) = interactions s + advances sid [o]
  /\ maxInteractions (apply_op sid o s) = maxInteractions s
  /\ history (apply_op sid o s) = history s ++ turns_of sid [o].
Proof.
  unfold advances, turns_of.
  destruct o as [i now p|now i|now i u|now i r|now i|i|i|now];
    cbn [apply_op List.filter flat_map length app];
    try (rewrite app_nil_r; repeat split; lia);
    destruct (jstring_eqb i sid); cbn [length app];
    try (rewrite ?app_nil_r; repeat split; cbn; lia).
  - rewrite interactions_advance, maxInteractions_advance.
    split; [cbn; lia|]. split; [reflexivity|].
    unfold advance. destruct u; cbn; rewrite ?app_nil_r; reflexivity.
  - destruct u; rewrite app_nil_r; repeat split; lia.
Qed.

Lemma fold_apply_op_counts sid os : forall s,
  let s' := fold_left (fun s o => apply_op sid o s) os s in
  interactions s' = interactions s + advances sid os
  /\ maxInteractions s' = maxInteractions s
  /\ history s' = history s ++ turns_of sid os.
Proof.
  induction os as [|o os IH]; intros s; cbv zeta.
  - change (advances sid []) with 0. change (turns_of sid []) with (@nil turn).
    cbn [fold_left]. rewrite app_nil_r. split; [lia|split; reflexivity].
  - cbn [fold_left]. destruct (IH (apply_op sid o s)) as (I & M & H).
    destruct (apply_op_counts sid o s) as (I1 & M1 & H1).
    rewrite advances_cons, turns_of_cons, I, M, H, I1, M1, H1, app_assoc.
    split; [lia|split; reflexivity].
Qed.

(** X3. Under the operations advance, reveal, record a turn and read, in
    any number and order and on any identifiers, the counter of a session
    grows by exactly the number of advances on its identifier and its cap
    stays; the status reports that counter, the remaining interactions
    max(0, cap - counter), never negative, and the length of the
    transcript. *)
Theorem status_counts_advances sid os sv s :
  sessions sv !! sid = Some s ->
  forallb keeps_sessions os = true ->
  exists st,
    getSessionStatus sid (run_ops os sv) = Some st
    /\ st_interactions st = interactions s + advances sid os
    /\ st_maxInteractions st = maxInteractions s
    /\ st_interactionsRemaining st
       = Z.max 0 (maxInteractions s - (interactions s + advances sid os))
    /\ 0 <= st_interactionsRemaining st
    /\ st_historyLength st
       = Z.of_nat (length (history s) + length (turns_of sid os)).
Proof.
  intros E K. unfold getSessionStatus.
  rewrite (run_ops_apply sid os sv s K E).
  destruct (fold_apply_op_counts sid os s) as (I & M & H).
  eexists. split; [reflexivity|]. cbn [st_interactions st_maxInteractions
    st_interactionsRemaining st_historyLength].
  rewrite I, M, H, length_app. repeat split; lia.
Qed.

Lemma status_counts_advances_witness :
  let sid := js "s-1" in
  let created := createSession sid 0 (js "interview mode: two sum") new_service in
  let os := [OpUpdate 10 sid (js "is the array sorted?"); OpGet 20 sid;
             OpAddResponse 30 sid (js "it is not");
             OpUpdate 40 (js "s-2") (js "hello"); OpUpdate 50 sid []] in
  sessions created.2 !! sid = Some created.1
  /\ advances sid os = 2
  /\ exists st, getSessionStatus sid (run_ops os created.2) = Some st
       /\ st_interactions st = 2 /\ st_interactionsRemaining st = 1
       /\ st_historyLength st = 2.
Proof.
  intros sid created os.
  assert (E : sessions created.2 !! sid = Some created.1)
    by (apply lookup_insert_eq).
  split; [exact E|]. split; [reflexivity|].
  destruct (status_counts_advances sid os created.2 created.1 E eq_refl)
    as (st & Hst & Hi & _ & Hr & _ & Hh).
  exists st. split; [exact Hst|]. split; [exact Hi|]. split; [exact Hr|exact Hh].
Defined.

(** X4. The conversation history of a session is the record of its
    turns, in call order: each advance with a non-empty text appends one
    user turn with that text, each recorded response appends one
    assistant turn, and no other operation (a read, a reveal, an advance
    with an empty text, any operation on another identifier) changes
    it. *)
Theorem history_records_turns sid os sv s :
  sessions sv !! sid = Some s ->
  forallb keeps_sessions os = true ->
  getConversationHistory sid (run_ops os sv)
  = getConversationHistory sid sv
    ++ map (fun h => (turn_role h, content h)) (turns_of sid os).
Proof.
  intros E K. unfold getConversationHistory.
  rewrite (run_ops_apply sid os sv s K E), E.
  destruct (fold_apply_op_counts sid os s) as (_ & _ & H).
  rewrite H, map_app. reflexivity.
Qed.

Lemma history_records_turns_witness :
  let sid := js "s-1" in
  let created := createSession sid 0 (js "interview mode: two sum") new_service in
  let os := [OpUpdate 10 sid (js "is the array sorted?"); OpGet 20 sid;
             OpAddResponse 30 sid (js "it is not");
             OpUpdate 40 (js "s-2") (js "hello"); OpUpdate 50 sid []] in
  sessions created.2 !! sid = Some created.1
  /\ getConversationHistory sid (run_ops os created.2)
     = [(User, js "is the array sorted?"); (Assistant, js "it is not")].
Proof.
  intros sid created os.
  assert (E : sessions created.2 !! sid = Some created.1)
    by (apply lookup_insert_eq).
  split; [exact E|].
  rewrite (history_records_turns sid os created.2 created.1 E eq_refl).
  unfold getConversationHistory. rewrite E. reflexivity.
Defined.

End InterviewLifecycle.
(* ===================================================================== *)
(** * The interview service: phases and expiry                            *)
(* ===================================================================== *)

Section InterviewPhases.
Import JS Interview InterviewSpec TextSpec.

Implicit Types (sv : service) (s : session) (sid : jstring).

Lemma apply_op_REVEAL sid o s :
  phase s = REVEAL -> phase (apply_op sid o s) = REVEAL.
Proof.
  intros E.
  destruct o as [i now p|now i|now i u|now i r|now i|i|i|now];
    cbn [apply_op]; try exact E; destruct (jstring_eqb i sid); try exact E;
    try reflexivity.
  rewrite phase_advance. apply next_phase_REVEAL. exact E.
Qed.

Lemma fold_apply_op_REVEAL sid os : forall s,
  phase s = REVEAL \/ reveals sid os = true ->
  phase (fold_left (fun s o => apply_op sid o s) os s) = REVEAL.
Proof.
  induction os as [|o os IH]; intros s [E|R]; cbn [fold_left];
    [exact E|discriminate R| |].
  - apply IH. left. apply apply_op_REVEAL. exact E.
  - cbn [reveals existsb] in R. apply orb_true_iff in R as [Ro|Ros].
    + apply IH. left. destruct o; try discriminate Ro.
      cbn [apply_op]. rewrite Ro. reflexivity.
    + apply IH. right. exact Ros.
Qed.

Lemma advance_on_schedule now u s : on_schedule s -> on_schedule (advance now u s).
Proof.
  intros (M & I & P). unfold on_schedule.
  rewrite maxInteractions_advance, interactions_advance, phase_advance.
  split; [exact M|]. split; [lia|].
  destruct (Z.eq_dec (interactions s) 0) as [E0|N0];
    [|destruct (Z.eq_dec (interactions s) 1) as [E1|N1]].
  - rewrite E0 in *.
    rewrite (next_phase_ext _ (Session [] [] UNDERSTANDING 1 3 0 0 []));
      [reflexivity|cbn; lia|exact M|exact P].
  - rewrite E1 in *.
    rewrite (next_phase_ext _ (Session [] [] APPROACH 2 3 0 0 []));
      [reflexivity|cbn; lia|exact M|exact P].
  - replace (Z.min 3 (interactions s + 1)) with 3 by lia.
    unfold next_phase. cbn [interactions maxInteractions set_interactions].
    rewrite M. destruct (Z.geb_spec (interactions s + 1) 3); [reflexivity|lia].
Qed.

Lemma fold_apply_op_on_schedule sid os : forall s,
  reveals sid os = false -> on_schedule s ->
  on_schedule (fold_left (fun s o => apply_op sid o s) os s).
Proof.
  induction os as [|o os IH]; intros s R S; cbn [fold_left]; [exact S|].
  cbn [reveals existsb] in R. apply orb_false_iff in R as [Ro Ros].
  apply IH; [exact Ros|].
  destruct o as [i now p|now i|now i u|now i r|now i|i|i|now];
    cbn [apply_op]; try exact S; destruct (jstring_eqb i sid); try exact S;
    try discriminate Ro.
  apply advance_on_schedule. exact S.
Qed.

(** X5. A session that starts as [createSession] makes it (phase
    understanding, counter 0, cap 3) is, after any sequence of advances,
    reads and recorded turns, at the phase its number of advances
    selects: understanding for none, approach for one, optimization for
    two, reveal from three on; as soon as the sequence holds a reveal of
    the session, it is in reveal. *)
Theorem phase_follows_advances sid os sv s :
  sessions sv !! sid = Some s ->
  interactions s = 0 -> maxInteractions s = 3 -> phase s = UNDERSTANDING ->
  forallb keeps_sessions os = true ->
  exists s',
    sessions (run_ops os sv) !! sid = Some s'
    /\ phase s' =
       if reveals sid os then REVEAL
       else nth (Z.to_nat (Z.min 3 (advances sid os))) phases REVEAL.
Proof.
  intros E I M P K. eexists. split; [apply (run_ops_apply sid os sv s K E)|].
  destruct (reveals sid os) eqn:R.
  - apply fold_apply_op_REVEAL. right. exact R.
  - destruct (fold_apply_op_on_schedule sid os s R) as (_ & _ & Ph).
    { unfold on_schedule. rewrite I, M, P. repeat split; lia. }
    rewrite Ph. destruct (fold_apply_op_counts sid os s) as (Hi & _ & _).
    rewrite Hi, I. reflexivity.
Qed.

Lemma phase_follows_advances_witness :
  let sid := js "s-1" in
  let created := createSession sid 0 (js "interview mode: two sum") new_service in
  let os := [OpUpdate 10 sid (js "is the array sorted?"); OpGet 20 sid;
             OpAddResponse 30 sid (js "it is not"); OpUpdate 50 sid []] in
  sessions created.2 !! sid = Some created.1
  /\ exists s', sessions (run_ops os created.2) !! sid = Some s'
       /\ phase s' = OPTIMIZATION.
Proof.
  intros sid created os.
  assert (E : sessions created.2 !! sid = Some created.1)
    by (apply lookup_insert_eq).
  split; [exact E|].
  destruct (phase_follows_advances sid os created.2 created.1 E
              eq_refl eq_refl eq_refl eq_refl) as (s' & Hs & Hp).
  exists s'. split; [exact Hs|]. rewrite Hp. reflexivity.
Defined.

(** X6. The expiry sweep keeps exactly the sessions within the timeout:
    afterwards every session of the map is within it; a second sweep at
    the same time changes nothing; a sweep followed by a later sweep is
    the later sweep alone; the number of sessions does not grow; and a
    session read by [getSession] at time [t] survives every sweep up to
    [t] plus the timeout. *)
Theorem cleanup_keeps_recent (now : Z) sv :
  let swept := cleanupExpiredSessions now sv in
  (forall sid s, sessions swept !! sid = Some s ->
     sessions sv !! sid = Some s /\ now - lastActivity s <= sessionTimeout sv)
  /\ cleanupExpiredSessions now swept = swept
  /\ (forall later, now <= later ->
        cleanupExpiredSessions later swept = cleanupExpiredSessions later sv)
  /\ getActiveSessionCount swept <= getActiveSessionCount sv
  /\ (forall sid s t,
        sessions sv !! sid = Some s ->
        now - t <= sessionTimeout sv ->
        sessions (cleanupExpiredSessions now (getSession t sid sv).2) !! sid
        = Some (set_lastActivity t s)).
Proof.
  intros swept.
  assert (Hlook : forall t sv0 sid s,
            sessions (cleanupExpiredSessions t sv0) !! sid = Some s
            <-> sessions sv0 !! sid = Some s
                /\ t - lastActivity s <= sessionTimeout sv0).
  { intros t sv0 sid s. unfold cleanupExpiredSessions.
    cbn [sessions with_sessions]. rewrite map_lookup_filter_Some.
    cbn [snd]. unfold expired. split; intros [? ?]; split; auto; lia. }
  assert (Heq : forall sv1 sv2,
            sessionTimeout sv1 = sessionTimeout sv2 ->
            (forall sid s, sessions sv1 !! sid = Some s
                           <-> sessions sv2 !! sid = Some s) ->
            sv1 = sv2).
  { intros [m1 t1] [m2 t2]; cbn. intros -> Hm. f_equal.
    apply map_eq. intros sid. apply option_eq. intros s. apply Hm. }
  repeat apply conj.
  - intros sid s. apply Hlook.
  - apply Heq; [reflexivity|]. intros sid s. rewrite Hlook. unfold swept.
    rewrite Hlook. cbn [sessionTimeout cleanupExpiredSessions with_sessions].
    tauto.
  - intros later Hle. apply Heq; [reflexivity|]. intros sid s.
    rewrite !Hlook. unfold swept. rewrite Hlook.
    cbn [sessionTimeout cleanupExpiredSessions with_sessions].
    split; [tauto|]. intros [? ?]. repeat split; auto; lia.
  - unfold getActiveSessionCount, swept, cleanupExpiredSessions.
    cbn [sessions with_sessions]. apply inj_le. apply map_subseteq_size.
    apply map_filter_subseteq.
  - intros sid s t E Ht. apply Hlook. unfold getSession. rewrite E.
    cbn [snd sessions with_sessions sessionTimeout].
    split; [apply lookup_insert_eq|]. cbn [lastActivity set_lastActivity]. lia.
Qed.

Lemma cleanup_keeps_recent_witness :
  let sid := js "s-1" in
  let created := createSession sid 0 (js "interview mode: two sum") new_service in
  sessions created.2 !! sid = Some created.1
  /\ 2000000 - 1000000 <= sessionTimeout created.2
  /\ sessions (cleanupExpiredSessions 2000000 created.2) !! sid = None
  /\ sessions (cleanupExpiredSessions 2000000
                 (getSession 1000000 sid created.2).2) !! sid
     = Some (set_lastActivity 1000000 created.1).
Proof.
  intros sid created.
  assert (E : sessions created.2 !! sid = Some created.1)
    by (apply lookup_insert_eq).
  assert (Ht : 2000000 - 1000000 <= sessionTimeout created.2)
    by (vm_compute; discriminate).
  split; [exact E|]. split; [exact Ht|]. split.
  - apply map_lookup_filter_None. right. intros s Es. rewrite E in Es.
    injection Es as <-. vm_compute. intros L. apply L. reflexivity.
  - exact (proj2 (proj2 (proj2 (proj2
             (cleanup_keeps_recent 2000000 created.2))))
             sid created.1 1000000 E Ht).
Defined.


Lemma trimStart_head (t : jstring) :
  trimStart t = [] \/ exists c u, trimStart t = c :: u /\ is_space c = false.
Proof.
  induction t as [|x t IH]; [left; reflexivity|]. cbn [trimStart].
  destruct (is_space x) eqn:X; [exact IH|]. right. exists x, t. auto.
Qed.

Lemma trimStart_keeps_last (l : jstring) c :
  is_space c = false -> exists u, trimStart (l ++ [c]) = u ++ [c].
Proof.
  intros C. induction l as [|x l IH]; cbn [app trimStart].
  - rewrite C. exists []. reflexivity.
  - destruct (is_space x); [exact IH|]. exists (x :: l). reflexivity.
Qed.

Lemma trim_trimmed (t : jstring) : trimmed (trim t).
Proof.
  unfold trim, trimEnd.
  destruct (trimStart_head t) as [E|(c & u & E & C)]; rewrite E; [exact I|].
  cbn [rev]. destruct (trimStart_keeps_last (rev u) c C) as (w & W).
  destruct (trimStart_head (rev u ++ [c])) as [F|(d & v & F & D)].
  - rewrite F in W. destruct w; discriminate W.
  - rewrite W, rev_app_distr. cbn [rev app trimmed]. split; [exact C|].
    rewrite W in F.
    change (c :: rev w) with (rev [c] ++ rev w).
    rewrite <- rev_app_distr, F. cbn [rev]. rewrite last_last. exact D.
Qed.

Lemma trim_length (t : jstring) : (length (trim t) <= length t)%nat.
Proof.
  unfold trim, trimEnd. rewrite length_rev.
  pose proof (trimStart_length (rev (trimStart t))) as L.
  rewrite length_rev in L. pose proof (trimStart_length t). lia.
Qed.

Lemma replace_go_empty_length r (t : jstring) : forall skip i,
  (length (replace_go r [] skip i t) <= length t)%nat.
Proof.
  induction t as [|x t IH]; intros skip i.
  - destruct skip; cbn [replace_go]; [|cbn; lia].
    destruct (exec_at r i []) as [[e c]|]; cbn; lia.
  - destruct skip; cbn [replace_go].
    + destruct (exec_at r i (x :: t)) as [[e c]|]; cbn [app].
      * destruct (e =? i)%nat; cbn [length].
        -- specialize (IH 0%nat (S i)). lia.
        -- specialize (IH (e - i - 1)%nat (S i)). lia.
      * cbn [length]. specialize (IH 0%nat (S i)). lia.
    + cbn [length]. specialize (IH skip (S i)). lia.
Qed.

Lemma replace_go_no_match r repl (t : jstring) : forall i,
  exec_from r i t = None -> replace_go r repl 0 i t = t.
Proof.
  induction t as [|x t IH]; intros i E; cbn [exec_from replace_go] in *.
  - destruct (exec_at r i []) as [[e c]|]; [discriminate E|reflexivity].
  - destruct (exec_at r i (x :: t)) as [[e c]|]; [discriminate E|].
    rewrite (IH _ E). reflexivity.
Qed.

(** X7. The problem text a new session stores has no white space at
    either end and is no longer than the text given; a text in which the
    pattern [/interview\s*mode/i] does not occur is stored as its trimmed
    self. *)
Theorem createSession_stores_clean_text sid now (text : jstring) sv :
  let stored := problem (createSession sid now text sv).1 in
  trimmed stored
  /\ (length stored <= length text)%nat
  /\ (test re_interview_mode text = false -> stored = trim text).
Proof.
  intros stored. unfold stored, createSession. cbn [fst problem].
  split; [apply trim_trimmed|]. split.
  - pose proof (trim_length (replace_all re_interview_mode [] text)).
    pose proof (replace_go_empty_length re_interview_mode text 0 0).
    unfold replace_all in *. lia.
  - unfold test, replace_all.
    destruct (exec_from re_interview_mode 0 text) eqn:E; [discriminate|].
    intros _. rewrite (replace_go_no_match _ _ _ _ E). reflexivity.
Qed.

End InterviewPhases.
(* ===================================================================== *)
(** * Further properties of the vector store                              *)
(* ===================================================================== *)

Section FaissStore.
Import JS Faiss FaissSpec.
Context `{Embedder} `{VectorIndex} `{SnapshotFile}.

Implicit Types (sv : service) (docs : list (option document)).

Lemma fold_zero_squares n :
  fold_left (fun sum val => (sum + val * val)%float) (repeat 0%float n) 0%float
  = 0%float.
Proof. induction n as [|n IH]; [reflexivity|exact IH]. Qed.

(** X8. [normalizeVector] keeps the number of components, and returns a
    vector of zeros (of any length, the empty one included) as it is:
    it never divides by a zero norm. *)
Theorem normalizeVector_keeps_dimension (v : vector) (n : nat) :
  length (normalizeVector v) = length v
  /\ normalizeVector (repeat 0%float n) = repeat 0%float n.
Proof.
  split.
  - unfold normalizeVector. destruct (PrimFloat.eqb _ _); [reflexivity|].
    apply length_map.
  - unfold normalizeVector. rewrite fold_zero_squares. reflexivity.
Qed.

Lemma join_nonempty (sep p : jstring) ps :
  p <> [] -> join sep (p :: ps) <> [].
Proof.
  intros P. cbn [join]. destruct ps; [exact P|].
  destruct p; [contradiction|discriminate].
Qed.

Lemma text_part_nil label (value : option jstring) :
  text_part label value = [] <-> falsy value.
Proof.
  unfold falsy. destruct value as [[|c v]|]; cbn [text_part]; split;
    intros E; auto; try discriminate E; destruct E as [E|E]; discriminate E.
Qed.

Lemma text_part_nonempty label value p :
  In p (text_part label value) -> label <> EmptyString -> p <> [].
Proof.
  destruct value as [[|c v]|]; cbn [text_part In]; try tauto.
  intros [<-|[]] L. destruct label; [contradiction|]. discriminate.
Qed.

(** X9. The text sent to the embedding provider for a document is empty
    exactly when the document has no title, problem, approach, tag,
    difficulty and complexity; every line it is joined from starts with
    the label of a field that is present. *)
Theorem documentToText_empty_iff (doc : document) :
  documentToText doc = [] <->
  title doc = [] /\ falsy (problem doc) /\ falsy (approach doc)
  /\ (tags doc = None \/ tags doc = Some [])
  /\ difficulty doc = [] /\ falsy (complexity doc).
Proof.
  unfold documentToText.
  assert (Hparts : forall p, In p (text_parts doc) -> p <> []).
  { intros p. unfold text_parts. rewrite !in_app_iff.
    intros [P|[P|[P|[P|[P|P]]]]];
      try (apply (text_part_nonempty _ _ _ P); discriminate).
    destruct (tags doc) as [[|t ts]|]; cbn [tags_part In] in P; try tauto.
    destruct P as [<-|[]]. discriminate. }
  assert (Hjoin : join [10%N] (text_parts doc) = [] <-> text_parts doc = []).
  { destruct (text_parts doc) as [|p ps]; [tauto|]. split; [|discriminate].
    intros E. exfalso. apply (join_nonempty [10%N] p ps); [|exact E].
    apply Hparts. left. reflexivity. }
  rewrite Hjoin. unfold text_parts.
  rewrite !app_nil, !text_part_nil.
  assert (T : forall s : jstring, falsy (Some s) <-> s = []).
  { intros s. unfold falsy. split; [intros [E|E]; congruence|intros ->; auto]. }
  rewrite !T.
  assert (G : tags_part (tags doc) = [] <-> tags doc = None \/ tags doc = Some []).
  { destruct (tags doc) as [[|t ts]|]; cbn [tags_part]; split; intros E; auto;
      try discriminate E; destruct E as [E|E]; discriminate E. }
  rewrite G. tauto.
Qed.

Lemma dimension_ensure sv : dimension (ensure_initialized sv) = dimension sv.
Proof.
  unfold ensure_initialized, initialize, loadIndex.
  destruct (isInitialized sv); [reflexivity|].
  destruct readSnapshot as [[ds embeddings]|e]; [|reflexivity].
  destruct embeddings as [|e es]; [reflexivity|].
  destruct (add_all _ _) as [ix []]; reflexivity.
Qed.



(** The service [initialize] leaves behind, from what [loadIndex] read. *)
Lemma initialize_cases sv :
  (initialize sv).1 = true
  /\ isInitialized (initialize sv).2 = true
  /\ dimension (initialize sv).2 = dimension sv
  /\ topK (initialize sv).2 = topK sv
  /\ similarityThreshold (initialize sv).2 = similarityThreshold sv
  /\ ((exists ds embs ix,
         readSnapshot = Ok (ds, embs) /\ embs <> []
         /\ add_all (index_new (dimension sv)) embs = (ix, true)
         /\ documents (initialize sv).2 = ds
         /\ the_index (initialize sv).2 = Some ix)
      \/ (documents (initialize sv).2 = []
          /\ the_index (initialize sv).2 = Some (index_new (dimension sv))
          /\ match readSnapshot with
             | Ok (_, e :: es) =>
                 (add_all (index_new (dimension sv)) (e :: es)).2 = false
             | _ => True
             end)).
Proof.
  unfold initialize, loadIndex.
  destruct readSnapshot as [[ds embs]|e]; [|cbn; repeat split; auto].
  destruct embs as [|e es]; [cbn; repeat split; auto|].
  destruct (add_all (index_new (dimension sv)) (e :: es)) as [ix []] eqn:A;
    cbn [fst snd isInitialized dimension topK similarityThreshold documents
         the_index].
  - repeat split; auto. left. exists ds, (e :: es), ix.
    repeat split; auto.
  - repeat split; auto.
Qed.

(** X11. [initialize] is all or nothing. It always leaves the service
    initialized, with an index and the configured dimension, neighbour
    count and threshold; and either the snapshot was read, has
    embeddings, every one of them was added to a new index, and the
    store holds the documents of the snapshot with that index, or the
    store is empty with a new, empty index (also when adding one of the
    embeddings failed half way). *)
Theorem initialize_is_all_or_nothing sv :
  let ready := (initialize sv).2 in
  isInitialized ready = true
  /\ ensure_initialized ready = ready
  /\ dimension ready = dimension sv
  /\ topK ready = topK sv
  /\ similarityThreshold ready = similarityThreshold sv
  /\ ((exists ds embs ix,
         readSnapshot = Ok (ds, embs) /\ embs <> []
         /\ add_all (index_new (dimension sv)) embs = (ix, true)
         /\ documents ready = ds /\ the_index ready = Some ix)
      \/ (documents ready = []
          /\ the_index ready = Some (index_new (dimension sv))
          /\ match readSnapshot with
             | Ok (_, e :: es) =>
                 (add_all (index_new (dimension sv)) (e :: es)).2 = false
             | _ => True
             end)).
Proof.
  intros ready. unfold ready.
  destruct (initialize_cases sv) as (_ & I & D & K & T & C).
  split; [exact I|]. split; [unfold ensure_initialized; rewrite I; reflexivity|].
  auto.
Qed.

Lemma StronglySorted_filter {A} (R : A -> A -> Prop) (p : A -> bool) l :
  StronglySorted R l -> StronglySorted R (List.filter p l).
Proof.
  induction 1 as [|a l S IH F]; cbn [List.filter]; [constructor|].
  destruct (p a); [|exact IH]. constructor; [exact IH|].
  rewrite List.Forall_forall in *. intros x X. apply filter_In in X as [X _].
  apply F. exact X.
Qed.

Lemma format_results_ranks docs found : forall i,
  StronglySorted by_rank (format_results docs found i)
  /\ Forall (fun r => i < rank r <= i + Z.of_nat (length found))
            (format_results docs found i).
Proof.
  induction found as [|[idx sc] rest IH]; intros i; cbn [format_results].
  - split; constructor.
  - destruct (IH (i + 1)) as [S F].
    assert (F' : Forall (fun r => i < rank r <= i + Z.of_nat (length ((idx, sc) :: rest)))
                        (format_results docs rest (i + 1))).
    { eapply List.Forall_impl; [|exact F]. cbn [length]. intros r. cbn beta. lia. }
    destruct ((idx >=? 0) && (idx <? Z.of_nat (length docs))); [|auto].
    split.
    + constructor; [exact S|]. eapply List.Forall_impl; [|exact F].
      intros r. unfold by_rank. cbn [rank]. lia.
    + constructor; [|exact F']. cbn [rank length]. lia.
Qed.

(** The rank of a formatted result is the 1-based position of its label
    in the answer of the index, counted from the loop index [i]. *)
Lemma format_results_position docs found : forall i r,
  0 <= i ->
  In r (format_results docs found i) ->
  exists idx,
    found !! Z.to_nat (rank r - 1 - i) = Some (idx, score r)
    /\ i < rank r <= i + Z.of_nat (length found)
    /\ docs !! Z.to_nat idx = Some (document_of r).
Proof.
  induction found as [|[idx sc] rest IH]; intros i r Hi; cbn [format_results];
    [intros []|].
  assert (Hrest : In r (format_results docs rest (i + 1)) ->
            exists idx0,
              ((idx, sc) :: rest) !! Z.to_nat (rank r - 1 - i)
              = Some (idx0, score r)
              /\ i < rank r <= i + Z.of_nat (length ((idx, sc) :: rest))
              /\ docs !! Z.to_nat idx0 = Some (document_of r)).
  { intros Hr. destruct (IH (i + 1) r ltac:(lia) Hr) as (idx0 & Hl & Hb & Hd).
    exists idx0. split; [|split; [cbn [length]; lia|exact Hd]].
    replace (Z.to_nat (rank r - 1 - i))
      with (S (Z.to_nat (rank r - 1 - (i + 1)))) by lia.
    exact Hl. }
  destruct (Z.geb_spec idx 0) as [Hge|]; cbn [andb]; [|exact Hrest].
  destruct (Z.ltb_spec idx (Z.of_nat (length docs))) as [Hlt|]; [|exact Hrest].
  intros [<-|Hr]; [|exact (Hrest Hr)].
  exists idx. cbn [rank score document_of length].
  replace (i + 1 - 1 - i) with 0 by lia. split; [reflexivity|].
  split; [lia|].
  assert (Hn : (Z.to_nat idx < length docs)%nat) by lia.
  destruct (lookup_lt_is_Some_2 docs _ Hn) as [d Hd].
  rewrite Hd. f_equal. symmetry.
  apply nth_lookup_Some with (d := None) in Hd. exact Hd.
Qed.

(** X12. The rank of a result of a search is the 1-based position of its
    label in the answer of the index: the result with rank [j] carries
    the score of the [j]-th pair of that answer and the document its
    label names. Dropping labels outside the documents array and scores
    under the threshold leaves gaps in the ranks but never renumbers or
    reorders: the ranks of the results are strictly increasing. *)
Theorem search_rank_is_position sv (query : jstring) (k : option Z) :
  let ready := ensure_initialized sv in
  let rs := results (search sv query k) in
  StronglySorted by_rank rs
  /\ forall r, In r rs ->
       exists v ix found idx,
         embed query = Ok v
         /\ the_index ready = Some ix
         /\ index_search ix (normalizeVector v) (clamp_k ready k) = Ok found
         /\ found !! Z.to_nat (rank r - 1) = Some (idx, score r)
         /\ 1 <= rank r <= Z.of_nat (length found)
         /\ documents ready !! Z.to_nat idx = Some (document_of r).
Proof.
  intros ready rs. unfold rs. rewrite results_search. cbv zeta. fold ready.
  unfold search_candidates.
  destruct (documents ready) as [|o l] eqn:Hd; [split; [constructor|intros r []]|].
  destruct (embed query) as [v|]; [|split; [constructor|intros r []]].
  cbn [bind].
  destruct (the_index ready) as [ix|]; [|split; [constructor|intros r []]].
  cbn [bind].
  destruct (index_search ix (normalizeVector v) (clamp_k ready k))
    as [found|] eqn:Hs; [|split; [constructor|intros r []]].
  cbn [bind]. split.
  - apply StronglySorted_filter.
    exact (proj1 (format_results_ranks (o :: l) found 0)).
  - intros r R. apply filter_In in R as [R _].
    destruct (format_results_position _ _ 0 r ltac:(lia) R) as (idx & Hl & Hb & Hdoc).
    exists v, ix, found, idx. rewrite Z.sub_0_r in Hl.
    repeat split; auto; lia.
Qed.

End FaissStore.

Section FaissReload.
Import JS Faiss FaissSpec.
Context `{Embedder} `{VectorIndex}.


End FaissReload.

Section FaissStoreWitnesses.
Import JS Faiss FaissSpec Doubles.


End FaissStoreWitnesses.
(* ===================================================================== *)
(** * Further properties of the response parser                           *)
(* ===================================================================== *)

Section Headings.
Import JS Templates TemplatesSpec.

Implicit Types (p s : jstring) (i n : nat) (c : capture) (k : cont).

(** A literal under the [i] flag matches a prefix up to case. *)
Lemma rmatch_literal_i p : forall i s c k,
  rmatch (seq_of (map chr_i p)) i s c k =
  if starts_with_i p s then k (i + length p)%nat (skipn (length p) s) c else None.
Proof.
  induction p as [|x p IH]; intros i s c k.
  - cbn. rewrite Nat.add_0_r. reflexivity.
  - destruct p as [|x' p'].
    + cbn [map seq_of rmatch chr_i starts_with_i length skipn].
      destruct s as [|y s']; [reflexivity|].
      rewrite andb_true_r, Nat.add_1_r. reflexivity.
    + change (seq_of (map chr_i (x :: x' :: p')))
        with (Seq (chr_i x) (seq_of (map chr_i (x' :: p')))).
      cbn [rmatch chr_i]. destruct s as [|y s']; [reflexivity|].
      change (starts_with_i (x :: x' :: p') (y :: s'))
        with (char_eqb (canonicalize y) (canonicalize x)
              && starts_with_i (x' :: p') s').
      destruct (char_eqb (canonicalize y) (canonicalize x)); [|reflexivity].
      rewrite IH. cbn [andb].
      replace (i + length (x :: x' :: p'))%nat
        with (S i + length (x' :: p'))%nat by (cbn [length]; lia).
      reflexivity.
Qed.

(** The lookahead [(?=next|$)]. *)
Lemma rmatch_look_heading next i s c k :
  rmatch (Look (Alt (seq_of (map chr_i next)) Eos)) i s c k
  = if starts_with_i next s || match s with [] => true | _ => false end
    then k i s c else None.
Proof.
  cbn [rmatch]. rewrite rmatch_literal_i.
  destruct (starts_with_i next s); [reflexivity|].
  destruct s; reflexivity.
Qed.

(** The lazy group before the lookahead stops at the next heading, or at
    the end of the text. *)
Lemma star_lazy_until_heading next (i0 : nat) s : forall i c,
  star false any_char i s c
    (fun i' s' _ =>
       rmatch (Look (Alt (seq_of (map chr_i next)) Eos)) i' s' (Some (i0, i'))
              accept)
  = Some ((i + length (until_heading next s))%nat,
          Some (i0, (i + length (until_heading next s))%nat)).
Proof.
  induction s as [|x s IH]; intros i c.
  - cbn [star]. rewrite rmatch_look_heading, orb_true_r.
    cbn [until_heading]. destruct (starts_with_i next []);
      cbn [length]; rewrite Nat.add_0_r; reflexivity.
  - cbn [star any_char]. rewrite rmatch_look_heading, orb_false_r.
    cbn [until_heading]. destruct (starts_with_i next (x :: s)).
    + cbn [length]. rewrite Nat.add_0_r. reflexivity.
    + rewrite IH. cbn [length]. rewrite Nat.add_succ_r. reflexivity.
Qed.

Lemma until_heading_prefix next s :
  firstn (length (until_heading next s)) s = until_heading next s.
Proof.
  induction s as [|x s IH]; cbn [until_heading].
  - destruct (starts_with_i next []); reflexivity.
  - destruct (starts_with_i next (x :: s)); [reflexivity|].
    cbn [length firstn]. rewrite IH. reflexivity.
Qed.

Section Numbered.
Variables (heading next : jstring).
Let re : regex :=
  Seq (seq_of (map chr_i heading))
      (Seq ws_star (Seq lazy_group (Look (Alt (seq_of (map chr_i next)) Eos)))).

Lemma exec_at_section i s :
  exec_at re i s =
  if starts_with_i heading s then
    let u := skipn (length heading) s in
    let b := (i + length heading + (length u - length (trimStart u)))%nat in
    let e := (b + length (until_heading next (trimStart u)))%nat in
    Some (e, Some (b, e))
  else None.
Proof.
  unfold exec_at, re. cbn [rmatch]. rewrite rmatch_literal_i.
  destruct (starts_with_i heading s); [|reflexivity].
  change (rmatch ws_star ?i ?s ?c ?k) with (star true is_space i s c k).
  rewrite star_greedy_space.
  - cbn [rmatch lazy_group]. apply star_lazy_until_heading.
  - intros j x u c _ E.
    pose proof (eq_trans (eq_sym E)
                  (star_lazy_until_heading next (S j) u (S j) c)) as F.
    discriminate F.
Qed.

Lemma exec_from_section s : forall i,
  exec_from re i s =
  match find_first_i heading s with
  | None => None
  | Some j =>
      let u := skipn (j + length heading) s in
      let b := (i + j + length heading + (length u - length (trimStart u)))%nat in
      let e := (b + length (until_heading next (trimStart u)))%nat in
      Some ((i + j)%nat, e, Some (b, e))
  end.
Proof.
  induction s as [|x s IH]; intros i.
  - cbn [exec_from find_first_i]. rewrite exec_at_section.
    destruct (starts_with_i heading []); [|reflexivity].
    cbv zeta. rewrite !Nat.add_0_r. reflexivity.
  - cbn [exec_from find_first_i]. rewrite exec_at_section.
    destruct (starts_with_i heading (x :: s)).
    + cbv zeta. rewrite !Nat.add_0_r. reflexivity.
    + rewrite IH. destruct (find_first_i heading s) as [j|]; [|reflexivity].
      cbn [option_map]. cbv zeta.
      replace (S i + j)%nat with (i + S j)%nat by lia.
      reflexivity.
Qed.

(** The group such a pattern captures is the block under the heading. *)
Lemma match_section s : match_ re s = block_under heading next s.
Proof.
  unfold match_, block_under. rewrite exec_from_section. cbn [Nat.add].
  destruct (find_first_i heading s) as [j|]; [|reflexivity].
  cbv zeta. set (u := skipn (j + length heading) s).
  f_equal. unfold slice.
  set (m := (length u - length (trimStart u))%nat).
  replace (j + length heading + m + length (until_heading next (trimStart u))
           - (j + length heading + m))%nat
    with (length (until_heading next (trimStart u))) by lia.
  replace (skipn (j + length heading + m) s) with (trimStart u).
  - apply until_heading_prefix.
  - rewrite (trimStart_skipn u) at 1. fold m. unfold u.
    rewrite skipn_skipn. f_equal. lia.
Qed.

End Numbered.

Lemma section_text_under (heading next : string) text :
  section_text (re_section heading next) text = text_under heading next text.
Proof.
  unfold section_text, text_under.
  replace (match_ (re_section heading next) text)
    with (block_under (js heading) (js next) text)
    by (symmetry; exact (match_section (js heading) (js next) text)).
  reflexivity.
Qed.

End Headings.

Section ParserFields.
Import JS Templates TemplatesSpec TextSpec.

Lemma bindM_match text r (k : option jstring -> M unit) s :
  bindM (lift (match_val (VStr text) r)) k s = k (match_ r text) s.
Proof. reflexivity. Qed.

Lemma bindM_when m f (k : unit -> M unit) s :
  bindM (when_match m f) k s = k tt (fill m f s).
Proof. destruct m; reflexivity. Qed.

Lemma when_match_fill m f s : when_match m f s = (fill m f s, Ok tt).
Proof. destruct m; reflexivity. Qed.

Lemma fill_preserves {A} (p : sections -> A) m f s :
  (forall g s', p (f g s') = p s') -> p (fill m f s) = p s.
Proof. intros E. destruct m; [apply E|reflexivity]. Qed.

Lemma fill_sets {A} (p : sections -> A) m f (h : jstring -> A) s :
  (forall g s', p (f g s') = h g) ->
  p (fill m f s) = match m with Some g => h g | None => p s end.
Proof. intros E. destruct m; [apply E|reflexivity]. Qed.

Ltac field_of_setter :=
  intros;
  cbn [understanding brute_force optimized time_complexity space_complexity
       edge_cases java_code dry_run follow_up_questions common_mistakes
       variations set_understanding set_brute_force set_optimized
       set_time_complexity set_space_complexity set_edge_cases set_java_code
       set_dry_run set_follow_up_questions set_common_mistakes set_variations];
  reflexivity.

Ltac peel :=
  repeat match goal with
  | |- context [?p (fill ?m ?f ?s)] =>
      first [ rewrite (fill_preserves p m f s) by field_of_setter
            | erewrite (fill_sets p m f _ s) by field_of_setter ]
  end.

(** The record [parseStructuredResponse] returns on a string, field by
    field. *)
Lemma parseStructuredResponse_string text :
  parseStructuredResponse (VStr text) =
  Sections (VStr (section_text re_understanding text))
    (section_text re_brute text) (section_text re_optimized text)
    (section_text re_time text) (section_text re_space text)
    (section_items re_edge text) (section_text re_code text)
    (section_text re_dry_run text)
    match section_items re_follow_up text with
    | [] => firstn 5 (section_items re_alt_follow_up text)
    | item :: items => item :: items
    end
    (section_items re_mistakes text) (section_items re_variations text).
Proof.
  unfold parseStructuredResponse, parse_body.
  repeat (rewrite bindM_match; cbv beta; rewrite bindM_when; cbv beta).
  match goal with
  | |- context [bindM get _ ?st] => set (headed := st)
  end.
  assert (P1 : understanding headed = VStr (section_text re_understanding text))
    by (unfold headed, section_text; peel;
        destruct (match_ re_understanding text); reflexivity).
  assert (P2 : brute_force headed = section_text re_brute text)
    by (unfold headed, section_text; peel; reflexivity).
  assert (P3 : optimized headed = section_text re_optimized text)
    by (unfold headed, section_text; peel; reflexivity).
  assert (P4 : time_complexity headed = section_text re_time text)
    by (unfold headed, section_text; peel; reflexivity).
  assert (P5 : space_complexity headed = section_text re_space text)
    by (unfold headed, section_text; peel; reflexivity).
  assert (P6 : edge_cases headed = section_items re_edge text)
    by (unfold headed, section_items; peel; reflexivity).
  assert (P7 : java_code headed = section_text re_code text)
    by (unfold headed, section_text; peel; reflexivity).
  assert (P8 : dry_run headed = section_text re_dry_run text)
    by (unfold headed, section_text; peel; reflexivity).
  assert (P9 : follow_up_questions headed = section_items re_follow_up text)
    by (unfold headed, section_items; peel; reflexivity).
  assert (P10 : common_mistakes headed = section_items re_mistakes text)
    by (unfold headed, section_items; peel; reflexivity).
  assert (P11 : variations headed = section_items re_variations text)
    by (unfold headed, section_items; peel; reflexivity).
  clearbody headed. destruct headed.
  cbn [understanding brute_force optimized time_complexity space_complexity
       edge_cases java_code dry_run follow_up_questions common_mistakes
       variations] in *.
  subst. unfold bindM at 1, get.
  cbn [follow_up_questions].
  destruct (section_items re_follow_up text) as [|item items] eqn:F;
    [|reflexivity].
  rewrite bindM_match, when_match_fill.
  unfold section_items.
  destruct (match_ re_alt_follow_up text); reflexivity.
Qed.

(** X14. On a string, every field of the record is read by its own
    pattern, whatever the other patterns find: the six texts are the
    trimmed capture of their pattern, the lists are the items of the
    capture of theirs, and a field whose pattern finds nothing keeps its
    default. The follow-up questions alone have a second source: when the
    heading yields no item, the first five items after a line that
    mentions an interview, a follow-up or a what-if. *)
Theorem fields_are_read_independently text :
  let s := parseStructuredResponse (VStr text) in
  understanding s = VStr (section_text re_understanding text)
  /\ brute_force s = section_text re_brute text
  /\ optimized s = section_text re_optimized text
  /\ time_complexity s = section_text re_time text
  /\ space_complexity s = section_text re_space text
  /\ edge_cases s = section_items re_edge text
  /\ java_code s = section_text re_code text
  /\ dry_run s = section_text re_dry_run text
  /\ follow_up_questions s =
     match section_items re_follow_up text with
     | [] => firstn 5 (section_items re_alt_follow_up text)
     | item :: items => item :: items
     end
  /\ common_mistakes s = section_items re_mistakes text
  /\ variations s = section_items re_variations text.
Proof.
  intros s. unfold s. rewrite parseStructuredResponse_string.
  repeat split; reflexivity.
Qed.

(** X15. The six text fields are delimited blocks of the reply. The
    Java code is the trimmed content of the first fenced block that
    opens with "```java", up to the next "```", wherever it stands; with
    no such block (or an unclosed one) the field is empty. Each of the
    five numbered sections is the trimmed text from the first occurrence
    of its heading, whatever the case of the letters, up to the heading
    of the following number or, if that one is missing, to the end of
    the reply, later sections included. *)
Theorem text_fields_are_delimited_blocks text :
  let s := parseStructuredResponse (VStr text) in
  java_code s =
    match first_block (js "```java") (js "```") text with
    | Some block => trim block
    | None => []
    end
  /\ understanding s
     = VStr (text_under "### 1. PROBLEM UNDERSTANDING" "### 2." text)
  /\ brute_force s = text_under "### 2. BRUTE FORCE APPROACH" "### 3." text
  /\ optimized s = text_under "### 3. OPTIMIZED APPROACH" "### 4." text
  /\ time_complexity s = text_under "### 4. TIME COMPLEXITY" "### 5." text
  /\ space_complexity s = text_under "### 5. SPACE COMPLEXITY" "### 6." text
  /\ dry_run s = text_under "### 8. DRY RUN EXAMPLE" "### 9." text
  /\ (trimmed (java_code s) /\ trimmed (brute_force s) /\ trimmed (optimized s)
      /\ trimmed (time_complexity s) /\ trimmed (space_complexity s)
      /\ trimmed (dry_run s)).
Proof.
  intros s. unfold s. rewrite parseStructuredResponse_string.
  cbn [java_code understanding brute_force optimized time_complexity
       space_complexity dry_run].
  assert (T : forall r, trimmed (section_text r text)).
  { intros r. unfold section_text. destruct (match_ r text);
      [apply trim_trimmed|exact I]. }
  split.
  { unfold section_text.
    replace (match_ re_code text)
      with (first_block (js "```java") (js "```") text)
      by (symmetry;
          exact (match_fence 96%N [96; 96]%N eq_refl (js "```java") text)).
    reflexivity. }
  unfold re_understanding, re_brute, re_optimized, re_time, re_space,
    re_dry_run.
  rewrite <- !section_text_under.
  repeat split; apply T.
Qed.

(** A reply without the heading of section 2: section 1 runs to the end
    of the reply and takes the text of section 3 with it. *)
Example section_runs_past_missing_heading :
  let s := parseStructuredResponse (VStr reply_without_second_heading) in
  understanding s
  = VStr (join [10%N] (map js ["Find two numbers.";
                               "### 3. OPTIMIZED APPROACH";
                               "Use a hash map."]%string))
  /\ optimized s = js "Use a hash map.".
Proof. vm_compute. split; reflexivity. Qed.

Lemma list_items_clean block : Forall clean_item (list_items block).
Proof.
  unfold list_items. apply List.Forall_forall. intros item I.
  apply filter_In in I as [I L]. apply in_map_iff in I as (l & <- & _).
  split; [|apply trim_trimmed].
  intros E. rewrite E in L. discriminate L.
Qed.

Lemma section_items_clean r text : Forall clean_item (section_items r text).
Proof.
  unfold section_items. destruct (match_ r text);
    [apply list_items_clean|constructor].
Qed.

(** X16. Every item of the four lists of the record (edge cases,
    follow-up questions, common mistakes, variations) is a non-empty
    text without white space at either end; and when the follow-up
    heading yields no item, the list holds at most five. *)
Theorem list_fields_hold_clean_items text :
  let s := parseStructuredResponse (VStr text) in
  Forall clean_item (edge_cases s)
  /\ Forall clean_item (follow_up_questions s)
  /\ Forall clean_item (common_mistakes s)
  /\ Forall clean_item (variations s)
  /\ (section_items re_follow_up text = [] ->
      (length (follow_up_questions s) <= 5)%nat).
Proof.
  intros s. unfold s. rewrite parseStructuredResponse_string.
  cbn [edge_cases follow_up_questions common_mistakes variations].
  repeat split; try apply section_items_clean.
  - pose proof (section_items_clean re_follow_up text) as F.
    destruct (section_items re_follow_up text); [|exact F].
    apply Forall_take. apply section_items_clean.
  - intros ->. rewrite length_firstn. lia.
Qed.

End ParserFields.
(* ===================================================================== *)
(** * Further properties of the pipeline                                  *)
(* ===================================================================== *)

Section RagAnalysis.
Import JS Rag RagSpec.
Context `{Faiss.Embedder} `{Faiss.VectorIndex} `{Faiss.SnapshotFile}.
Context `{Completion} `{Prompts} `{CaseMapping}.

(** X17. Interview intent with the solution asked for: [analyzeProblem]
    still retrieves and generates with the interview parameters (two
    neighbours in the hints format, temperature 0.5, 600 tokens), but
    with the analysis prompts; a successful completion is parsed into
    the structured record, and the result is still flagged as interview
    mode. The phase plays no part. *)
Theorem reveal_keeps_interview_parameters
    (env : environment) pl fs (problem : jstring) (options : analyze_options) :
  interview_intent env problem options = true ->
  revealSolution options = true ->
  let ropts := RetrieveOptions (Some 2) (Some (js "hints")) in
  let copts := ChatOptions (Some 0.5%float) (Some 600) in
  let got := retrieved_of (retrieveContext pl fs problem ropts) in
  let userPrompt := generateAnalysisPrompt problem (context got) in
  let out := analyzeProblem env pl fs problem options in
  calls out = [CallRetrieve problem ropts;
               CallChat SYSTEM_PROMPT userPrompt copts]
  /\ (forall llmResult,
        chat SYSTEM_PROMPT userPrompt copts = Ok llmResult ->
        success llmResult = true ->
        analysis_of out =
        Analyzed true (requested_mode options)
                 (Parsed (Templates.parseStructuredResponse (response llmResult)))
                 (response llmResult) (sources got) (model llmResult)
                 (eval_count llmResult) (tokens_per_second llmResult))
  /\ (forall phase,
        analyzeProblem env pl fs problem
          (AnalyzeOptions (opt_mode options) true phase) = out).
Proof.
  intros Hi Hreveal ropts copts got userPrompt out.
  assert (Hi' : forall phase,
            interview_intent env problem
              (AnalyzeOptions (opt_mode options) true phase) = true)
    by (intros phase; exact Hi).
  unfold out, analyzeProblem. rewrite Hi, Hreveal.
  change (getModeConfig env (js "interview")) with interview_config.
  cbn [andb negb topK contextFormat temperature maxTokens interview_config
       calls analysis_of].
  split; [reflexivity|]. split.
  - intros llmResult Hchat Hok. fold ropts. fold got. fold userPrompt.
    fold copts. rewrite Hchat, Hok. reflexivity.
  - intros phase. rewrite Hi'.
    change (getModeConfig env (js "interview")) with interview_config.
    reflexivity.
Qed.

(** X18. Without interview intent, [analyzeProblem] retrieves and
    generates with the parameters of the requested mode (those of the
    detailed mode for a name it does not know) and the analysis prompts,
    and parses a successful completion into the structured record; the
    options [revealSolution] and [phase] play no part. *)
Theorem plain_analysis_uses_requested_mode
    (env : environment) pl fs (problem : jstring) (options : analyze_options) :
  interview_intent env problem options = false ->
  let cfg := getModeConfig env (requested_mode options) in
  let ropts := RetrieveOptions (topK cfg) (contextFormat cfg) in
  let copts := ChatOptions (temperature cfg) (maxTokens cfg) in
  let got := retrieved_of (retrieveContext pl fs problem ropts) in
  let userPrompt := generateAnalysisPrompt problem (context got) in
  let out := analyzeProblem env pl fs problem options in
  calls out = [CallRetrieve problem ropts;
               CallChat SYSTEM_PROMPT userPrompt copts]
  /\ (forall llmResult,
        chat SYSTEM_PROMPT userPrompt copts = Ok llmResult ->
        success llmResult = true ->
        analysis_of out =
        Analyzed false (requested_mode options)
                 (Parsed (Templates.parseStructuredResponse (response llmResult)))
                 (response llmResult) (sources got) (model llmResult)
                 (eval_count llmResult) (tokens_per_second llmResult))
  /\ (forall reveal phase,
        analyzeProblem env pl fs problem
          (AnalyzeOptions (opt_mode options) reveal phase) = out)
  /\ (existsb (jstring_eqb (requested_mode options))
        (js "quick" :: js "interview" :: inherited_keys) = false ->
      cfg = detailed_config env).
Proof.
  intros Hi cfg ropts copts got userPrompt out.
  assert (Hi' : forall reveal phase,
            interview_intent env problem
              (AnalyzeOptions (opt_mode options) reveal phase) = false)
    by (intros reveal phase; exact Hi).
  unfold out, analyzeProblem. rewrite Hi. fold cfg.
  cbn [andb calls analysis_of].
  split; [reflexivity|]. split; [|split].
  - intros llmResult Hchat Hok. fold ropts. fold got. fold userPrompt.
    fold copts. rewrite Hchat, Hok. reflexivity.
  - intros reveal phase. rewrite Hi'. reflexivity.
  - unfold cfg, getModeConfig. cbn [existsb].
    destruct (jstring_eqb (requested_mode options) (js "quick"));
      [discriminate|].
    destruct (jstring_eqb (requested_mode options) (js "detailed"));
      [reflexivity|].
    destruct (jstring_eqb (requested_mode options) (js "interview"));
      [discriminate|].
    cbn [orb]. intros ->. reflexivity.
Qed.

(** X19. [analyzeProblem] makes one retrieval and then one completion
    call, in every case, and leaves the vector store as the retrieval
    left it. It resolves to a failure exactly when the completion call
    throws or reports no success, with that error as the message;
    otherwise to a result with the sources of the retrieval, an empty
    retrieval included. *)
Theorem analysis_fails_only_on_completion
    (env : environment) pl fs (problem : jstring) (options : analyze_options) :
  let out := analyzeProblem env pl fs problem options in
  exists ropts systemPrompt userPrompt copts,
    calls out = [CallRetrieve problem ropts;
                 CallChat systemPrompt userPrompt copts]
    /\ store_after out = faiss_after (retrieveContext pl fs problem ropts)
    /\ match chat systemPrompt userPrompt copts with
       | Throw e => analysis_of out = Failed e
       | Ok llmResult =>
           if success llmResult then
             exists structuredResponse,
               analysis_of out =
               Analyzed (interview_intent env problem options)
                        (requested_mode options) structuredResponse
                        (response llmResult)
                        (sources (retrieved_of
                                    (retrieveContext pl fs problem ropts)))
                        (model llmResult) (eval_count llmResult)
                        (tokens_per_second llmResult)
           else analysis_of out = Failed (error llmResult)
       end.
Proof.
  intros out. unfold out, analyzeProblem. cbv zeta.
  cbn [calls store_after analysis_of].
  do 4 eexists. split; [reflexivity|]. split; [reflexivity|].
  destruct (chat _ _ _) as [llmResult|e]; [|reflexivity].
  destruct (success llmResult); cbn [negb]; [|reflexivity].
  eexists. reflexivity.
Qed.

End RagAnalysis.

Section RagEvaluate.
Import JS Rag Templates.
Context `{Generation} `{EvaluationPrompt} `{JsonParser}.

(** X20. [evaluateCode] asks for one generation, at temperature 0.3 and
    2048 tokens, and succeeds whenever the generation does: a reply that
    holds no JSON, or is no string at all, is answered with
    [success: true] and the default evaluation (score 0, the reply
    attached). It fails exactly when the generation throws or reports
    no success, and then carries the stand-in evaluation. *)
Theorem evaluateCode_succeeds_with_generation (problem code : jstring) :
  let prompt := generateEvaluationPrompt problem code in
  match generate prompt (ChatOptions (Some 0.3%float) (Some 2048)) with
  | Throw e => evaluateCode problem code = NotEvaluated e failed_evaluation
  | Ok llmResult =>
      if success llmResult then
        evaluateCode problem code
        = Evaluated (parseEvaluationResponse (response llmResult))
                    (model llmResult)
        /\ (forall e, evaluation_try (response llmResult) = Throw e ->
              evaluateCode problem code
              = Evaluated (default_evaluation (response llmResult))
                          (model llmResult))
        /\ match response llmResult with
           | VStr _ => True
           | other => evaluateCode problem code
                      = Evaluated (default_evaluation other) (model llmResult)
           end
      else evaluateCode problem code
           = NotEvaluated (error llmResult) failed_evaluation
  end.
Proof.
  intros prompt. unfold evaluateCode. fold prompt.
  destruct (generate prompt _) as [llmResult|e]; [|reflexivity].
  destruct (success llmResult); cbn [negb]; [|reflexivity].
  split; [reflexivity|]. split.
  - intros e E. unfold parseEvaluationResponse. rewrite E. reflexivity.
  - destruct (response llmResult); try exact I; reflexivity.
Qed.

End RagEvaluate.

Section RagDataset.
Import JS Rag FaissSpec.
Context `{Faiss.Embedder} `{Faiss.VectorIndex} `{Faiss.SnapshotFile}.
Context `{DatasetFile}.


End RagDataset.

Section RagExtraWitnesses.
Import JS Rag RagSpec Doubles.

Lemma reveal_keeps_interview_parameters_witness :
  let index := canned_index [(0, 0.9%float)] in
  let fs := @store index [Some two_sum] 0.7%float in
  let env := Environment None None None None None in
  let problem := js "Interview Mode: find two numbers that sum to a target" in
  let options := AnalyzeOptions (Some (js "quick")) true (Some (js "reveal")) in
  let out := @analyzeProblem canned_embedder index no_snapshot
               (canned_completion (js "### 2. BRUTE FORCE APPROACH try pairs"))
               plain_prompts ascii_lower env (new_pipeline env) fs problem options in
  @interview_intent ascii_lower env problem options = true
  /\ revealSolution options = true
  /\ calls out =
     [CallRetrieve problem (RetrieveOptions (Some 2) (Some (js "hints")));
      CallChat (js "You are CodeMentor.")
        (js "You are CodeMentor." ++
         js "Similar: Two Sum - Tags: array, hashmap" ++ problem)
        (ChatOptions (Some 0.5%float) (Some 600))].
Proof.
  intros index fs env problem options out.
  assert (Hk : @interview_intent ascii_lower env problem options = true)
    by (vm_compute; reflexivity).
  split; [exact Hk|]. split; [reflexivity|].
  destruct (@reveal_keeps_interview_parameters
              canned_embedder index no_snapshot
              (canned_completion (js "### 2. BRUTE FORCE APPROACH try pairs"))
              plain_prompts ascii_lower env (new_pipeline env) fs problem options
              Hk eq_refl) as (Hcalls & _).
  fold out in Hcalls. rewrite Hcalls. vm_compute. reflexivity.
Defined.

Lemma plain_analysis_uses_requested_mode_witness :
  let index := canned_index [(0, 0.9%float)] in
  let fs := @store index [Some two_sum] 0.7%float in
  let env := Environment None None None None None in
  let problem := js "find two numbers that sum to a target" in
  let options := AnalyzeOptions (Some (js "quick")) true (Some (js "reveal")) in
  let out := @analyzeProblem canned_embedder index no_snapshot
               (canned_completion (js "### 2. BRUTE FORCE APPROACH try pairs"))
               plain_prompts ascii_lower env (new_pipeline env) fs problem options in
  @interview_intent ascii_lower env problem options = false
  /\ calls out =
     [CallRetrieve problem (RetrieveOptions (Some 1) (Some (js "minimal")));
      CallChat (js "You are CodeMentor.")
        (js "You are CodeMentor." ++
         js "Two Sum (Easy): Store complements in a hash map." ++ problem)
        (ChatOptions (Some 0.2%float) (Some 600))].
Proof.
  intros index fs env problem options out.
  assert (Hk : @interview_intent ascii_lower env problem options = false)
    by (vm_compute; reflexivity).
  split; [exact Hk|].
  destruct (@plain_analysis_uses_requested_mode
              canned_embedder index no_snapshot
              (canned_completion (js "### 2. BRUTE FORCE APPROACH try pairs"))
              plain_prompts ascii_lower env (new_pipeline env) fs problem options
              Hk) as (Hcalls & _).
  fold out in Hcalls. rewrite Hcalls. vm_compute. reflexivity.
Defined.


End RagExtraWitnesses.
(* ===================================================================== *)
(** * Properties of the embedding service                                 *)
(* ===================================================================== *)

Section HashText.
Import JS Embedding EmbeddingSpec.

Lemma to_int32_range z : - 2 ^ 31 <= to_int32 z < 2 ^ 31.
Proof.
  unfold to_int32.
  pose proof (Z.mod_pos_bound (z + 2 ^ 31) (2 ^ 32) eq_refl). lia.
Qed.

Lemma to_int32_shift z k : to_int32 (z + k * 2 ^ 32) = to_int32 z.
Proof.
  unfold to_int32.
  replace (z + k * 2 ^ 32 + 2 ^ 31) with (z + 2 ^ 31 + k * 2 ^ 32) by lia.
  rewrite Z_mod_plus_full. reflexivity.
Qed.

Lemma to_int32_eq z : exists k, to_int32 z = z + k * 2 ^ 32.
Proof.
  exists (- ((z + 2 ^ 31) / 2 ^ 32)). unfold to_int32.
  rewrite Z.mod_eq by discriminate. lia.
Qed.

(** One round of the loop is [31 * hash + char], wrapped to 32 bits. *)
Lemma hash_step_31 hash char :
  hash_step hash char = to_int32 (31 * hash + Z.of_N char).
Proof.
  unfold hash_step. rewrite Z.land_diag, Z.shiftl_mul_pow2 by lia.
  destruct (to_int32_eq hash) as [k1 E1]. rewrite E1.
  destruct (to_int32_eq ((hash + k1 * 2 ^ 32) * 2 ^ 5)) as [k2 E2]. rewrite E2.
  replace ((hash + k1 * 2 ^ 32) * 2 ^ 5 + k2 * 2 ^ 32 - hash + Z.of_N char)
    with (31 * hash + Z.of_N char + (32 * k1 + k2) * 2 ^ 32) by lia.
  apply to_int32_shift.
Qed.

Lemma fold_hash_step text : forall hash p,
  hash = to_int32 p ->
  fold_left hash_step text hash
  = to_int32 (fold_left (fun p c => 31 * p + Z.of_N c) text p).
Proof.
  induction text as [|c text IH]; intros hash p E; cbn [fold_left]; [exact E|].
  apply IH. rewrite hash_step_31, E.
  destruct (to_int32_eq p) as [k ->].
  replace (31 * (p + k * 2 ^ 32) + Z.of_N c)
    with (31 * p + Z.of_N c + (31 * k) * 2 ^ 32) by lia.
  apply to_int32_shift.
Qed.

Lemma hashText_poly31 text : hashText text = to_int32 (poly31 text).
Proof. apply fold_hash_step. reflexivity. Qed.

Lemma poly31_app a b :
  poly31 (a ++ b) = fold_left (fun p c => 31 * p + Z.of_N c) b (poly31 a).
Proof. apply fold_left_app. Qed.

(** X22. [hashText] is the polynomial in 31 over the code units of the
    text, wrapped to a signed 32-bit integer; so it lies in the 32-bit
    range, and two texts that differ only by "Aa" in place of "BB" have
    the same hash. *)
Theorem hashText_is_polynomial (text before after : jstring) :
  hashText text = to_int32 (poly31 text)
  /\ - 2 ^ 31 <= hashText text < 2 ^ 31
  /\ hashText (before ++ js "Aa" ++ after) = hashText (before ++ js "BB" ++ after)
  /\ before ++ js "Aa" ++ after <> before ++ js "BB" ++ after.
Proof.
  split; [apply hashText_poly31|].
  split; [rewrite hashText_poly31; apply to_int32_range|]. split.
  - rewrite !hashText_poly31, !poly31_app. f_equal.
    rewrite !fold_left_app. f_equal. cbn. lia.
  - intros E. apply app_inv_head in E. discriminate E.
Qed.

End HashText.

Section EmbeddingCache.
Import JS Embedding EmbeddingSpec.
Context `{Backends}.

Implicit Types (sv : service) (text : jstring).

(** What one [embed] does to the service. *)
Lemma embed_effect sv text :
  let sv' := (embed sv text).2 in
  cache sv ⊆ cache sv'
  /\ (usePython sv' = true -> usePython sv = true)
  /\ exists new, made sv' = made sv ++ new
       /\ (usePython sv = false -> forallb no_python new = true).
Proof.
  unfold embed.
  destruct (cache sv !! hashText text) as [v|] eqn:C; cbn [snd].
  { split; [reflexivity|]. split; [auto|]. exists []. rewrite app_nil_r. auto. }
  destruct (usePython sv) eqn:U.
  - destruct (embedWithPython (made sv) text) as [v|e];
      cbn [snd cache usePython made].
    + split; [apply insert_subseteq; exact C|]. split; [auto|].
      eexists. split; [reflexivity|discriminate].
    + split; [reflexivity|]. split; [discriminate|].
      eexists. split; [rewrite <- app_assoc; reflexivity|discriminate].
  - destruct (embedWithOllama (made sv) text) as [v|e];
      cbn [snd cache usePython made].
    + split; [apply insert_subseteq; exact C|]. split; [discriminate|].
      eexists. split; [reflexivity|reflexivity].
    + split; [reflexivity|]. split; [discriminate|].
      eexists. split; [reflexivity|reflexivity].
Qed.

Lemma embed_each_effect texts : forall sv,
  let sv' := (embed_each sv texts).2 in
  cache sv ⊆ cache sv'
  /\ (usePython sv' = true -> usePython sv = true)
  /\ exists new, made sv' = made sv ++ new
       /\ (usePython sv = false -> forallb no_python new = true).
Proof.
  induction texts as [|text rest IH]; intros sv; cbn [embed_each].
  { cbn [snd]. split; [reflexivity|]. split; [auto|].
    exists []. rewrite app_nil_r. auto. }
  pose proof (embed_effect sv text) as E. cbv zeta in E.
  destruct (embed sv text) as [[v|e] sv1]; cbn [snd] in E |- *; [|exact E].
  specialize (IH sv1). cbv zeta in IH.
  destruct E as (C1 & U1 & new1 & M1 & N1).
  assert (G : cache sv ⊆ cache (embed_each sv1 rest).2
              /\ (usePython (embed_each sv1 rest).2 = true -> usePython sv = true)
              /\ exists new, made (embed_each sv1 rest).2 = made sv ++ new
                   /\ (usePython sv = false -> forallb no_python new = true)).
  { destruct IH as (C2 & U2 & new2 & M2 & N2).
    split; [etransitivity; eassumption|]. split; [auto|].
    exists (new1 ++ new2). split; [rewrite M2, M1, app_assoc; reflexivity|].
    intros U. rewrite forallb_app, (N1 U). cbn [andb]. apply N2.
    destruct (usePython sv1) eqn:U'; [|reflexivity].
    rewrite (U1 eq_refl) in U. discriminate U. }
  destruct (embed_each sv1 rest) as [[vs|e] sv2]; exact G.
Qed.

(** X23. The cache answers by hash alone. Once a text was embedded
    without the fallback, a different text with the same hash (such as
    the same text with "BB" in place of "Aa") is answered with the
    vector of the first, without a call to a provider. *)
Theorem cache_answers_by_hash sv (t1 t2 : jstring) (v : vector) sv1 :
  embed sv t1 = (Ok v, sv1) ->
  usePython sv1 = usePython sv ->
  hashText t2 = hashText t1 ->
  embed sv1 t2 = (Ok v, sv1).
Proof.
  unfold embed at 1. intros E U Hh.
  assert (C : cache sv1 !! hashText t1 = Some v).
  { destruct (cache sv !! hashText t1) as [v0|] eqn:C0.
    - injection E as <- <-. exact C0.
    - destruct (usePython sv) eqn:U0.
      + destruct (embedWithPython (made sv) t1) as [v0|e].
        * injection E as <- <-. apply lookup_insert_eq.
        * injection E as _ <-. discriminate U.
      + destruct (embedWithOllama (made sv) t1) as [v0|e]; [|discriminate E].
        injection E as <- <-. apply lookup_insert_eq. }
  unfold embed. rewrite Hh, C. reflexivity.
Qed.

(** X24. The fallback is permanent and its answer is not kept. When the
    Python provider throws, [embed] answers with what the Ollama
    provider says, switches [usePython] off and leaves the cache as it
    was; when a provider answers on the regular path, the answer is
    added to the cache under the hash of the text. On every path, a call
    of [embed] or [embedBatch] keeps every vector the cache holds, and
    never switches [usePython] back on; once it is off, no such call
    reaches a Python provider again. Only [clearCache] removes vectors:
    it empties the cache, and leaves [usePython] and the calls made as
    they are. *)
Theorem fallback_is_permanent sv (texts : list jstring) :
  (forall text e,
     usePython sv = true ->
     cache sv !! hashText text = None ->
     embedWithPython (made sv) text = Throw e ->
     (embed sv text).1 = embedWithOllama (made sv ++ [Python text]) text
     /\ usePython (embed sv text).2 = false
     /\ cache (embed sv text).2 = cache sv)
  /\ (forall text v,
        cache sv !! hashText text = None ->
        (if usePython sv then embedWithPython (made sv) text
         else embedWithOllama (made sv) text) = Ok v ->
        (embed sv text).1 = Ok v
        /\ usePython (embed sv text).2 = usePython sv
        /\ cache (embed sv text).2 = <[hashText text := v]> (cache sv))
  /\ (forall text,
        cache sv ⊆ cache (embed sv text).2
        /\ (usePython (embed sv text).2 = true -> usePython sv = true))
  /\ cache sv ⊆ cache (embedBatch sv texts).2
  /\ (usePython (embedBatch sv texts).2 = true -> usePython sv = true)
  /\ (usePython sv = false ->
      (forall text,
         usePython (embed sv text).2 = false
         /\ exists new, made (embed sv text).2 = made sv ++ new
              /\ forallb no_python new = true)
      /\ usePython (embedBatch sv texts).2 = false
      /\ exists new, made (embedBatch sv texts).2 = made sv ++ new
           /\ forallb no_python new = true)
  /\ (cache (clearCache sv) = ∅
      /\ usePython (clearCache sv) = usePython sv
      /\ made (clearCache sv) = made sv).
Proof.
  assert (Off : forall b : bool, (b = true -> false = true) -> b = false)
    by (intros [] Hb; [symmetry; apply Hb; reflexivity|reflexivity]).
  split; [|split; [|split; [|split; [|split; [|split]]]]].
  - intros text e U C P. unfold embed. rewrite C, U, P. auto.
  - intros text v C P. unfold embed. rewrite C.
    destruct (usePython sv); rewrite P; auto.
  - intros text. destruct (embed_effect sv text) as (C & U & _). auto.
  - unfold embedBatch. destruct (usePython sv).
    + destruct (embedBatchWithPython (made sv) texts) as [vs|e];
        [reflexivity|].
      exact (proj1 (embed_each_effect texts
                      (Service false (cache sv) (made sv ++ [PythonBatch texts])))).
    + exact (proj1 (embed_each_effect texts sv)).
  - unfold embedBatch. destruct (usePython sv) eqn:U; [auto|].
    intros E. rewrite <- U.
    exact (proj1 (proj2 (embed_each_effect texts sv)) E).
  - intros U. split; [|split].
    + intros text. destruct (embed_effect sv text) as (_ & U' & new & M & N).
      split; [apply Off; rewrite <- U; exact U'|].
      exists new. auto.
    + unfold embedBatch. rewrite U.
      destruct (embed_each_effect texts sv) as (_ & U' & _).
      apply Off. rewrite <- U. exact U'.
    + unfold embedBatch. rewrite U.
      destruct (embed_each_effect texts sv) as (_ & _ & new & M & N).
      exists new. auto.
  - repeat split.
Qed.

End EmbeddingCache.

Section Cosine.
Import JS Embedding.

Lemma SFmul_comm prec emax x y : SFmul prec emax x y = SFmul prec emax y x.
Proof.
  destruct x as [sx|sx| |sx mx ex], y as [sy|sy| |sy my ey]; cbn [SFmul];
    try reflexivity; try (rewrite (xorb_comm sx sy); reflexivity).
  rewrite (xorb_comm sx sy), (Pos.mul_comm mx my), (Z.add_comm ex ey).
  reflexivity.
Qed.

Lemma mul_comm (x y : number) : (x * y = y * x)%float.
Proof.
  apply Prim2SF_inj. rewrite !mul_spec. apply SFmul_comm.
Qed.

Lemma cosine_sums_swap vecA vecB : forall d na nb,
  cosine_sums vecB vecA d nb na =
  let '(d', na', nb') := cosine_sums vecA vecB d na nb in (d', nb', na').
Proof.
  revert vecB.
  induction vecA as [|a vecA IH]; intros vecB d na nb; destruct vecB as [|b vecB];
    try reflexivity.
  cbn [cosine_sums]. rewrite (mul_comm b a). apply IH.
Qed.

Lemma cosine_sums_zeros n vecB : forall d nb,
  (cosine_sums (repeat 0%float n) vecB d 0 nb).1.2 = 0%float.
Proof.
  revert vecB. induction n as [|n IH]; intros vecB d nb; [destruct vecB; reflexivity|].
  destruct vecB as [|b vecB]; [reflexivity|].
  cbn [repeat cosine_sums]. apply IH.
Qed.

(** X25. [cosineSimilarity] throws exactly when the two vectors differ
    in length; it does not depend on the order of its two arguments;
    and it is 0, not a division by zero, when the first vector holds
    only zeros. *)
Theorem cosineSimilarity_is_symmetric (vecA vecB : vector) :
  cosineSimilarity vecA vecB = cosineSimilarity vecB vecA
  /\ (length vecA <> length vecB <->
      cosineSimilarity vecA vecB = Throw (js "Vectors must have the same dimensions"))
  /\ cosineSimilarity (repeat 0%float (length vecB)) vecB = Ok 0%float.
Proof.
  split; [|split].
  - unfold cosineSimilarity. rewrite (Nat.eqb_sym (length vecB)).
    destruct (length vecA =? length vecB)%nat; [|reflexivity]. cbn [negb].
    rewrite (cosine_sums_swap vecA vecB).
    destruct (cosine_sums vecA vecB 0 0 0) as [[d na] nb].
    rewrite (orb_comm (PrimFloat.eqb nb 0)).
    destruct (PrimFloat.eqb na 0 || PrimFloat.eqb nb 0)%bool; [reflexivity|].
    rewrite (mul_comm (PrimFloat.sqrt nb)). reflexivity.
  - unfold cosineSimilarity.
    destruct (Nat.eqb_spec (length vecA) (length vecB)) as [E|N]; cbn [negb].
    + split; [contradiction|].
      destruct (cosine_sums vecA vecB 0 0 0) as [[d na] nb].
      destruct (_ || _)%bool; discriminate.
    + split; [reflexivity|auto].
  - unfold cosineSimilarity. rewrite repeat_length, Nat.eqb_refl. cbn [negb].
    pose proof (cosine_sums_zeros (length vecB) vecB 0 0) as Z.
    destruct (cosine_sums _ vecB 0 0 0) as [[d na] nb]. cbn [fst snd] in Z.
    rewrite Z. reflexivity.
Qed.

End Cosine.

Section EmbeddingWitnesses.
Import JS Embedding EmbeddingSpec.

Lemma cache_answers_by_hash_witness :
  let first := @embed canned_backends new_service (js "Aa") in
  first.1 = Ok [1; 0]%float
  /\ hashText (js "BB") = hashText (js "Aa")
  /\ @embed canned_backends first.2 (js "BB") = (Ok [1; 0]%float, first.2)
  /\ made first.2 = [Python (js "Aa")].
Proof.
  intros first.
  assert (E : @embed canned_backends new_service (js "Aa")
              = (Ok [1; 0]%float, first.2)) by (vm_compute; reflexivity).
  split; [reflexivity|]. split; [reflexivity|]. split; [|reflexivity].
  exact (@cache_answers_by_hash canned_backends new_service (js "Aa") (js "BB")
           [1; 0]%float first.2 E eq_refl eq_refl).
Defined.

End EmbeddingWitnesses.
(* ===================================================================== *)
(** * Properties of the prompt builders                                   *)
(* ===================================================================== *)

Section PromptBuilders.
Import JS PromptTemplates PromptSpec.
Variables (SYSTEM_PROMPT INTERVIEW_MODE_PROMPT : jstring).
Variable inherited_text : jstring -> jstring.

Lemma substitute_other matched before after c rest :
  c <> 36%N ->
  substitute matched before after (c :: rest)
  = c :: substitute matched before after rest.
Proof.
  intros C. destruct c as [|p]; [reflexivity|].
  do 6 (try destruct p as [p|p|]); try reflexivity. congruence.
Qed.

Lemma substitute_dollar_free matched before after template :
  dollar_free template ->
  substitute matched before after template = template.
Proof.
  unfold dollar_free. induction template as [|c rest IH]; intros D; [reflexivity|].
  rewrite substitute_other by (intros ->; apply D; left; reflexivity).
  rewrite IH; [reflexivity|]. intros I. apply D. right. exact I.
Qed.

Lemma replace_context context :
  replace_string (js "{{CONTEXT}}") context RAG_CONTEXT_TEMPLATE
  = template_before
    ++ substitute (js "{{CONTEXT}}") template_before template_after context
    ++ template_after.
Proof.
  unfold replace_string.
  assert (I : index_of (js "{{CONTEXT}}") RAG_CONTEXT_TEMPLATE
              = Some (length template_before)) by (vm_compute; reflexivity).
  rewrite I. cbv zeta.
  assert (B : firstn (length template_before) RAG_CONTEXT_TEMPLATE
              = template_before) by (vm_compute; reflexivity).
  assert (A : skipn (length template_before + length (js "{{CONTEXT}}"))
                    RAG_CONTEXT_TEMPLATE
              = template_after) by (vm_compute; reflexivity).
  rewrite B, A. reflexivity.
Qed.

(** X26. [generateAnalysisPrompt] starts with the system prompt and ends
    with the problem section, in which the problem stands as given; an
    empty context adds nothing. A context without a dollar sign stands
    in the prompt as given, inside the reference template. A dollar sign
    is read as a replacement pattern: a context "$&" puts the marker
    "{{CONTEXT}}" itself into the prompt, and "$$" a single dollar
    sign. *)
Theorem analysis_prompt_reads_dollar_patterns (problem context : jstring) :
  let build := generateAnalysisPrompt SYSTEM_PROMPT problem in
  build [] = SYSTEM_PROMPT ++ analysis_tail problem
  /\ (context <> [] ->
      build context
      = SYSTEM_PROMPT ++ nl ++ nl ++ template_before
        ++ substitute (js "{{CONTEXT}}") template_before template_after context
        ++ template_after ++ analysis_tail problem)
  /\ (context <> [] -> dollar_free context ->
      build context
      = SYSTEM_PROMPT ++ nl ++ nl ++ template_before ++ context
        ++ template_after ++ analysis_tail problem)
  /\ build (js "$&") = build (js "{{CONTEXT}}")
  /\ build (js "$$") = build (js "$").
Proof.
  intros build.
  assert (G : forall c, c <> [] ->
            build c
            = SYSTEM_PROMPT ++ nl ++ nl ++ template_before
              ++ substitute (js "{{CONTEXT}}") template_before template_after c
              ++ template_after ++ analysis_tail problem).
  { intros c C. unfold build, generateAnalysisPrompt.
    destruct c as [|x c]; [contradiction|].
    rewrite replace_context. unfold analysis_tail.
    rewrite <- !app_assoc. reflexivity. }
  split; [reflexivity|]. split; [apply G|]. split.
  - intros C D. rewrite (G _ C), (substitute_dollar_free _ _ _ _ D). reflexivity.
  - split; rewrite !G by discriminate; reflexivity.
Qed.

(** X27. [generateInterviewPrompt] takes the context and the problem as
    given (no pattern is read in them). The instruction it adds is the
    one of the phase for the phases initial, understanding, approach and
    reveal; for every other phase that is no property of
    [Object.prototype], the phase optimization of the interview service
    included, it is the instruction of the initial phase. *)
Theorem interview_prompt_falls_back_to_initial (problem context phase : jstring) :
  let build := generateInterviewPrompt INTERVIEW_MODE_PROMPT inherited_text in
  let instruction := phase_instruction inherited_text in
  build problem context phase
  = INTERVIEW_MODE_PROMPT
    ++ match context with
       | [] => []
       | _ :: _ => nl ++ nl ++ js "## REFERENCE (DO NOT REVEAL TO CANDIDATE)"
                   ++ nl ++ context
       end
    ++ instruction phase ++ nl ++ nl ++ js "## PROBLEM" ++ nl ++ problem
  /\ (existsb (jstring_eqb phase)
        (map fst phaseInstructions ++ Rag.inherited_keys) = false ->
      instruction phase = instruction (js "initial"))
  /\ instruction Interview.OPTIMIZATION = instruction (js "initial")
  /\ NoDup (map instruction
              [js "initial"; Interview.UNDERSTANDING; Interview.APPROACH;
               Interview.REVEAL]).
Proof.
  intros build instruction. split; [|split; [|split]].
  - unfold build, generateInterviewPrompt. destruct context;
      rewrite <- ?app_assoc; reflexivity.
  - unfold instruction, phase_instruction. rewrite existsb_app.
    intros E. apply orb_false_iff in E as [E1 E2]. rewrite E2.
    cbn [map fst phaseInstructions existsb] in E1.
    cbn [own_property phaseInstructions].
    repeat match type of E1 with
    | (jstring_eqb phase ?k || _)%bool = false =>
        let E := fresh "E" in
        apply orb_false_iff in E1 as [E E1]; rewrite E
    end.
    reflexivity.
  - vm_compute. reflexivity.
  - assert (D : forall a b : jstring, jstring_eqb a b = false -> a <> b).
    { intros a b E ->. rewrite jstring_eqb_refl in E. discriminate E. }
    assert (D1 : instruction (js "initial") <> instruction Interview.UNDERSTANDING)
      by (apply D; vm_compute; reflexivity).
    assert (D2 : instruction (js "initial") <> instruction Interview.APPROACH)
      by (apply D; vm_compute; reflexivity).
    assert (D3 : instruction (js "initial") <> instruction Interview.REVEAL)
      by (apply D; vm_compute; reflexivity).
    assert (D4 : instruction Interview.UNDERSTANDING <> instruction Interview.APPROACH)
      by (apply D; vm_compute; reflexivity).
    assert (D5 : instruction Interview.UNDERSTANDING <> instruction Interview.REVEAL)
      by (apply D; vm_compute; reflexivity).
    assert (D6 : instruction Interview.APPROACH <> instruction Interview.REVEAL)
      by (apply D; vm_compute; reflexivity).
    cbn [map]. repeat apply NoDup_cons_2; try apply NoDup_nil_2;
      rewrite ?list_elem_of_In; cbn [In]; intuition congruence.
Qed.

End PromptBuilders.
(* ===================================================================== *)
(** * Properties of the controllers                                       *)
(* ===================================================================== *)

Section AnalyzeHandlers.
Import JS Http AnalyzeController.
Context `{Faiss.Embedder} `{Faiss.VectorIndex} `{Faiss.SnapshotFile}.
Context `{Rag.Completion} `{Rag.Prompts} `{Rag.CaseMapping}.
Context `{Validation}.
Variables (env : Rag.environment) (pl : Rag.pipeline).

(** X28. A request with interview intent on a text of at least ten
    characters reads [options.revealSolution]. If [options] is [null]
    that read throws: the handler leaves with a [TypeError], no session
    is created or changed and the pipeline is not called. If [options]
    is anything else and no reveal is asked, the request is a guided
    one and gets a JSON reply, also when the analysis fails. With [n]
    the number of guided requests the session has seen, this one
    included, the reply and the stored session carry the phase
    understanding for the first request, approach for the second and
    reveal from the third on, never the phase initial, and
    [max(0, 3 - n)] remaining interactions; the pipeline is asked in the
    mode interview with that phase; the problem text of a session that
    exists is kept, and the other sessions are untouched. *)
Theorem guided_request_advances_session
    (requestId freshId now : jstring) (st : state) (request : body)
    (text : jstring) :
  validateRequired request [js "problem"] = Ok tt ->
  long_enough (body_problem request) = Some text ->
  jstring_eqb (effective_mode (body_mode request)) (js "interview")
  || Rag.has_keyword env text = true ->
  let out := analyzeProblem env pl requestId freshId now st request in
  match body_options request with
  | None => out = (OtherError (js "Cannot read properties of null"), st)
  | Some opts =>
      revealSolution opts = false ->
      let sid := match sessionId opts with
                 | Some s => Rag.or_else s freshId
                 | None => freshId
                 end in
      let before := interviewSessions st !! sid in
      let n := match before with Some s => interactions s | None => 0 end + 1 in
      let ran := Rag.analyzeProblem env pl (store st) text
                   (Rag.AnalyzeOptions (Some (js "interview")) false
                                       (Some (phase_for n))) in
      out.1 = Json (InterviewReply (succeeded (Rag.analysis_of ran)) requestId
                      sid (phase_for n) (Z.max 0 (3 - n)) (Rag.analysis_of ran))
      /\ (exists s, interviewSessions out.2 !! sid = Some s
            /\ interactions s = n /\ phase s = phase_for n
            /\ problem s = match before with
                           | Some s0 => problem s0
                           | None => trim (replace_all re_interview_mode [] text)
                           end)
      /\ (forall other, other <> sid ->
            interviewSessions out.2 !! other = interviewSessions st !! other)
      /\ store out.2 = Rag.store_after ran
      /\ In (phase_for n) [js "understanding"; js "approach"; js "reveal"]
      /\ (n = 1 -> phase_for n = js "understanding")
      /\ (n = 2 -> phase_for n = js "approach")
      /\ (3 <= n -> phase_for n = js "reveal")
  end.
Proof.
  intros V L I out. unfold out, analyzeProblem. rewrite V, L. cbv zeta.
  rewrite I. destruct (body_options request) as [opts|]; [|reflexivity].
  cbn [reveal_asked bind spread]. intros R. rewrite R. cbn [negb].
  set (sid := match sessionId opts with
              | Some s => Rag.or_else s freshId
              | None => freshId
              end).
  set (before := interviewSessions st !! sid).
  set (n := match before with Some s => interactions s | None => 0 end + 1).
  assert (N : interactions
                match before with
                | Some s => s
                | None => Session sid (trim (replace_all re_interview_mode [] text))
                                  (js "initial") 0 now
                end + 1 = n).
  { unfold n. destruct before; reflexivity. }
  rewrite !N. cbn [phase fst snd interviewSessions store].
  split; [reflexivity|].
  split; [|split; [|split; [|split; [|split; [|split]]]]].
  - eexists. split; [apply lookup_insert_eq|].
    cbn [interactions phase problem]. repeat split.
    destruct before; reflexivity.
  - intros other O. apply lookup_insert_ne. congruence.
  - reflexivity.
  - unfold phase_for. destruct (n >=? 3); [cbn; auto|].
    destruct (n =? 2); cbn; auto.
  - intros ->. reflexivity.
  - intros ->. reflexivity.
  - intros G. unfold phase_for. destruct (Z.geb_spec n 3); [reflexivity|lia].
Qed.

(** X29. The reveal handler ends the session whatever the analysis
    gives: afterwards the session is gone (its status is a 404) and the
    other sessions are untouched. It analyses the problem text stored in
    the session, with no mode, no phase and the solution asked for; so
    unless the stored text still holds the keyword, the analysis runs
    with the parameters of the detailed mode. It replies 500 exactly
    when the analysis fails, and 404 for an unknown session, without a
    call to the pipeline. *)
Theorem reveal_handler_ends_session (st : state) (sid : jstring) :
  let out := revealSolution_handler env pl st sid in
  match interviewSessions st !! sid with
  | None => out = (ApiError (js "Session not found") 404, st)
  | Some s =>
      let options := Rag.AnalyzeOptions None true None in
      let ran := Rag.analyzeProblem env pl (store st) (problem s) options in
      interviewSessions out.2 !! sid = None
      /\ getSessionStatus out.2 sid = ApiError (js "Session not found") 404
      /\ (forall other, other <> sid ->
            interviewSessions out.2 !! other = interviewSessions st !! other)
      /\ store out.2 = Rag.store_after ran
      /\ out.1 = match Rag.analysis_of ran with
                 | Rag.Failed error =>
                     ApiError (Rag.or_else error (js "Failed to reveal solution")) 500
                 | result => Json (RevealReply result)
                 end
      /\ (Rag.has_keyword env (problem s) = false ->
          exists userPrompt,
            Rag.calls ran =
            [Rag.CallRetrieve (problem s)
               (Rag.RetrieveOptions (Rag.topK (Rag.detailed_config env))
                                    (Some (js "full")));
             Rag.CallChat Rag.SYSTEM_PROMPT userPrompt
               (Rag.ChatOptions (Some 0.3%float)
                                (Rag.maxTokens (Rag.detailed_config env)))])
  end.
Proof.
  intros out. unfold out, revealSolution_handler.
  destruct (interviewSessions st !! sid) as [s|] eqn:E; [|reflexivity].
  cbv zeta.
  set (ran := Rag.analyzeProblem env pl (store st) (problem s)
                (Rag.AnalyzeOptions None true None)).
  assert (C : Rag.has_keyword env (problem s) = false ->
              exists userPrompt,
                Rag.calls ran =
                [Rag.CallRetrieve (problem s)
                   (Rag.RetrieveOptions (Rag.topK (Rag.detailed_config env))
                                        (Some (js "full")));
                 Rag.CallChat Rag.SYSTEM_PROMPT userPrompt
                   (Rag.ChatOptions (Some 0.3%float)
                                    (Rag.maxTokens (Rag.detailed_config env)))]).
  { intros K. unfold ran, Rag.analyzeProblem, Rag.interview_intent.
    rewrite K. cbn [Rag.calls]. eexists. reflexivity. }
  destruct (Rag.analysis_of ran) eqn:A; cbn [fst snd interviewSessions store];
    (split; [apply lookup_delete_eq|]);
    (split; [unfold getSessionStatus; cbn [interviewSessions];
             rewrite lookup_delete_eq; reflexivity|]);
    (split; [intros other O; apply lookup_delete_ne; congruence|]);
    (split; [reflexivity|]); (split; [reflexivity|exact C]).
Qed.

End AnalyzeHandlers.

Section EvaluateHandlers.
Import JS Http EvaluateController.
Context `{Rag.Generation} `{Rag.EvaluationPrompt} `{Templates.JsonParser}.
Context `{Validation} `{Coercion}.

(** X30. A reply of the model that cannot be read is reported as a
    successful evaluation. When the generation succeeds and its reply
    holds no JSON that parses, the evaluate handler replies with score 0
    out of 10, the grade Insufficient and the suggestion "Unable to
    parse evaluation response", not with an error. *)
Theorem unreadable_reply_is_graded_insufficient
    (uuid : jstring) (request : body) (problem code : jstring)
    (llmResult : Rag.llm_result) (e : jstring) :
  validateRequired request [js "problem"; js "code"] = Ok tt ->
  long_enough (body_problem request) = Some problem ->
  long_enough (body_code request) = Some code ->
  Rag.generate (Rag.generateEvaluationPrompt problem code)
    (Rag.ChatOptions (Some 0.3%float) (Some 2048)) = Ok llmResult ->
  Rag.success llmResult = true ->
  Templates.evaluation_try (Rag.response llmResult) = Throw e ->
  exists reply,
    evaluateCode uuid request = Json reply
    /\ score reply = VNum 0%float
    /\ maxScore reply = 10
    /\ grade reply = js "Insufficient"
    /\ message reply = js "Solution requires major revision."
    /\ suggestions reply = VArr [VStr (js "Unable to parse evaluation response")]
    /\ optimal_solution_hint reply = VStr []
    /\ model_used reply = Rag.model llmResult.
Proof.
  intros V P C G S T. unfold evaluateCode, Rag.evaluateCode.
  rewrite V, P, C, G, S. cbn [negb].
  unfold Templates.parseEvaluationResponse. rewrite T.
  assert (F1 : field (Templates.default_evaluation (Rag.response llmResult))
                     (js "score") = Ok (VNum 0%float)) by reflexivity.
  assert (F2 : field (Templates.default_evaluation (Rag.response llmResult))
                     (js "suggestions")
               = Ok (VArr [VStr (js "Unable to parse evaluation response")]))
    by reflexivity.
  assert (F3 : field (Templates.default_evaluation (Rag.response llmResult))
                     (js "optimal_solution_hint") = Ok (VStr []))
    by reflexivity.
  assert (F4 : exists b, field (Templates.default_evaluation (Rag.response llmResult))
                     (js "breakdown") = Ok b) by (eexists; reflexivity).
  destruct F4 as [b F4]. rewrite F1, F2, F3, F4. cbn [bind].
  eexists. split; [reflexivity|]. repeat split.
Qed.

End EvaluateHandlers.

Section ControllerWitnesses.
Import JS Http Doubles TemplatesSpec.

Lemma guided_request_advances_session_witness :
  let index := canned_index [(0, 0.9%float)] in
  let st := @AnalyzeController.State index ∅ (@store index [Some two_sum] 0.7%float) in
  let env := Rag.Environment None None None None None in
  let text := js "Interview mode: find two numbers" in
  let handler :=
    @AnalyzeController.analyzeProblem canned_embedder index no_snapshot
      (canned_completion (js "What are the constraints?"))
      plain_prompts ascii_lower accept_analyze env (Rag.new_pipeline env)
      (js "r-1") (js "s-1") (js "2026-01-01T00:00:00.000Z") st in
  let out :=
    handler (AnalyzeController.Body (VStr text) VUndefined
               (Some (AnalyzeController.Options false None None))) in
  @Rag.has_keyword ascii_lower env text = true
  /\ (exists s, AnalyzeController.interviewSessions out.2 !! js "s-1" = Some s
       /\ AnalyzeController.interactions s = 1
       /\ AnalyzeController.phase s = js "understanding"
       /\ AnalyzeController.problem s = js ": find two numbers")
  /\ handler (AnalyzeController.Body (VStr text) VUndefined None)
     = (OtherError (js "Cannot read properties of null"), st).
Proof.
  intros index st env text handler out.
  assert (K : @Rag.has_keyword ascii_lower env text = true)
    by (vm_compute; reflexivity).
  split; [exact K|]. split.
  - destruct (@guided_request_advances_session
                canned_embedder index no_snapshot
                (canned_completion (js "What are the constraints?"))
                plain_prompts ascii_lower accept_analyze env (Rag.new_pipeline env)
                (js "r-1") (js "s-1") (js "2026-01-01T00:00:00.000Z") st
                (AnalyzeController.Body (VStr text) VUndefined
                   (Some (AnalyzeController.Options false None None)))
                text eq_refl eq_refl K eq_refl)
      as (_ & (s & S1 & S2 & S3 & S4) & _).
    exists s. split; [exact S1|]. split; [exact S2|]. split; [exact S3|].
    rewrite S4. vm_compute. reflexivity.
  - exact (@guided_request_advances_session
             canned_embedder index no_snapshot
             (canned_completion (js "What are the constraints?"))
             plain_prompts ascii_lower accept_analyze env (Rag.new_pipeline env)
             (js "r-1") (js "s-1") (js "2026-01-01T00:00:00.000Z") st
             (AnalyzeController.Body (VStr text) VUndefined None)
             text eq_refl eq_refl K).
Defined.

Lemma unreadable_reply_is_graded_insufficient_witness :
  let request :=
    EvaluateController.Body (VStr (js "Find two numbers that add up."))
                            (VStr (js "class Solution { }")) in
  let reply := js "I cannot evaluate this." in
  @Templates.evaluation_try rubric_parser (VStr reply)
  = Throw (js "Unexpected token")
  /\ exists graded,
       @EvaluateController.evaluateCode (canned_generation reply)
         plain_evaluation_prompt rubric_parser accept_evaluate no_number
         (js "r-1") request = Json graded
       /\ EvaluateController.grade graded = js "Insufficient".
Proof.
  intros request reply.
  assert (T : @Templates.evaluation_try rubric_parser (VStr reply)
              = Throw (js "Unexpected token")) by (vm_compute; reflexivity).
  split; [exact T|].
  destruct (@unreadable_reply_is_graded_insufficient
              (canned_generation reply) plain_evaluation_prompt rubric_parser
              accept_evaluate no_number (js "r-1") request
              (js "Find two numbers that add up.") (js "class Solution { }")
              _ (js "Unexpected token") eq_refl eq_refl eq_refl eq_refl eq_refl T)
    as (graded & E & _ & _ & Gr & _).
  exists graded. split; [exact E|exact Gr].
Defined.

End ControllerWitnesses.
